(** * LLM-discord: response policy, loop guard, conversation cache,
      session identity and inference client

    A shallow embedding of the TypeScript sources of the bot manager
    ([eventHandler.ts], [responseOrchestrator.ts], [llmAPI.ts], [types.ts])
    together with the properties stated about them.

    Conventions.
    - discord.js objects are records holding the fields the code reads.
    - [Date.now()] is an integer number of milliseconds, modelled in [Z].
    - Module-level [Map]s ([botToBotChains], [channelCache]) are [gmap]s
      threaded through the functions that read and write them.
    - An [async] function that can reject returns an [Outcome]. *)

From stdpp Require Import gmap strings list fin_maps pretty sorting.
From Stdlib Require Import ZArith Ascii String.

Local Open Scope string_scope.
Local Open Scope Z_scope.

(** ** JavaScript values shared by all modules *)
Module Js.

(** The result of running a function body: a returned value or a thrown
    error. *)
Inductive Outcome (A : Type) :=
| Return (a : A)
| Throw (message : string).
Arguments Return {A} a.
Arguments Throw {A} message.

(** [await] on a promise that may reject: the rest runs on the value, a
    rejection is passed on. *)
Definition andThen {A B} (o : Outcome A) (k : A -> Outcome B) : Outcome B :=
  match o with
  | Return a => k a
  | Throw message => Throw message
  end.

Fixpoint awaitAll {A} (promises : list (Outcome A)) : Outcome (list A) :=
  match promises with
  | [] => Return []
  | p :: rest =>
      andThen p (fun a => andThen (awaitAll rest) (fun l => Return (a :: l)))
  end.

(** Truthiness of a string: only the empty string is falsy. *)
Definition truthy (s : string) : bool := negb (bool_decide (s = "")).

(** [String.prototype.toLowerCase], on the ASCII letters. Strings are
    byte strings (UTF-8); bytes outside [A-Z] are left as they are, so a
    capital letter outside ASCII, which JavaScript lowers as well, stays
    as it is. *)
Definition lower_ascii (c : ascii) : ascii :=
  let n := nat_of_ascii c in
  if (65 <=? n)%nat && (n <=? 90)%nat then ascii_of_nat (n + 32) else c.

Fixpoint toLowerCase (s : string) : string :=
  match s with
  | EmptyString => EmptyString
  | String c rest => String (lower_ascii c) (toLowerCase rest)
  end.

(** [String.prototype.includes]. *)
Fixpoint includes (hay needle : string) : bool :=
  String.prefix needle hay ||
  match hay with
  | EmptyString => false
  | String _ rest => includes rest needle
  end.

End Js.
Export Js.

(** ** discord.js objects, as far as the sources read them *)
Module Discord.

(** [MessageType] is a numeric enum. *)
Definition MessageType := N.
Definition MessageType_Default : MessageType := 0%N.
Definition MessageType_Reply : MessageType := 19%N.
Definition MessageType_ChatInputCommand : MessageType := 20%N.

(** [PermissionFlagsBits]: bit masks of a permission bit field. *)
Definition Administrator : Z := Z.shiftl 1 3.
Definition ViewChannel : Z := Z.shiftl 1 10.
Definition SendMessages : Z := Z.shiftl 1 11.
Definition ReadMessageHistory : Z := Z.shiftl 1 16.
Definition SendMessagesInThreads : Z := Z.shiftl 1 38.

(** [PermissionsBitField.has(bits)]: every bit present, or administrator. *)
Definition has_bit (perms bit : Z) : bool := Z.land perms bit =? bit.
Definition has (perms : Z) (required : list Z) : bool :=
  has_bit perms Administrator || forallb (has_bit perms) required.

Inductive ChannelKind := DMChannel | GuildTextChannel | ThreadChannel.

Record Channel := {
  channel_id : string;
  kind : ChannelKind;
  channel_guildId : option string;
  parentId : option string;
  (** [channel.topic]; [None] when the channel has no such property. *)
  topic : option string;
  (** [channel.permissionsFor(client.user)], [null] as [None]. *)
  permissionsFor : option Z;
  sendable : bool;
  joined : bool;
  isSendable : bool;
}.

Definition isDMBased (c : Channel) : bool :=
  match kind c with DMChannel => true | _ => false end.
Definition isThread (c : Channel) : bool :=
  match kind c with ThreadChannel => true | _ => false end.

Record User := {
  user_id : string;
  username : string;
  bot : bool;
}.

Record MessageMentions := {
  users : gset string;
  roles : gset string;
  channels : gset string;
  everyone : bool;
}.

Record Embed := {
  title : option string;
  description : option string;
}.

Record Message := {
  message_id : string;
  type : MessageType;
  author : User;
  channel : Channel;
  guildId : option string;
  content : string;
  mentions : MessageMentions;
  embeds : list Embed;
  createdTimestamp : Z;
  (** ISO-8601 rendering of [createdAt]. *)
  createdAt : string;
  (** [message.reference?.messageId]. *)
  reference : option string;
}.

End Discord.
Export Discord.

(** ** types.ts *)
Module Types.

(** Values of [customFields]: parsed JSON. *)
#[warnings="-register-all"] Inductive Json :=
| JNull
| JBool (b : bool)
| JNum (n : Z)
| JStr (s : string)
| JArr (items : list Json)
| JObj (fields : list (string * Json)).

Record BotConfig := {
  id : string;
  discordBotToken : string;
  inferUrl : string;
  apiKey : option string;
  sessionHeaderName : option string;
  convLength : nat;
  respondTo : option string;
  respondAsReply : bool;
  customFields : gmap string Json;
}.

Record ConversationMessage := {
  cm_username : string;
  text : string;
  timestamp : option string;
}.

Record BaseMessageOptions := {
  options_content : option string;
  options_embeds : list Embed;
}.

Inductive Reply :=
| ReplyString (s : string)
| ReplyOptions (o : BaseMessageOptions).

(** The response body, typed as the interface declares it; a field that
    is absent is [None]. *)
Record LLMResponse := {
  success : option bool;
  reply : option Reply;
  stop_reason : option string;
  error : option string;
}.

(** [LLMResult]. The payload of a success is what [parseLLMResponse]
    took from the body, [None] when the body had no [reply]. *)
Inductive LLMResult :=
| Success (reply : option BaseMessageOptions)
| RateLimited.

(** [client.user!.id] and [client.botConfig!]. *)
Record Client := {
  botId : string;
  botConfig : BotConfig;
}.

End Types.
Export Types.

(** ** eventHandler.ts *)
Module EventHandler.

Record BotConversationChain := {
  chainCount : Z;
  lastBotId : string;
  lastActivity : Z;
}.

(** What one call of [shouldRespond] observes of its surroundings. *)
Record Env := {
  (** the value of [Date.now()] *)
  now : Z;
  (** [getDisplayName(userId, guildId)] of the orchestrator *)
  getDisplayName : string -> option string -> Outcome string;
}.

(** The loop-protection block of [shouldRespond] ("Protect against bot
    loops"). The flag says that the block executed [return false]. *)
Definition loopGuard (botId : string) (now : Z) (message : Message)
    (botToBotChains : gmap string BotConversationChain)
  : gmap string BotConversationChain * bool :=
  if bot (author message) then
    if bool_decide (user_id (author message) = botId) then
      (botToBotChains, true)
    else
      let chain :=
        default {| chainCount := 0; lastBotId := ""; lastActivity := 0 |}
                (botToBotChains !! channel_id (channel message)) in
      let chain :=
        if 600000 <? now - lastActivity chain
        then {| chainCount := 0; lastBotId := "";
                lastActivity := lastActivity chain |}
        else chain in
      let chain :=
        if truthy (lastBotId chain)
           && negb (bool_decide (lastBotId chain = user_id (author message)))
        then {| chainCount := chainCount chain + 1;
                lastBotId := lastBotId chain;
                lastActivity := lastActivity chain |}
        else chain in
      let chain :=
        {| chainCount := chainCount chain;
           lastBotId := user_id (author message);
           lastActivity := now |} in
      (<[channel_id (channel message) := chain]> botToBotChains,
       3 <=? chainCount chain)
  else (botToBotChains, false).

Definition isStandardType (t : MessageType) : bool :=
  bool_decide (t = MessageType_Default) || bool_decide (t = MessageType_Reply).

Definition hasAnyMention (m : MessageMentions) : bool :=
  everyone m
  || bool_decide (0 < size (users m))%nat
  || bool_decide (0 < size (roles m))%nat
  || bool_decide (0 < size (channels m))%nat.

(** [shouldRespond], current version. *)
Definition shouldRespond (client : Client) (env : Env) (message : Message)
    (botToBotChains : gmap string BotConversationChain)
  : gmap string BotConversationChain * Outcome bool :=
  let channel := channel message in
  if negb (isStandardType (type message)) then (botToBotChains, Return false)
  else
    let '(chains, stop) :=
      loopGuard (botId client) (now env) message botToBotChains in
    if stop then (chains, Return false)
    else if negb (isDMBased channel)
            && match permissionsFor channel with
               | None => true
               | Some perms =>
                   negb (has perms [ViewChannel; SendMessages; ReadMessageHistory])
               end
    then (chains, Return false)
    else
      let isBotMentioned :=
        bool_decide (botId client ∈ users (mentions message)) in
      if hasAnyMention (mentions message) && negb isBotMentioned
      then (chains, Return false)
      else if isThread channel
      then (chains, Return (sendable channel && joined channel))
      else if bool_decide (respondTo (botConfig client) = Some "dynamic")
              || isDMBased channel
              || isBotMentioned
      then (chains, Return true)
      else if bool_decide (respondTo (botConfig client) = Some "name")
      then
        match getDisplayName env (botId client) (guildId message) with
        | Throw e => (chains, Throw e)
        | Return name =>
            (chains,
             Return (includes (toLowerCase (content message))
                              (toLowerCase name)))
        end
      else (chains, Return false).

(** Events delivered one after the other, each with its own clock
    reading; the chain table is carried from one call to the next. *)
Fixpoint runEvents (client : Client) (events : list (Env * Message))
    (botToBotChains : gmap string BotConversationChain)
  : gmap string BotConversationChain * list (Outcome bool) :=
  match events with
  | [] => (botToBotChains, [])
  | (env, message) :: rest =>
      let '(chains, verdict) :=
        shouldRespond client env message botToBotChains in
      let '(final, verdicts) := runEvents client rest chains in
      (final, verdict :: verdicts)
  end.

End EventHandler.

(** ** eventHandler.ts, the earlier version kept in the repository *)
Module EventHandlerLegacy.
Import EventHandler.

(** [shouldRespond] before message types, foreign mentions and thread
    membership were checked. The loop-protection block is the same. *)
Definition shouldRespond (client : Client) (env : Env) (message : Message)
    (botToBotChains : gmap string BotConversationChain)
  : gmap string BotConversationChain * Outcome bool :=
  let channel := channel message in
  let '(chains, stop) :=
    loopGuard (botId client) (now env) message botToBotChains in
  if stop then (chains, Return false)
  else if negb (isDMBased channel)
          && match permissionsFor channel with
             | None => true
             | Some perms =>
                 negb (has perms
                         ([ViewChannel; SendMessages; ReadMessageHistory]
                          ++ (if isThread channel
                              then [SendMessagesInThreads] else [])))
             end
  then (chains, Return false)
  else if bool_decide (respondTo (botConfig client) = Some "dynamic")
  then (chains, Return true)
  else if isDMBased channel || isThread channel
  then (chains, Return true)
  else if bool_decide (botId client ∈ users (mentions message))
  then (chains, Return true)
  else
    match getDisplayName env (botId client) (guildId message) with
    | Throw e => (chains, Throw e)
    | Return name =>
        (chains,
         Return (includes (toLowerCase (content message)) (toLowerCase name)))
    end.

(** The opening of [handleMessageCreate] in the first version of the
    manager: the only place there that touches [botToBotChains]. The flag
    says that the handler returned. *)
Definition shouldAllowBotMessage (message : Message) : bool := true.

Definition managerGuard (clientUserId : option string) (message : Message)
    (botToBotChains : gmap string BotConversationChain)
  : gmap string BotConversationChain * bool :=
  if bot (author message) then
    if bool_decide (Some (user_id (author message)) = clientUserId)
    then (botToBotChains, true)
    else if negb (shouldAllowBotMessage message) then (botToBotChains, true)
    else (delete (channel_id (channel message)) botToBotChains, false)
  else (botToBotChains, false).

End EventHandlerLegacy.

(** ** llmAPI.ts *)
Module LlmAPI.

(** The body of an HTTP response as axios hands it over: [null], a
    string, or a parsed object. *)
Inductive ResponseData :=
| DataNull
| DataString (s : string)
| DataObject (o : LLMResponse).

Record Response := {
  status : Z;
  data : ResponseData;
}.

(** A value of the request body. *)
Inductive BodyValue :=
| BodyText (s : string)
| BodyConversation (conversation : list ConversationMessage)
| BodyJson (j : Json).

Record Request := {
  url : string;
  body : gmap string BodyValue;
  headers : gmap string string;
}.

(** What happened to a request on the wire: the endpoint answered, or no
    response arrived (network failure, timeout). *)
Inductive Exchange :=
| Answered (response : Response)
| Unanswered.

(** What a [try] block can throw here: an [Error] (or [TypeError]) with
    its message, or an [AxiosError] with the response it carries. *)
Inductive Thrown :=
| JsError (message : string)
| AxiosError (response : option Response).

(** [axios.post] under the default [validateStatus]: a status from 200 to
    299 resolves, any other status rejects with an [AxiosError] that
    carries the response. *)
Definition axios_post (endpoint : Request -> Exchange) (request : Request)
  : Thrown + Response :=
  match endpoint request with
  | Answered response =>
      if (200 <=? status response) && (status response <? 300)
      then inr response
      else inl (AxiosError (Some response))
  | Unanswered => inl (AxiosError None)
  end.

Section WithStringify.

(** [JSON.stringify(data, null, 2)] on an object body. *)
Variable JSON_stringify : LLMResponse -> string.

Definition parseLLMResponse (data : ResponseData) : Thrown + LLMResult :=
  match data with
  | DataNull =>
      inl (JsError "Cannot read properties of null (reading 'success')")
  | DataString s =>
      inr (Success (Some {| options_content := Some s; options_embeds := [] |}))
  | DataObject o =>
      match success o with
      | None =>
          inr (Success (Some {| options_content := Some (JSON_stringify o);
                                options_embeds := [] |}))
      | Some false =>
          inl (JsError (default "API request failed" (error o)))
      | Some true =>
          inr (Success
                 match reply o with
                 | Some (ReplyString s) =>
                     Some {| options_content := Some s; options_embeds := [] |}
                 | Some (ReplyOptions o) => Some o
                 | None => None
                 end)
      end
  end.

(** The object literal posted to the endpoint. The spread of
    [customFields] comes last, so its keys win. *)
Definition requestBody (botConfig : BotConfig)
    (conversation : list ConversationMessage) (first : ConversationMessage)
  : gmap string BodyValue :=
  if bool_decide (convLength botConfig = 0%nat)
  then (BodyJson <$> customFields botConfig)
         ∪ {["message" := BodyText (text first)]}
  else (BodyJson <$> customFields botConfig)
         ∪ {["conversation" := BodyConversation conversation]}.

Definition requestHeaders (botConfig : BotConfig) (sessionId : string)
  : gmap string string :=
  match sessionHeaderName botConfig with
  | Some name => if truthy name then {[name := sessionId]} else ∅
  | None => ∅
  end
  ∪ {["Authorization" := "Bearer " +:+ default "undefined" (apiKey botConfig);
      "Content-Type" := "application/json"]}.

Definition buildRequest (botConfig : BotConfig)
    (conversation : list ConversationMessage) (first : ConversationMessage)
    (sessionId : string) : Request :=
  {| url := inferUrl botConfig;
     body := requestBody botConfig conversation first;
     headers := requestHeaders botConfig sessionId |}.

(** The [try] block of [callLLM]. *)
Definition callLLM_try (endpoint : Request -> Exchange) (botConfig : BotConfig)
    (conversation : list ConversationMessage) (sessionId : string)
  : Thrown + LLMResult :=
  match conversation with
  | [] => inl (JsError "Conversation array cannot be empty")
  | first :: _ =>
      match axios_post endpoint
              (buildRequest botConfig conversation first sessionId) with
      | inl thrown => inl thrown
      | inr response =>
          if negb (status response =? 200)
          then inl (JsError ("Request failed with status code "
                             +:+ pretty (status response)))
          else parseLLMResponse (data response)
      end
  end.

(** [axiosError.response.data?.error], when truthy. *)
Definition upstreamError (data : ResponseData) : option string :=
  match data with
  | DataObject o =>
      match error o with
      | Some e => if truthy e then Some e else None
      | None => None
      end
  | _ => None
  end.

(** The [catch] block of [callLLM]. *)
Definition callLLM_catch (thrown : Thrown) : Outcome LLMResult :=
  match thrown with
  | AxiosError (Some response) =>
      if status response =? 429 then Return RateLimited
      else match upstreamError (data response) with
           | Some e => Throw e
           | None => Throw "Failed to get response from LLM"
           end
  | _ => Throw "Failed to get response from LLM"
  end.

Definition callLLM (endpoint : Request -> Exchange) (botConfig : BotConfig)
    (conversation : list ConversationMessage) (sessionId : string)
  : Outcome LLMResult :=
  match callLLM_try endpoint botConfig conversation sessionId with
  | inr result => Return result
  | inl thrown => callLLM_catch thrown
  end.

End WithStringify.

End LlmAPI.

(** ** Base64, as [Buffer.prototype.toString('base64')] produces it *)
Module Base64.

(** The character of a six-bit value, in the alphabet [A-Z a-z 0-9 + /].
    The value is held in the low six bits of an [ascii]. *)
Definition digit (sextet : ascii) : ascii :=
  let n := nat_of_ascii sextet in
  if (n <? 26)%nat then ascii_of_nat (65 + n)
  else if (n <? 52)%nat then ascii_of_nat (97 + (n - 26))
  else if (n <? 62)%nat then ascii_of_nat (48 + (n - 52))
  else if (n =? 62)%nat then "+"%char
  else "/"%char.

Definition undigit (c : ascii) : option ascii :=
  let n := nat_of_ascii c in
  if (65 <=? n)%nat && (n <=? 90)%nat then Some (ascii_of_nat (n - 65))
  else if (97 <=? n)%nat && (n <=? 122)%nat then Some (ascii_of_nat (n - 71))
  else if (48 <=? n)%nat && (n <=? 57)%nat then Some (ascii_of_nat (n + 4))
  else if (n =? 43)%nat then Some (ascii_of_nat 62)
  else if (n =? 47)%nat then Some (ascii_of_nat 63)
  else None.

Definition isPad (c : ascii) : bool := Ascii.eqb c "="%char.

(** Three bytes regrouped into four six-bit values, most significant bits
    first. ([Ascii] lists the bits of a byte from the least significant.) *)
Definition split3 (x y z : ascii) : ascii * ascii * ascii * ascii :=
  let 'Ascii x0 x1 x2 x3 x4 x5 x6 x7 := x in
  let 'Ascii y0 y1 y2 y3 y4 y5 y6 y7 := y in
  let 'Ascii z0 z1 z2 z3 z4 z5 z6 z7 := z in
  (Ascii x2 x3 x4 x5 x6 x7 false false,
   Ascii y4 y5 y6 y7 x0 x1 false false,
   Ascii z6 z7 y0 y1 y2 y3 false false,
   Ascii z0 z1 z2 z3 z4 z5 false false).

Definition join4 (a b c d : ascii) : ascii * ascii * ascii :=
  let 'Ascii a0 a1 a2 a3 a4 a5 _ _ := a in
  let 'Ascii b0 b1 b2 b3 b4 b5 _ _ := b in
  let 'Ascii c0 c1 c2 c3 c4 c5 _ _ := c in
  let 'Ascii d0 d1 d2 d3 d4 d5 _ _ := d in
  (Ascii b4 b5 a0 a1 a2 a3 a4 a5,
   Ascii c2 c3 c4 c5 b0 b1 b2 b3,
   Ascii d0 d1 d2 d3 d4 d5 c0 c1).

Fixpoint encode (bytes : string) : string :=
  match bytes with
  | EmptyString => EmptyString
  | String x EmptyString =>
      let '(a, b, _, _) := split3 x zero zero in
      String (digit a) (String (digit b) "==")
  | String x (String y EmptyString) =>
      let '(a, b, c, _) := split3 x y zero in
      String (digit a) (String (digit b) (String (digit c) "="))
  | String x (String y (String z rest)) =>
      let '(a, b, c, d) := split3 x y z in
      String (digit a) (String (digit b) (String (digit c)
        (String (digit d) (encode rest))))
  end.

Fixpoint decode (s : string) : option string :=
  match s with
  | EmptyString => Some EmptyString
  | String p (String q (String r (String t rest))) =>
      match undigit p, undigit q with
      | Some a, Some b =>
          if isPad t then
            match rest with
            | EmptyString =>
                if isPad r then
                  let '(x, _, _) := join4 a b zero zero in
                  Some (String x EmptyString)
                else
                  match undigit r with
                  | Some c =>
                      let '(x, y, _) := join4 a b c zero in
                      Some (String x (String y EmptyString))
                  | None => None
                  end
            | _ => None
            end
          else
            match undigit r, undigit t, decode rest with
            | Some c, Some d, Some tail =>
                let '(x, y, z) := join4 a b c d in
                Some (String x (String y (String z tail)))
            | _, _, _ => None
            end
      | _, _ => None
      end
  | _ => None
  end.

End Base64.

(** ** The session id of [processConversation] *)
Module Session.

Definition dquote : ascii := "034"%char.
Definition backslash : ascii := "092"%char.

(** [p] written in front of [k]. *)
Fixpoint onto (p k : string) : string :=
  match p with
  | EmptyString => k
  | String c p' => String c (onto p' k)
  end.

Definition hexDigit (n : nat) : ascii :=
  if (n <? 10)%nat then ascii_of_nat (48 + n) else ascii_of_nat (87 + n).

(** One character of a string as [JSON.stringify] writes it: the quote
    and the backslash are escaped, the control characters get their short
    escape or [\u00xx], every other byte stands for itself. Strings are
    UTF-8 byte strings, so a character outside ASCII passes through as its
    bytes. *)
Definition escapeOnto (c : ascii) (k : string) : string :=
  let n := nat_of_ascii c in
  if Ascii.eqb c dquote then String backslash (String dquote k)
  else if Ascii.eqb c backslash then String backslash (String backslash k)
  else if (n =? 8)%nat then String backslash (String "b" k)
  else if (n =? 12)%nat then String backslash (String "f" k)
  else if (n =? 10)%nat then String backslash (String "n" k)
  else if (n =? 13)%nat then String backslash (String "r" k)
  else if (n =? 9)%nat then String backslash (String "t" k)
  else if (n <? 32)%nat then
    String backslash (String "u" (String "0" (String "0"
      (String (hexDigit (n / 16)) (String (hexDigit (n mod 16)) k)))))
  else String c k.

Fixpoint quoteBody (s k : string) : string :=
  match s with
  | EmptyString => String dquote k
  | String c rest => escapeOnto c (quoteBody rest k)
  end.

(** A string value, quoted, in front of [k]. *)
Definition quoteOnto (s k : string) : string := String dquote (quoteBody s k).

(** A member key with its colon, in front of [k]. *)
Definition keyOnto (name k : string) : string :=
  String dquote (onto name (String dquote (String ":" k))).

Definition valueOnto (v : option string) (k : string) : string :=
  match v with
  | Some s => quoteOnto s k
  | None => onto "null" k
  end.

Record SessionData := {
  sd_botId : string;
  sd_botName : string;
  sd_userId : string;
  (** [channel.parentId] of a thread can be [null] *)
  sd_channelId : option string;
}.

(** [JSON.stringify(sessionData)]: the members in the order of the object
    literal, no white space. *)
Definition JSON_stringify (d : SessionData) : string :=
  onto "{"
    (keyOnto "botId" (quoteOnto (sd_botId d) (onto ","
    (keyOnto "botName" (quoteOnto (sd_botName d) (onto ","
    (keyOnto "userId" (quoteOnto (sd_userId d) (onto ","
    (keyOnto "channelId" (valueOnto (sd_channelId d) "}"))))))))))).

(** The object literal [sessionData]. *)
Definition sessionData (botId botName userId : string) (channel : Channel)
  : SessionData :=
  {| sd_botId := botId;
     sd_botName := botName;
     sd_userId := userId;
     sd_channelId :=
       if isThread channel then parentId channel
       else Some (channel_id channel) |}.

(** [Buffer.from(JSON.stringify(sessionData)).toString('base64')]. *)
Definition sessionId (d : SessionData) : string :=
  Base64.encode (JSON_stringify d).

(** *** Reading a session id back *)

Definition hexValue (c : ascii) : option nat :=
  let n := nat_of_ascii c in
  if (48 <=? n)%nat && (n <=? 57)%nat then Some (n - 48)%nat
  else if (97 <=? n)%nat && (n <=? 102)%nat then Some (n - 87)%nat
  else if (65 <=? n)%nat && (n <=? 70)%nat then Some (n - 55)%nat
  else None.

Definition unescape (c : ascii) : option ascii :=
  if Ascii.eqb c dquote then Some dquote
  else if Ascii.eqb c backslash then Some backslash
  else if Ascii.eqb c "/" then Some "/"%char
  else if Ascii.eqb c "b" then Some (ascii_of_nat 8)
  else if Ascii.eqb c "f" then Some (ascii_of_nat 12)
  else if Ascii.eqb c "n" then Some (ascii_of_nat 10)
  else if Ascii.eqb c "r" then Some (ascii_of_nat 13)
  else if Ascii.eqb c "t" then Some (ascii_of_nat 9)
  else None.

Definition prepend (c : ascii) (r : string * string) : string * string :=
  (String c r.1, r.2).

(** The characters of a JSON string up to its closing quote, and what
    follows the quote. A [\uXXXX] escape is read when it names an ASCII
    character. *)
Fixpoint readBody (s : string) : option (string * string) :=
  match s with
  | EmptyString => None
  | String c rest =>
      if Ascii.eqb c dquote then Some (EmptyString, rest)
      else if Ascii.eqb c backslash then
        match rest with
        | EmptyString => None
        | String e rest' =>
            if Ascii.eqb e "u" then
              match rest' with
              | String h1 (String h2 (String h3 (String h4 rest''))) =>
                  match hexValue h1, hexValue h2, hexValue h3, hexValue h4 with
                  | Some 0%nat, Some 0%nat, Some v3, Some v4 =>
                      if (v3 <? 8)%nat
                      then option_map (prepend (ascii_of_nat (16 * v3 + v4)))
                                      (readBody rest'')
                      else None
                  | _, _, _, _ => None
                  end
              | _ => None
              end
            else
              match unescape e with
              | Some ch => option_map (prepend ch) (readBody rest')
              | None => None
              end
        end
      else if (nat_of_ascii c <? 32)%nat then None
      else option_map (prepend c) (readBody rest)
  end.

Definition readQuoted (s : string) : option (string * string) :=
  match s with
  | String c rest => if Ascii.eqb c dquote then readBody rest else None
  | EmptyString => None
  end.

(** [s] without its prefix [p]. *)
Fixpoint expect (p s : string) : option string :=
  match p with
  | EmptyString => Some s
  | String c p' =>
      match s with
      | String d s' => if Ascii.eqb c d then expect p' s' else None
      | EmptyString => None
      end
  end.

Definition readValue (s : string) : option (option string * string) :=
  match expect "null" s with
  | Some rest => Some (None, rest)
  | None =>
      match readQuoted s with
      | Some (v, rest) => Some (Some v, rest)
      | None => None
      end
  end.

Definition readMember (name s : string) : option (option string * string) :=
  match expect (keyOnto name EmptyString) s with
  | Some rest => readValue rest
  | None => None
  end.

(** Modelled from the spec: the reading side of the session id, which the
    repository leaves to the endpoint ("reversible encoding, e.g. base64
    of a small structured record"). It parses the JSON text of a session
    record: the four members in the order they are written, the first
    three strings, the last a string or [null]. *)
Definition JSON_parse (s : string) : option SessionData :=
  s ← expect "{" s;
  '(botId, s) ← readMember "botId" s;
  s ← expect "," s;
  '(botName, s) ← readMember "botName" s;
  s ← expect "," s;
  '(userId, s) ← readMember "userId" s;
  s ← expect "," s;
  '(channelId, s) ← readMember "channelId" s;
  s ← expect "}" s;
  match botId, botName, userId, s with
  | Some botId, Some botName, Some userId, EmptyString =>
      Some {| sd_botId := botId; sd_botName := botName;
              sd_userId := userId; sd_channelId := channelId |}
  | _, _, _, _ => None
  end.

(** Modelled from the spec: [decode], the inverse the spec's round trip
    refers to: base64 decoding followed by parsing. *)
Definition decode (sessionId : string) : option SessionData :=
  json ← Base64.decode sessionId; JSON_parse json.

End Session.

(** ** responseOrchestrator.ts *)
Module Orchestrator.
Import LlmAPI.

(** *** Mentions *)

(** [text.replace(/<@!?(\d+)>/g, ...)] as one pass over the text. The
    scanner remembers how much of a mention it has read; a mention that
    does not complete is written out unchanged. No [<] occurs inside a
    partly read mention, so matching resumes at the character that broke
    it. *)
Inductive Scan :=
| Idle
| SeenLt
| SeenAt (bang : bool)
| InDigits (bang : bool) (digits : string).

Definition pending (st : Scan) : string :=
  match st with
  | Idle => ""
  | SeenLt => "<"
  | SeenAt bang => "<@" +:+ (if bang then "!" else "")
  | InDigits bang digits => "<@" +:+ (if bang then "!" else "") +:+ digits
  end.

Definition isDigit (c : ascii) : bool :=
  (48 <=? nat_of_ascii c)%nat && (nat_of_ascii c <=? 57)%nat.

Definition restart (c : ascii) : string * Scan :=
  if Ascii.eqb c "<" then ("", SeenLt) else (String c "", Idle).

Definition giveUp (st : Scan) (c : ascii) : string * Scan :=
  let '(out, st') := restart c in (pending st +:+ out, st').

Definition step (nameMap : gmap string string) (st : Scan) (c : ascii)
  : string * Scan :=
  match st with
  | Idle => restart c
  | SeenLt => if Ascii.eqb c "@" then ("", SeenAt false) else giveUp st c
  | SeenAt bang =>
      if isDigit c then ("", InDigits bang (String c ""))
      else if negb bang && Ascii.eqb c "!" then ("", SeenAt true)
      else giveUp st c
  | InDigits bang digits =>
      if isDigit c then ("", InDigits bang (digits +:+ String c ""))
      else if Ascii.eqb c ">"
      then (default ("<@" +:+ digits +:+ ">") (nameMap !! digits), Idle)
      else giveUp st c
  end.

Fixpoint scan (nameMap : gmap string string) (st : Scan) (text : string)
  : string :=
  match text with
  | EmptyString => pending st
  | String c rest =>
      let '(out, st') := step nameMap st c in out +:+ scan nameMap st' rest
  end.

Definition replaceMentions (nameMap : gmap string string) (text : string)
  : string :=
  scan nameMap Idle text.

(** *** The world of one handler run *)

(** A call made on the platform. *)
Inductive Action :=
| SendTyping (channelId : string)
| ReplyTo (messageId : string) (payload : option BaseMessageOptions)
| Send (channelId : string) (payload : option BaseMessageOptions)
| ReplyText (messageId : string) (text : string).

Record World := {
  (** the value of [Date.now()] *)
  now : Z;
  (** [new Date().toISOString()] *)
  nowISO : string;
  (** [channel.messages.fetch({ limit, before })], by channel id *)
  fetchMessages : string -> nat -> string -> Outcome (list Message);
  (** [getDisplayName(userId, guildId)] *)
  getDisplayName : string -> option string -> Outcome string;
  (** [channel.messages.cache.get(id)] *)
  cachedMessage : string -> option Message;
  (** [message.fetchReference().catch(() => null)] *)
  fetchReference : option Message;
  (** [(await channel.messages.fetch({ before, limit: 1 })).first()] *)
  fetchPreceding : Outcome (option Message);
  (** the inference endpoint *)
  endpoint : Request -> Exchange;
  JSON_stringify : LLMResponse -> string;
  (** whether the platform carries out a call *)
  accepts : Action -> bool;
}.

(** An array of conversation messages together with its identity: the
    serial number of the fetch that allocated it. *)
Record Conversation := {
  identity : nat;
  items : list ConversationMessage;
}.

Record CacheEntry := {
  lastFetchTime : Z;
  messages : Conversation;
}.

Record State := {
  channelCache : gmap string CacheEntry;
  (** calls of [fetchConversationFromDiscord] so far *)
  upstreamFetches : nat;
  (** handles of the intervals that are running *)
  intervals : gset nat;
  (** the handle [setInterval] hands out next *)
  nextInterval : nat;
  (** platform calls of the handler's own statements that were carried
      out, latest first; the [sendTyping] calls that the callback of a
      running interval makes are not among them *)
  done_ : list Action;
}.

(** *** fetchConversationFromDiscord *)

Fixpoint insertByTime (m : Message) (sorted : list Message) : list Message :=
  match sorted with
  | [] => [m]
  | x :: rest =>
      if createdTimestamp x <=? createdTimestamp m
      then x :: insertByTime m rest
      else m :: x :: rest
  end.

(** [Array.prototype.sort] by [createdTimestamp]; the sort is stable. *)
Definition sortByTime (l : list Message) : list Message :=
  fold_left (fun acc m => insertByTime m acc) l [].

(** [Array.from(new Set(ids))]: first occurrences, in order. *)
Definition distinct (ids : list string) : list string :=
  fold_left (fun acc x => if bool_decide (x ∈ acc) then acc else acc ++ [x])%list
            ids [].

Definition embedText (e : Embed) : string :=
  String.concat " "
    (List.filter truthy
       (omap (fun x : option string => x) [title e; description e])).

Definition formatMessage (nameMap : gmap string string) (msg : Message)
  : ConversationMessage :=
  {| timestamp := Some (createdAt msg);
     cm_username :=
       default (username (author msg)) (nameMap !! user_id (author msg));
     text :=
       replaceMentions nameMap (content msg)
       +:+ match embeds msg with
           | [] => ""
           | es => " " +:+ String.concat " " (map embedText es)
           end |}.

Definition fetchConversationFromDiscord (w : World) (botId : string)
    (message : Message) (limit : nat) : Outcome (list ConversationMessage) :=
  let channel := channel message in
  andThen
    (if bool_decide (limit = 0%nat) then Return []
     else andThen (fetchMessages w (channel_id channel) limit
                     (message_id message))
                  (fun fetched => Return (sortByTime fetched)))
    (fun sorted =>
       let sorted :=
         if bool_decide (user_id (author message) = botId) then sorted
         else (sorted ++ [message])%list in
       let userIds := distinct (map (fun msg => user_id (author msg)) sorted) in
       let guildId :=
         if isDMBased channel then None else channel_guildId channel in
       andThen
         (awaitAll (map (fun userId => getDisplayName w userId guildId) userIds))
         (fun displayNames =>
            let nameMap : gmap string string :=
              list_to_map (zip userIds displayNames) in
            let messages := map (formatMessage nameMap) sorted in
            Return
              match topic channel with
              | Some t =>
                  if truthy t
                  then {| timestamp := Some (nowISO w);
                          cm_username := "Channel Topic";
                          text := t |} :: messages
                  else messages
              | None => messages
              end)).

(** *** ephemeralFetchConversation *)

Definition ephemeralFetchConversation (w : World) (botId : string)
    (message : Message) (limit : nat) (cacheDurationMs : Z) (st : State)
  : State * Outcome Conversation :=
  let cacheKey := channel_id (channel message) in
  let fresh :=
    match channelCache st !! cacheKey with
    | Some cached =>
        if now w - lastFetchTime cached <? cacheDurationMs
        then Some (messages cached) else None
    | None => None
    end in
  match fresh with
  | Some messages => (st, Return messages)
  | None =>
      let serial := S (upstreamFetches st) in
      match fetchConversationFromDiscord w botId message limit with
      | Throw e =>
          ({| channelCache := channelCache st;
              upstreamFetches := serial;
              intervals := intervals st;
              nextInterval := nextInterval st;
              done_ := done_ st |},
           Throw e)
      | Return fetched =>
          let messages := {| identity := serial; items := fetched |} in
          let cache :=
            <[cacheKey := {| lastFetchTime := now w; messages := messages |}]>
              (channelCache st) in
          let cache :=
            if bool_decide (1000 < size cache)%nat
            then filter (fun kv : string * CacheEntry =>
                           ¬ (lastFetchTime kv.2 < now w - cacheDurationMs))
                        cache
            else cache in
          ({| channelCache := cache;
              upstreamFetches := serial;
              intervals := intervals st;
              nextInterval := nextInterval st;
              done_ := done_ st |},
           Return messages)
      end
  end.

(** *** processConversation *)

(** A platform call: carried out and recorded, or rejected. *)
Definition perform (w : World) (a : Action) (st : State) : State * bool :=
  if accepts w a
  then ({| channelCache := channelCache st;
           upstreamFetches := upstreamFetches st;
           intervals := intervals st;
           nextInterval := nextInterval st;
           done_ := a :: done_ st |}, true)
  else (st, false).

(** [setInterval]: a new handle, running from now on. Only the handle is
    kept: the callback, which calls [channel.sendTyping()] every 8000 ms
    for as long as the handle lives, is not run here. *)
Definition setInterval (st : State) : State * nat :=
  ({| channelCache := channelCache st;
      upstreamFetches := upstreamFetches st;
      intervals := {[nextInterval st]} ∪ intervals st;
      nextInterval := S (nextInterval st);
      done_ := done_ st |},
   nextInterval st).

Definition clearInterval (handle : nat) (st : State) : State :=
  {| channelCache := channelCache st;
     upstreamFetches := upstreamFetches st;
     intervals := intervals st ∖ {[handle]};
     nextInterval := nextInterval st;
     done_ := done_ st |}.

(** The message of a user that a message of the bot itself answers: the
    referenced message, else the one before. [None] stands for the
    [return] of the [catch] block. *)
Definition resolveUserMessage (w : World) (botId : string) (message : Message)
  : option Message :=
  if negb (bool_decide (user_id (author message) = botId)) then Some message
  else
    let referenced :=
      match reference message with
      | Some messageId =>
          if truthy messageId
          then match cachedMessage w messageId with
               | Some m => Some m
               | None => fetchReference w
               end
          else None
      | None => None
      end in
    match referenced with
    | Some m => Some m
    | None =>
        match fetchPreceding w with
        | Return (Some m) => Some m
        | Return None => None
        | Throw _ => None
        end
    end.

(** The [try] / [catch] / [finally] that delivers the reply. *)
Definition deliver (w : World) (channel : Channel) (userMessage : Message)
    (respondAsReply : bool) (reply : option BaseMessageOptions)
    (typingInterval : nat) (st : State) : State * Outcome unit :=
  let attempt :=
    if respondAsReply then ReplyTo (message_id userMessage) reply
    else Send (channel_id channel) reply in
  let '(st, sent) := perform w attempt st in
  if sent then (clearInterval typingInterval st, Return tt)
  else
    let '(st, apologised) :=
      perform w
        (ReplyText (message_id userMessage)
           "Beep boop, something went wrong. Please contact the owner.")
        st in
    (clearInterval typingInterval st,
     if apologised then Return tt else Throw "reply failed").

Definition processConversation (w : World) (client : Client)
    (message : Message) (respondAsReply : bool) (st : State)
  : State * Outcome unit :=
  let channel := channel message in
  let botConfig := botConfig client in
  let botId := botId client in
  if negb (isSendable channel) then (st, Return tt)
  else
    match ephemeralFetchConversation w botId message (convLength botConfig)
            5000 st with
    | (st, Throw e) => (st, Throw e)
    | (st, Return conversation) =>
        let '(st, typing) := perform w (SendTyping (channel_id channel)) st in
        if negb typing then (st, Throw "sendTyping failed")
        else
          let '(st, typingInterval) := setInterval st in
          match resolveUserMessage w botId message with
          | None => (st, Return tt)
          | Some userMessage =>
              match getDisplayName w botId (guildId message) with
              | Throw e => (st, Throw e)
              | Return botName =>
                  let sessionId :=
                    Session.sessionId
                      (Session.sessionData botId botName
                         (user_id (author userMessage)) channel) in
                  match callLLM (JSON_stringify w) (endpoint w) botConfig
                          (items conversation) sessionId with
                  | Throw e => (st, Throw e)
                  | Return RateLimited => (st, Return tt)
                  | Return (Success reply) =>
                      deliver w channel userMessage respondAsReply reply
                        typingInterval st
                  end
              end
          end
    end.

End Orchestrator.

(** ** eventHandler.ts: the message handler *)
Module Handlers.
Import Orchestrator.

(** [handleMessageCreate]: the decision, then the conversation. Both run
    in the same world. *)
Definition handleMessageCreate (w : World) (client : Client)
    (message : Message)
    (botToBotChains : gmap string EventHandler.BotConversationChain)
    (st : State)
  : gmap string EventHandler.BotConversationChain * State * Outcome unit :=
  let env :=
    {| EventHandler.now := now w;
       EventHandler.getDisplayName := getDisplayName w |} in
  match EventHandler.shouldRespond client env message botToBotChains with
  | (chains, Throw e) => (chains, st, Throw e)
  | (chains, Return false) => (chains, st, Return tt)
  | (chains, Return true) =>
      let channel := channel message in
      let respondAsReply :=
        bool_decide (botId client ∈ users (mentions message))
        || (respondAsReply (botConfig client)
            && negb (isDMBased channel || isThread channel)) in
      let '(st, outcome) :=
        processConversation w client message respondAsReply st in
      (chains, st, outcome)
  end.

End Handlers.

(** ** Vocabulary of the statements about the loop guard *)
Module GuardSpec.
Import EventHandler.

(** The chain count recorded for a channel; a channel without an entry
    counts zero. *)
Definition chainCountOf (chains : gmap string BotConversationChain)
    (channelId : string) : Z :=
  match chains !! channelId with
  | Some chain => chainCount chain
  | None => 0
  end.

(** A bot [a] posts an ordinary message in channel [ch]. *)
Definition botPost (a ch : string) (m : Message) : Prop :=
  bot (author m) = true /\ user_id (author m) = a /\
  channel_id (channel m) = ch /\ isStandardType (type m) = true.

(** "A message of a human clears the chain entry of its channel and is
    not suppressed", at one message and one table. *)
Definition humanMessageResets (botId : string) (now : Z) (m : Message)
    (chains : gmap string BotConversationChain) : Prop :=
  bot (author m) = false ->
  let '(chains', stop) := loopGuard botId now m chains in
  chains' !! channel_id (channel m) = None /\
  chainCountOf chains' (channel_id (channel m)) = 0 /\
  stop = false.

(** "A message of another bot always has its chain entry written by the
    decision function", at one message and one table. *)
Definition botMessageAdvances (client : Client) (env : Env) (m : Message)
    (chains : gmap string BotConversationChain) : Prop :=
  bot (author m) = true ->
  user_id (author m) <> botId client ->
  exists chain,
    (shouldRespond client env m chains).1 !! channel_id (channel m)
      = Some chain /\
    lastBotId chain = user_id (author m) /\
    lastActivity chain = now env.

End GuardSpec.

(** ** Vocabulary of the statements about the inference client *)
Module ClientSpec.
Import LlmAPI.

(** The request [callLLM] posts for a conversation; none for an empty
    one. *)
Definition postedRequest (botConfig : BotConfig)
    (conversation : list ConversationMessage) (sessionId : string)
  : option Request :=
  match conversation with
  | [] => None
  | first :: _ => Some (buildRequest botConfig conversation first sessionId)
  end.

End ClientSpec.

(** ** Vocabulary of the statements about the conversation cache *)
Module CacheSpec.
Import Orchestrator.

(** "Two fetches for a channel issued within [cacheDurationMs] of each
    other return the same array, and the second makes no upstream fetch",
    at two clock readings and one state. *)
Definition fetchesAgree (w1 w2 : World) (botId : string) (message : Message)
    (limit : nat) (cacheDurationMs : Z) (st : State) : Prop :=
  0 <= now w2 - now w1 < cacheDurationMs ->
  let '(st1, first) :=
    ephemeralFetchConversation w1 botId message limit cacheDurationMs st in
  let '(st2, second) :=
    ephemeralFetchConversation w2 botId message limit cacheDurationMs st1 in
  first = second /\ upstreamFetches st2 = upstreamFetches st1.

(** Fetches for several messages, one after the other, each with its own
    world. *)
Fixpoint runFetches (botId : string) (limit : nat) (cacheDurationMs : Z)
    (calls : list (World * Message)) (st : State) : State :=
  match calls with
  | [] => st
  | (w, message) :: rest =>
      runFetches botId limit cacheDurationMs rest
        (ephemeralFetchConversation w botId message limit cacheDurationMs st).1
  end.

End CacheSpec.

(** ** Sample objects used to run the definitions *)
Module Samples.
Import EventHandler.

Definition guildChannel : Channel :=
  {| channel_id := "c1"; kind := GuildTextChannel;
     channel_guildId := Some "g1"; parentId := None; topic := None;
     permissionsFor :=
       Some (Z.lor ViewChannel (Z.lor SendMessages ReadMessageHistory));
     sendable := true; joined := false; isSendable := true |}.

Definition noMentions : MessageMentions :=
  {| users := ∅; roles := ∅; channels := ∅; everyone := false |}.

Definition post (mid : string) (ty : MessageType) (who : User)
    (ch : Channel) (body : string) (at_ms : Z) : Message :=
  {| message_id := mid; type := ty; author := who; channel := ch;
     guildId := channel_guildId ch; content := body;
     mentions := noMentions; embeds := [];
     createdTimestamp := at_ms; createdAt := "2025-01-01T00:00:00.000Z";
     reference := None |}.

Definition alice : User :=
  {| user_id := "100"; username := "alice"; bot := false |}.
Definition botA : User :=
  {| user_id := "201"; username := "bot-a"; bot := true |}.
Definition botB : User :=
  {| user_id := "202"; username := "bot-b"; bot := true |}.

Definition config : BotConfig :=
  {| id := "1"; discordBotToken := "token"; inferUrl := "https://llm/infer";
     apiKey := Some "key"; sessionHeaderName := Some "X-Session-Id";
     convLength := 0; respondTo := None; respondAsReply := false;
     customFields := ∅ |}.

Definition self : Client := {| botId := "200"; botConfig := config |}.

Definition at_time (t : Z) : Env :=
  {| now := t; getDisplayName := fun _ _ => Return "Helper" |}.

Definition hello : ConversationMessage :=
  {| cm_username := "alice"; text := "hello";
     timestamp := Some "2025-01-01T00:00:00.000Z" |}.

Definition stringify (o : LLMResponse) : string := "{}".

Definition quotaError : LLMResponse :=
  {| success := Some false; reply := None; stop_reason := None;
     error := Some "quota exceeded" |}.

(** An endpoint that answers every request alike. *)
Definition answering (code : Z) (d : LlmAPI.ResponseData)
  : LlmAPI.Request -> LlmAPI.Exchange :=
  fun _ => LlmAPI.Answered {| LlmAPI.status := code; LlmAPI.data := d |}.

Definition topicChannel : Channel :=
  {| channel_id := "c3"; kind := GuildTextChannel;
     channel_guildId := Some "g1"; parentId := None;
     topic := Some "Rules of the room";
     permissionsFor :=
       Some (Z.lor ViewChannel (Z.lor SendMessages ReadMessageHistory));
     sendable := true; joined := false; isSendable := true |}.

(** An endpoint that answers with the text it was sent as [message]. *)
Definition echo : LlmAPI.Request -> LlmAPI.Exchange :=
  fun request =>
    LlmAPI.Answered
      {| LlmAPI.status := 200;
         LlmAPI.data :=
           LlmAPI.DataString
             match LlmAPI.body request !! "message" with
             | Some (LlmAPI.BodyText t) => t
             | _ => "(no message)"
             end |}.

(** A world in which the platform carries out every call and the channel
    history is [history]. *)
Definition world (t : Z) (history : list Message)
    (endpoint : LlmAPI.Request -> LlmAPI.Exchange) : Orchestrator.World :=
  {| Orchestrator.now := t;
     Orchestrator.nowISO := "2025-01-01T00:00:10.000Z";
     Orchestrator.fetchMessages := fun _ limit _ => Return (take limit history);
     Orchestrator.getDisplayName := fun userId _ => Return ("user-" +:+ userId);
     Orchestrator.cachedMessage := fun _ => None;
     Orchestrator.fetchReference := None;
     Orchestrator.fetchPreceding := Return None;
     Orchestrator.endpoint := endpoint;
     Orchestrator.JSON_stringify := stringify;
     Orchestrator.accepts := fun _ => true |}.

Definition idle : Orchestrator.State :=
  {| Orchestrator.channelCache := ∅;
     Orchestrator.upstreamFetches := 0;
     Orchestrator.intervals := ∅;
     Orchestrator.nextInterval := 0;
     Orchestrator.done_ := [] |}.

(** Alice greets the bot by mention. *)
Definition ask (mid : string) (ch : Channel) (at_ms : Z) : Message :=
  {| message_id := mid; type := MessageType_Default; author := alice;
     channel := ch; guildId := channel_guildId ch;
     content := "<@200> hello";
     mentions := {| users := {["200"]}; roles := ∅; channels := ∅;
                    everyone := false |};
     embeds := [];
     createdTimestamp := at_ms; createdAt := "2025-01-01T00:00:00.000Z";
     reference := None |}.

(** What that message is fetched as when no history is configured. The
    mention stays as it is: only authors of fetched messages are in the
    name map. *)
Definition helloLine : ConversationMessage :=
  {| timestamp := Some "2025-01-01T00:00:00.000Z";
     cm_username := "user-100"; text := "<@200> hello" |}.

(** A state whose cache holds, for channel c1, the array of the first
    upstream fetch, made at time 0. *)
Definition cachedAtZero : Orchestrator.State :=
  {| Orchestrator.channelCache :=
       {["c1" := {| Orchestrator.lastFetchTime := 0;
                    Orchestrator.messages :=
                      {| Orchestrator.identity := 1;
                         Orchestrator.items := [helloLine] |} |}]};
     Orchestrator.upstreamFetches := 1;
     Orchestrator.intervals := ∅;
     Orchestrator.nextInterval := 0;
     Orchestrator.done_ := [] |}.

(** The bot itself, as the author of a message. *)
Definition selfUser : User :=
  {| user_id := "200"; username := "helper"; bot := true |}.

End Samples.

(** ** Vocabulary of further statements about the response policy *)
Module PolicySpec.
Import EventHandler.

(** A bot other than [self] posts an ordinary message in channel [ch]. *)
Definition otherBotPost (self ch : string) (m : Message) : Prop :=
  bot (author m) = true /\ user_id (author m) <> self /\
  channel_id (channel m) = ch /\ isStandardType (type m) = true.

(** Each event comes at most ten minutes after the one before; [last] is
    the time of the activity before the first. *)
Fixpoint withinWindow (last : Z) (events : list (Env * Message)) : Prop :=
  match events with
  | [] => True
  | (env, _) :: rest => now env - last <= 600000 /\ withinWindow (now env) rest
  end.

(** Whether the loop guard stopped each event of a run. *)
Fixpoint guardStops (client : Client) (events : list (Env * Message))
    (botToBotChains : gmap string BotConversationChain) : list bool :=
  match events with
  | [] => []
  | (env, message) :: rest =>
      (loopGuard (botId client) (now env) message botToBotChains).2
      :: guardStops client rest
           (shouldRespond client env message botToBotChains).1
  end.

(** The bot holds what [shouldRespond] requires in a guild channel. *)
Definition permitted (c : Channel) : Prop :=
  exists perms,
    permissionsFor c = Some perms /\
    has perms [ViewChannel; SendMessages; ReadMessageHistory] = true.

End PolicySpec.

(** ** Vocabulary of further statements about the orchestrator *)
Module OrchestratorSpec.
Import Orchestrator.

(** The line that stands for the topic of a channel, if it has one. *)
Definition topicLines (w : World) (c : Channel) : list ConversationMessage :=
  match topic c with
  | Some t =>
      if truthy t
      then [{| timestamp := Some (nowISO w); cm_username := "Channel Topic";
               text := t |}]
      else []
  | None => []
  end.

(** The character [c] does not occur in [s]. *)
Fixpoint lacks (c : ascii) (s : string) : bool :=
  match s with
  | EmptyString => true
  | String d rest => negb (Ascii.eqb c d) && lacks c rest
  end.

Fixpoint allDigits (s : string) : bool :=
  match s with
  | EmptyString => true
  | String d rest => isDigit d && allDigits rest
  end.

(** [a] was created no later than [b]. *)
Definition olderOrSame (a b : Message) : Prop :=
  createdTimestamp a <= createdTimestamp b.

(** Every running interval was handed out before [nextInterval]. *)
Definition handlesFresh (st : State) : Prop :=
  forall handle, handle ∈ intervals st -> (handle < nextInterval st)%nat.

(** A platform call that puts a message in front of the users: every
    call but the typing signal. *)
Definition isPost (a : Action) : bool :=
  match a with
  | SendTyping _ => false
  | ReplyTo _ _ | Send _ _ | ReplyText _ _ => true
  end.

(** The posts among platform calls. The typing signals are left open:
    besides the one the handler awaits, the callback of its interval
    sends one every 8000 ms for as long as the handle lives. *)
Definition posts (actions : list Action) : list Action :=
  List.filter isPost actions.

(** What one run of [processConversation] can post: the reply to the
    message of the user, the plain send to the channel, or the apology. *)
Inductive Delivers (channelId messageId : string) : Action -> Prop :=
| Replied payload : Delivers channelId messageId (ReplyTo messageId payload)
| Sent payload : Delivers channelId messageId (Send channelId payload)
| Apologised :
    Delivers channelId messageId
      (ReplyText messageId
         "Beep boop, something went wrong. Please contact the owner.").

End OrchestratorSpec.

(** ** responseOrchestrator.ts: getDisplayName *)
Module DisplayName.

(** A user as [client.users.fetch] returns it. *)
Record UserInfo := {
  globalName : option string;
  accountName : string;
}.

(** What [getDisplayName] meets outside. *)
Record Platform := {
  (** whether [initBotClientAccess] has run, so that [getBotClient] returns *)
  clientReady : bool;
  (** the value of [Date.now()] *)
  now : Z;
  (** [client.users.fetch(userId)]; the number tells the call in the [try]
      block (0) from the one in the [catch] block (1) *)
  usersFetch : string -> nat -> Outcome UserInfo;
  (** [client.guilds.cache.get(guildId) ?? (await client.guilds.fetch(guildId))] *)
  guildsFetch : string -> Outcome unit;
  (** [guild.members.fetch(userId)], as the [nickname] of the member *)
  membersFetch : string -> string -> Outcome (option string);
}.

Record DisplayNameCacheEntry := {
  displayName : string;
  lastFetchTime : Z;
}.

Record State := {
  displayNameCache : gmap string DisplayNameCacheEntry;
  (** calls of [client.users.fetch] so far *)
  userFetches : nat;
}.

Definition DISPLAY_NAME_CACHE_DURATION : Z := 60 * 60 * 1000.

(** [guildId], when it is truthy. *)
Definition givenGuild (guildId : option string) : option string :=
  match guildId with
  | Some g => if truthy g then Some g else None
  | None => None
  end.

Definition cacheKey (userId : string) (guildId : option string) : string :=
  match givenGuild guildId with
  | Some g => g +:+ ":" +:+ userId
  | None => userId
  end.

(** [user.globalName ?? user.username]. *)
Definition globalOrAccount (user : UserInfo) : string :=
  default (accountName user) (globalName user).

(** The [try] block up to the name. *)
Definition lookUp (p : Platform) (userId : string) (guildId : option string)
  : Outcome string :=
  andThen (usersFetch p userId 0) (fun user =>
    match givenGuild guildId with
    | Some g =>
        andThen (guildsFetch p g) (fun _ =>
          andThen (membersFetch p g userId) (fun nickname =>
            Return (default (globalOrAccount user) nickname)))
    | None => Return (globalOrAccount user)
    end).

Definition getDisplayName (p : Platform) (userId : string)
    (guildId : option string) (st : State) : State * Outcome string :=
  if negb (clientReady p)
  then (st, Throw "Discord client not initialized. Call initBotClientAccess first.")
  else
    let key := cacheKey userId guildId in
    let fresh :=
      match displayNameCache st !! key with
      | Some cached =>
          if now p - lastFetchTime cached <? DISPLAY_NAME_CACHE_DURATION
          then Some (displayName cached) else None
      | None => None
      end in
    match fresh with
    | Some name => (st, Return name)
    | None =>
        match lookUp p userId guildId with
        | Return name =>
            let cache :=
              <[key := {| displayName := name; lastFetchTime := now p |}]>
                (displayNameCache st) in
            let cache :=
              if bool_decide (1000 < size cache)%nat
              then filter (fun kv : string * DisplayNameCacheEntry =>
                             ¬ (lastFetchTime kv.2
                                < now p - DISPLAY_NAME_CACHE_DURATION))
                          cache
              else cache in
            ({| displayNameCache := cache;
                userFetches := S (userFetches st) |},
             Return name)
        | Throw _ =>
            ({| displayNameCache := displayNameCache st;
                userFetches := S (S (userFetches st)) |},
             match usersFetch p userId 1 with
             | Return user => Return (globalOrAccount user)
             | Throw e => Throw e
             end)
        end
    end.

End DisplayName.

(** ** Sample platforms for the display names *)
Module NameSamples.
Import DisplayName.

(** Alice is "Alice A." everywhere and "Ally" in guild g1; guild g2 cannot
    be fetched. *)
Definition directory : Platform :=
  {| clientReady := true;
     now := 5000;
     usersFetch := fun _ _ =>
       Return {| globalName := Some "Alice A."; accountName := "alice" |};
     guildsFetch := fun g =>
       if bool_decide (g = "g1") then Return tt else Throw "Unknown Guild";
     membersFetch := fun _ _ => Return (Some "Ally") |}.

(** The same an hour later minus a second, with every name changed. *)
Definition later : Platform :=
  {| clientReady := true;
     now := 3604999;
     usersFetch := fun _ _ =>
       Return {| globalName := Some "Alice B."; accountName := "alice" |};
     guildsFetch := fun _ => Return tt;
     membersFetch := fun _ _ => Return (Some "Al") |}.

Definition blank : State := {| displayNameCache := ∅; userFetches := 0 |}.

End NameSamples.

(** ** eventHandler.ts: the reaction handler *)
Module Reactions.
Import Orchestrator.

(** Emojis for thumbs-up responses. *)
Definition responseEmojis : list string :=
  ["😎"; "🧙‍♂️"; "🫡"; "🔮"; "🪄"; "🧞"; "🦸"; "✨"; "🤩"].

(** A reaction event, with what fetching the partial parts leads to. *)
Record Reaction := {
  (** [reaction.partial], and whether [reaction.fetch()] succeeds *)
  partial : bool;
  fetched : bool;
  (** [reaction.message.partial], and whether its [fetch()] succeeds *)
  messagePartial : bool;
  messageFetched : bool;
  (** the message reacted to, and whether it has an [author] *)
  target : Message;
  authorKnown : bool;
  (** [reaction.emoji.name] *)
  emojiName : option string;
  (** for each reaction on the message, the users in its cache *)
  reactors : list (gset string);
}.

(** The calls the handler makes on the message beyond
    [processConversation]: [React] for a [message.react] that succeeds (a
    failure is swallowed), [Delete] for the call of [message.delete()].
    That call is not awaited: the handler does not learn whether the
    platform carries it out, and a rejection is not caught by it. *)
Inductive Effect :=
| React (messageId : string) (emoji : option string)
| Delete (messageId : string).

Record Chance := {
  (** [Math.floor(Math.random() * responseEmojis.length)] *)
  randomIndex : nat;
  (** whether [message.react] succeeds *)
  reacts : bool;
}.

(** [handleReactionAdd] with the emoji literals of [src/eventHandler.ts].
    Every error is swallowed, so the handler only returns; the result is
    the state and the effects, latest first. *)
Definition handleReactionAdd (w : World) (chance : Chance) (client : Client)
    (reaction : Reaction) (st : State) : State * list Effect :=
  if partial reaction && negb (fetched reaction) then (st, [])
  else if messagePartial reaction && negb (messageFetched reaction)
  then (st, [])
  else
    let message := target reaction in
    if negb (authorKnown reaction)
       || negb (bool_decide (user_id (author message) = botId client))
    then (st, [])
    else if bool_decide (emojiName reaction = Some "👍") then
      if existsb (fun users => bool_decide (botId client ∈ users))
                 (reactors reaction)
      then (st, [])
      else
        let randomEmoji := responseEmojis !! randomIndex chance in
        if reacts chance
        then (st, [React (message_id message) randomEmoji])
        else (st, [])
    else if bool_decide (emojiName reaction = Some "👎") then
      match processConversation w client message true st with
      | (st, Return _) => (st, [Delete (message_id message)])
      | (st, Throw _) => (st, [])
      end
    else (st, []).

End Reactions.

(** ** eventHandler.ts: handleReactionAdd, by its literals *)
Module ReactionHandler.
Import Orchestrator Reactions.

(** The repository keeps [handleReactionAdd] twice, in [src/eventHandler.ts]
    and in the current [eventHandler.ts]. The statements are the same; the
    string literals are stored with different bytes. The handler is
    written once here, over the literals it compares and reacts with. *)
Section Literals.
Variables thumbsUp thumbsDown : string.
Variable responseEmojis : list string.

Definition handleReactionAdd (w : World) (chance : Chance) (client : Client)
    (reaction : Reaction) (st : State) : State * list Effect :=
  if partial reaction && negb (fetched reaction) then (st, [])
  else if messagePartial reaction && negb (messageFetched reaction)
  then (st, [])
  else
    let message := target reaction in
    if negb (authorKnown reaction)
       || negb (bool_decide (user_id (author message) = botId client))
    then (st, [])
    else if bool_decide (emojiName reaction = Some thumbsUp) then
      if existsb (fun users => bool_decide (botId client ∈ users))
                 (reactors reaction)
      then (st, [])
      else
        let randomEmoji := responseEmojis !! randomIndex chance in
        if reacts chance
        then (st, [React (message_id message) randomEmoji])
        else (st, [])
    else if bool_decide (emojiName reaction = Some thumbsDown) then
      match processConversation w client message true st with
      | (st, Return _) => (st, [Delete (message_id message)])
      | (st, Throw _) => (st, [])
      end
    else (st, []).

End Literals.

(** The literals of the current [eventHandler.ts], byte for byte as the
    file is stored: they are not the emoji U+1F44D and U+1F44E. *)
Definition storedThumbsUp : string := "ðŸ‘".
Definition storedThumbsDown : string := "ðŸ‘Ž".
Definition storedResponseEmojis : list string :=
  ["ðŸ˜Ž"; "ðŸ§™â€â™‚ï¸"; "ðŸ«¡"; "ðŸ”®"; "ðŸª„"; "ðŸ§ž"; "ðŸ¦¸"; "âœ¨"; "ðŸ¤©"].

(** [handleReactionAdd] of the current [eventHandler.ts] as stored. *)
Definition storedHandleReactionAdd :=
  handleReactionAdd storedThumbsUp storedThumbsDown storedResponseEmojis.

End ReactionHandler.

(** ** Vocabulary of the statements about reactions *)
Module ReactionSpec.
Import Reactions.

(** The reaction, fetched where it was partial, sits on a message of the
    bot itself and carries the emoji [name]. *)
Definition onOwnMessage (client : Client) (reaction : Reaction)
    (name : string) : Prop :=
  (partial reaction = true -> fetched reaction = true) /\
  (messagePartial reaction = true -> messageFetched reaction = true) /\
  authorKnown reaction = true /\
  user_id (author (target reaction)) = botId client /\
  emojiName reaction = Some name.

End ReactionSpec.

(** ** Sample reactions *)
Module ReactionSamples.
Import Orchestrator Reactions Samples.

(** A reply of the bot in [guildChannel], answering message m1. *)
Definition botReply : Message :=
  {| message_id := "m2"; type := MessageType_Reply; author := selfUser;
     channel := guildChannel; guildId := Some "g1"; content := "hi alice";
     mentions := noMentions; embeds := [];
     createdTimestamp := 9500; createdAt := "2025-01-01T00:00:00.500Z";
     reference := Some "m1" |}.

Definition thumb (name : string) (onMessage : Message) : Reaction :=
  {| partial := false; fetched := true; messagePartial := false;
     messageFetched := true; target := onMessage; authorKnown := true;
     emojiName := Some name; reactors := [{["100"]}] |}.

(** A world in which message m1 of alice is in the message cache. *)
Definition remembering (t : Z) (endpoint : LlmAPI.Request -> LlmAPI.Exchange)
  : World :=
  {| now := t;
     nowISO := "2025-01-01T00:00:10.000Z";
     fetchMessages := fun _ limit _ =>
       Return (take limit [ask "m1" guildChannel 9000]);
     getDisplayName := fun userId _ => Return ("user-" +:+ userId);
     cachedMessage := fun messageId =>
       if bool_decide (messageId = "m1")
       then Some (ask "m1" guildChannel 9000) else None;
     fetchReference := None;
     fetchPreceding := Return None;
     endpoint := endpoint;
     JSON_stringify := stringify;
     accepts := fun _ => true |}.

(** The bot with a history of five messages configured. *)
Definition historian : Client :=
  {| botId := "200";
     botConfig :=
       {| id := "1"; discordBotToken := "token";
          inferUrl := "https://llm/infer"; apiKey := Some "key";
          sessionHeaderName := None; convLength := 5; respondTo := None;
          respondAsReply := false; customFields := ∅ |} |}.

End ReactionSamples.

(** ** index.ts, as kept in the repository (first version) *)
Module Index.

(** A JavaScript number as [parseInt] and [Math.max] give it here: [NaN]
    or an integer. The integer is kept exact; JavaScript rounds one
    beyond 2^53 to the nearest double. *)
Inductive Number :=
| NaN
| Num (z : Z).

Definition isAsciiSpace (n : nat) : bool :=
  ((9 <=? n) && (n <=? 13) || (n =? 32))%nat.

(** The string without its leading white space. The white space of
    JavaScript outside ASCII is matched by its UTF-8 bytes: U+00A0,
    U+1680, U+2000 to U+200A, U+2028, U+2029, U+202F, U+205F, U+3000 and
    U+FEFF. *)
Fixpoint trimStart (s : string) : string :=
  match s with
  | EmptyString => EmptyString
  | String c rest =>
      let n := nat_of_ascii c in
      if isAsciiSpace n then trimStart rest
      else
        match rest with
        | String d rest1 =>
            let m := nat_of_ascii d in
            if ((n =? 194) && (m =? 160))%nat then trimStart rest1
            else
              match rest1 with
              | String e rest2 =>
                  let k := nat_of_ascii e in
                  if ((n =? 225) && (m =? 154) && (k =? 128)
                      || (n =? 226) && (m =? 128)
                         && ((128 <=? k) && (k <=? 138)
                             || (k =? 168) || (k =? 169) || (k =? 175))
                      || (n =? 226) && (m =? 129) && (k =? 159)
                      || (n =? 227) && (m =? 128) && (k =? 128)
                      || (n =? 239) && (m =? 187) && (k =? 191))%nat
                  then trimStart rest2
                  else s
              | EmptyString => s
              end
        | EmptyString => s
        end
  end.

Definition digitValue (c : ascii) : option Z :=
  let n := nat_of_ascii c in
  if ((48 <=? n) && (n <=? 57))%nat then Some (Z.of_nat n - 48) else None.

(** The value of the longest run of decimal digits at the head of [s],
    continuing [acc]; [seen] tells whether a digit was read. *)
Fixpoint readDigits (s : string) (acc : Z) (seen : bool) : Number :=
  match s with
  | EmptyString => if seen then Num acc else NaN
  | String c rest =>
      match digitValue c with
      | Some v => readDigits rest (10 * acc + v) true
      | None => if seen then Num acc else NaN
      end
  end.

Definition negate (x : Number) : Number :=
  match x with
  | NaN => NaN
  | Num z => Num (- z)
  end.

(** [parseInt(s, 10)]. *)
Definition parseInt10 (s : string) : Number :=
  match trimStart s with
  | String "-" rest => negate (readDigits rest 0 false)
  | String "+" rest => readDigits rest 0 false
  | t => readDigits t 0 false
  end.

(** [Math.max(1, x)]. *)
Definition max1 (x : Number) : Number :=
  match x with
  | NaN => NaN
  | Num z => Num (Z.max 1 z)
  end.

(** [x || fallback] on an environment variable. *)
Definition orElse (x : option string) (fallback : string) : string :=
  match x with
  | Some v => if truthy v then v else fallback
  | None => fallback
  end.

(** [BotConfig] of that version; the variables read with [!] may still
    be missing. *)
Record BotConfig := {
  id : string;
  discordBotToken : option string;
  inferUrl : option string;
  apiKey : option string;
  replyTo : option string;
  messageLimit : Number;
  sessionHeaderName : option string;
  customFields : gmap string Json;
}.

Section WithParse.

(** [JSON.parse] on the custom fields; [None] when it throws. *)
Variable JSON_parse : string -> option (gmap string Json).

Definition loadBotConfig (env : gmap string string) (id : string)
  : BotConfig :=
  let prefix := id +:+ "_" in
  {| id := id;
     discordBotToken := env !! (prefix +:+ "DISCORD_BOT_TOKEN");
     inferUrl := env !! (prefix +:+ "LLM_INFER_URL");
     apiKey := env !! (prefix +:+ "LLM_API_KEY");
     replyTo := toLowerCase <$> env !! (prefix +:+ "REPLY_TO");
     messageLimit :=
       max1 (parseInt10
               (orElse (env !! (prefix +:+ "CONVERSATION_LENGTH")) "1"));
     sessionHeaderName := env !! (prefix +:+ "SESSION_HEADER");
     customFields :=
       match env !! (prefix +:+ "CUSTOM_FIELDS_JSON") with
       | Some raw =>
           if truthy raw then default ∅ (JSON_parse raw) else ∅
       | None => ∅
       end |}.

End WithParse.

(** [key.endsWith(suffix)]. *)
Fixpoint endsWith (s suffix : string) : bool :=
  bool_decide (s = suffix)
  || match s with
     | EmptyString => false
     | String _ rest => endsWith rest suffix
     end.

(** [key.split('_')[0]]. *)
Fixpoint firstSegment (s : string) : string :=
  match s with
  | EmptyString => EmptyString
  | String c rest =>
      if Ascii.eqb c "_" then EmptyString else String c (firstSegment rest)
  end.

(** [getAllBotIds], over the keys of the environment. The ids come in the
    order in which the map lists its keys, which need not be the order of
    [Object.keys(process.env)]. *)
Definition getAllBotIds (env : gmap string string) : list string :=
  map firstSegment
    (List.filter (fun key => endsWith key "_DISCORD_BOT_TOKEN")
       (map fst (map_to_list env))).

End Index.

(** * Properties *)

(** ** The loop guard and the response policy *)
Module GuardProofs.
Import EventHandler GuardSpec Samples.

Lemma loopGuard_human botId now m chains :
  bot (author m) = false -> loopGuard botId now m chains = (chains, false).
Proof. intros H. unfold loopGuard. by rewrite H. Qed.

Lemma shouldRespond_table client env m chains :
  isStandardType (type m) = true ->
  (shouldRespond client env m chains).1
  = (loopGuard (botId client) (now env) m chains).1.
Proof.
  intros Hty. unfold shouldRespond. rewrite Hty. simpl.
  destruct (loopGuard _ _ _ _) as [chains' stop]. simpl.
  repeat (case_match; simpl; try done).
Qed.

Lemma shouldRespond_stop client env m chains :
  (loopGuard (botId client) (now env) m chains).2 = true ->
  (shouldRespond client env m chains).2 = Return false.
Proof.
  intros Hstop. unfold shouldRespond.
  destruct (isStandardType _); simpl; [|done].
  destruct (loopGuard _ _ _ _) as [chains' stop]. simpl in *. by subst.
Qed.

Lemma loopGuard_first botId now a ch m chains :
  chains !! ch = None -> botPost a ch m -> a <> botId ->
  loopGuard botId now m chains
  = (<[ch := {| chainCount := 0; lastBotId := a; lastActivity := now |}]> chains,
     false).
Proof.
  intros Hnone (Hbot & Ha & Hch & _) Hself. unfold loopGuard.
  rewrite Hbot, Ha, Hch, Hnone. rewrite bool_decide_eq_false_2 by done.
  simpl. by destruct (600000 <? now - 0).
Qed.

Lemma loopGuard_alternate botId now a ch m chains n l t :
  chains !! ch = Some {| chainCount := n; lastBotId := l; lastActivity := t |} ->
  now - t <= 600000 -> l <> "" -> l <> a ->
  botPost a ch m -> a <> botId ->
  loopGuard botId now m chains
  = (<[ch := {| chainCount := n + 1; lastBotId := a; lastActivity := now |}]>
       chains,
     3 <=? n + 1).
Proof.
  intros Hsome Hidle Hl Hla (Hbot & Ha & Hch & _) Hself. unfold loopGuard.
  rewrite Hbot, Ha, Hch, Hsome. rewrite bool_decide_eq_false_2 by done.
  simpl. replace (600000 <? now - t) with false by (symmetry; lia).
  unfold truthy. simpl. rewrite !bool_decide_eq_false_2 by done. done.
Qed.

Lemma shouldRespond_split client env m chains :
  isStandardType (type m) = true ->
  shouldRespond client env m chains
  = ((loopGuard (botId client) (now env) m chains).1,
     (shouldRespond client env m chains).2).
Proof.
  intros Hty. rewrite <- (shouldRespond_table client env m chains Hty).
  by destruct (shouldRespond client env m chains).
Qed.

(** The fourth message of the alternation is where the count reaches the
    threshold: it is suppressed as well. *)
Lemma fourth_message_suppressed client (a b ch : string) e1 e2 e3 e4
    m1 m2 m3 m4 (chains : gmap string BotConversationChain) :
  chains !! ch = None ->
  a <> "" -> b <> "" -> a <> b -> a <> botId client -> b <> botId client ->
  botPost a ch m1 -> botPost b ch m2 -> botPost a ch m3 -> botPost b ch m4 ->
  now e2 - now e1 <= 600000 -> now e3 - now e2 <= 600000 ->
  now e4 - now e3 <= 600000 ->
  exists final v1 v2 v3,
    runEvents client [(e1, m1); (e2, m2); (e3, m3); (e4, m4)] chains
    = (final, [v1; v2; v3; Return false]) /\
    final !! ch
    = Some {| chainCount := 3; lastBotId := b; lastActivity := now e4 |}.
Proof.
  intros Hnone Ha Hb Hab Has Hbs P1 P2 P3 P4 G1 G2 G3.
  pose proof (loopGuard_first (botId client) (now e1) a ch m1 chains
                Hnone P1 Has) as S1.
  set (c1 := <[ch:=_]> chains) in S1.
  assert (L1 : c1 !! ch = Some {| chainCount := 0; lastBotId := a;
                                  lastActivity := now e1 |})
    by apply lookup_insert_eq.
  pose proof (loopGuard_alternate (botId client) (now e2) b ch m2 c1 _ _ _
                L1 G1 Ha Hab P2 Hbs) as S2.
  set (c2 := <[ch:=_]> c1) in S2.
  assert (L2 : c2 !! ch = Some {| chainCount := 0 + 1; lastBotId := b;
                                  lastActivity := now e2 |})
    by apply lookup_insert_eq.
  pose proof (loopGuard_alternate (botId client) (now e3) a ch m3 c2 _ _ _
                L2 G2 Hb (not_eq_sym Hab) P3 Has) as S3.
  set (c3 := <[ch:=_]> c2) in S3.
  assert (L3 : c3 !! ch = Some {| chainCount := 0 + 1 + 1; lastBotId := a;
                                  lastActivity := now e3 |})
    by apply lookup_insert_eq.
  pose proof (loopGuard_alternate (botId client) (now e4) b ch m4 c3 _ _ _
                L3 G3 Ha Hab P4 Hbs) as S4.
  set (c4 := <[ch:=_]> c3) in S4.
  exists c4, (shouldRespond client e1 m1 chains).2,
    (shouldRespond client e2 m2 c1).2, (shouldRespond client e3 m3 c2).2.
  split; [|apply lookup_insert_eq].
  simpl.
  rewrite (shouldRespond_split client e1 m1 chains) by apply P1.
  rewrite S1. simpl.
  rewrite (shouldRespond_split client e2 m2 c1) by apply P2.
  rewrite S2. simpl.
  rewrite (shouldRespond_split client e3 m3 c2) by apply P3.
  rewrite S3. simpl.
  rewrite (shouldRespond_split client e4 m4 c3) by apply P4.
  rewrite S4. simpl.
  rewrite (shouldRespond_stop client e4 m4 c3) by (by rewrite S4).
  done.
Qed.

Lemma runEvents_snoc client events e m chains :
  runEvents client (events ++ [(e, m)])%list chains
  = let '(mid, verdicts) := runEvents client events chains in
    let '(final, verdict) := shouldRespond client e m mid in
    (final, (verdicts ++ [verdict])%list).
Proof.
  revert chains. induction events as [|[e0 m0] events IH]; intros chains.
  - simpl. by destruct (shouldRespond client e m chains).
  - simpl. destruct (shouldRespond client e0 m0 chains) as [c0 v0].
    rewrite IH. destruct (runEvents client events c0) as [mid verdicts].
    by destruct (shouldRespond client e m mid).
Qed.

Lemma no_mention_not_mentioned botId (m : MessageMentions) :
  hasAnyMention m = false -> bool_decide (botId ∈ users m) = false.
Proof.
  unfold hasAnyMention. intros H.
  apply orb_false_iff in H as [H _]. apply orb_false_iff in H as [H _].
  apply orb_false_iff in H as [_ H]. apply bool_decide_eq_false in H.
  apply bool_decide_eq_false. intros Hin.
  apply H. apply Nat.neq_0_lt_0. intros Hsize.
  apply size_empty_inv in Hsize. set_solver.
Qed.

Lemma managerGuard_human clientUserId m
    (chains : gmap string BotConversationChain) :
  bot (author m) = false ->
  EventHandlerLegacy.managerGuard clientUserId m chains = (chains, false).
Proof. intros H. unfold EventHandlerLegacy.managerGuard. by rewrite H. Qed.

(** C4. A message of a human leaves the chain table as it is (the entry
    of its channel is neither cleared nor reset) and is not suppressed by
    the loop guard; the decision function as a whole leaves the table
    unchanged as well. *)
Theorem C4_human_message_keeps_chain client env m
    (chains : gmap string BotConversationChain) :
  bot (author m) = false ->
  loopGuard (botId client) (now env) m chains = (chains, false) /\
  (shouldRespond client env m chains).1 = chains.
Proof.
  intros Hhuman. pose proof (loopGuard_human (botId client) (now env) m chains
                               Hhuman) as Hg.
  split; [done|]. unfold shouldRespond.
  destruct (isStandardType _); simpl; [|done].
  rewrite Hg. repeat (case_match; simpl; try done).
Qed.

Lemma C4_human_message_keeps_chain_witness :
  loopGuard (botId self) (now (at_time 2000))
    (post "m4" MessageType_Default alice guildChannel "hello" 2000)
    {["c1" := {| chainCount := 2; lastBotId := "201"; lastActivity := 1000 |}]}
  = ({["c1" := {| chainCount := 2; lastBotId := "201";
                  lastActivity := 1000 |}]}, false) /\
  (shouldRespond self (at_time 2000)
     (post "m4" MessageType_Default alice guildChannel "hello" 2000)
     {["c1" := {| chainCount := 2; lastBotId := "201";
                  lastActivity := 1000 |}]}).1
  = {["c1" := {| chainCount := 2; lastBotId := "201"; lastActivity := 1000 |}]}.
Proof.
  apply (C4_human_message_keeps_chain self (at_time 2000)
           (post "m4" MessageType_Default alice guildChannel "hello" 2000)).
  reflexivity.
Defined.

(** C4, as stated, fails: with a chain of count 2 recorded for the
    channel, a message of a human leaves the entry in place. *)
Lemma C4_human_message_does_not_reset :
  ~ humanMessageResets "200" 2000
      (post "m4" MessageType_Default alice guildChannel "hello" 2000)
      {["c1" := {| chainCount := 2; lastBotId := "201";
                   lastActivity := 1000 |}]}.
Proof.
  unfold humanMessageResets. intros H. specialize (H eq_refl).
  vm_compute in H. destruct H as [H _]. discriminate H.
Qed.

(** A human speaking between two bots does not interrupt the count: bot A,
    bot B, bot A, a human, then bot B, and the last one is suppressed. *)
Example human_between_bots :
  let events :=
    [(at_time 1000, post "m1" MessageType_Default botA guildChannel "a" 1000);
     (at_time 2000, post "m2" MessageType_Default botB guildChannel "b" 2000);
     (at_time 3000, post "m3" MessageType_Default botA guildChannel "a" 3000);
     (at_time 4000, post "m4" MessageType_Default alice guildChannel "hi" 4000);
     (at_time 5000, post "m5" MessageType_Default botB guildChannel "b" 5000)] in
  chainCountOf (runEvents self (take 4 events) ∅).1 "c1" = 2 /\
  chainCountOf (runEvents self events ∅).1 "c1" = 3 /\
  (loopGuard "200" 5000
     (post "m5" MessageType_Default botB guildChannel "b" 5000)
     (runEvents self (take 4 events) ∅).1).2 = true.
Proof. vm_compute. done. Qed.

(** C5. Bot A, bot B, bot A, bot B, bot A (two different bots, neither
    of them this bot, ids not empty) post ordinary messages in one
    channel that has no chain entry yet, each at most ten minutes after
    the one before: the decision for the fifth message is not to respond,
    it is the loop guard that stops it, and the count stands at 4. *)
Theorem C5_fifth_message_suppressed client (a b ch : string)
    e1 e2 e3 e4 e5 m1 m2 m3 m4 m5
    (chains : gmap string BotConversationChain) :
  chains !! ch = None ->
  a <> "" -> b <> "" -> a <> b -> a <> botId client -> b <> botId client ->
  botPost a ch m1 -> botPost b ch m2 -> botPost a ch m3 ->
  botPost b ch m4 -> botPost a ch m5 ->
  now e2 - now e1 <= 600000 -> now e3 - now e2 <= 600000 ->
  now e4 - now e3 <= 600000 -> now e5 - now e4 <= 600000 ->
  exists final v1 v2 v3 v4,
    runEvents client [(e1, m1); (e2, m2); (e3, m3); (e4, m4); (e5, m5)] chains
    = (final, [v1; v2; v3; v4; Return false]) /\
    (loopGuard (botId client) (now e5) m5
       (runEvents client [(e1, m1); (e2, m2); (e3, m3); (e4, m4)] chains).1).2
    = true /\
    chainCountOf final ch = 4.
Proof.
  intros Hnone Ha Hb Hab Has Hbs P1 P2 P3 P4 P5 G1 G2 G3 G4.
  destruct (fourth_message_suppressed client a b ch e1 e2 e3 e4 m1 m2 m3 m4
              chains Hnone Ha Hb Hab Has Hbs P1 P2 P3 P4 G1 G2 G3)
    as (c4 & v1 & v2 & v3 & Hrun & L4).
  pose proof (loopGuard_alternate (botId client) (now e5) a ch m5 c4 _ _ _
                L4 G4 Hb (not_eq_sym Hab) P5 Has) as S5.
  exists (loopGuard (botId client) (now e5) m5 c4).1, v1, v2, v3, (Return false).
  change [(e1, m1); (e2, m2); (e3, m3); (e4, m4); (e5, m5)]
    with ([(e1, m1); (e2, m2); (e3, m3); (e4, m4)] ++ [(e5, m5)])%list.
  rewrite runEvents_snoc, Hrun. simpl.
  rewrite (shouldRespond_split client e5 m5 c4) by apply P5.
  rewrite (shouldRespond_stop client e5 m5 c4) by (by rewrite S5).
  split; [done|]. rewrite S5. simpl. split; [done|].
  unfold chainCountOf. by rewrite lookup_insert_eq.
Qed.

Lemma C5_fifth_message_suppressed_witness :
  exists final v1 v2 v3 v4,
    runEvents self
      [(at_time 1000, post "m1" MessageType_Default botA guildChannel "a" 1000);
       (at_time 2000, post "m2" MessageType_Default botB guildChannel "b" 2000);
       (at_time 3000, post "m3" MessageType_Default botA guildChannel "a" 3000);
       (at_time 4000, post "m4" MessageType_Default botB guildChannel "b" 4000);
       (at_time 5000, post "m5" MessageType_Default botA guildChannel "a" 5000)]
      ∅
    = (final, [v1; v2; v3; v4; Return false]) /\
    (loopGuard (botId self) (now (at_time 5000))
       (post "m5" MessageType_Default botA guildChannel "a" 5000)
       (runEvents self
          [(at_time 1000, post "m1" MessageType_Default botA guildChannel "a" 1000);
           (at_time 2000, post "m2" MessageType_Default botB guildChannel "b" 2000);
           (at_time 3000, post "m3" MessageType_Default botA guildChannel "a" 3000);
           (at_time 4000, post "m4" MessageType_Default botB guildChannel "b" 4000)]
          ∅).1).2
    = true /\
    chainCountOf final "c1" = 4.
Proof.
  apply (C5_fifth_message_suppressed self "201" "202" "c1");
    first [ reflexivity | discriminate | (repeat split; reflexivity)
          | (simpl; lia) ].
Defined.

(** C8. A message in a guild channel that is neither a direct message
    nor a thread, carrying no mention of any kind, to a bot whose
    [respondTo] is unset, is not responded to, whatever its text. *)
Theorem C8_unset_respondTo_no_mention client env m
    (chains : gmap string BotConversationChain) :
  respondTo (botConfig client) = None ->
  hasAnyMention (mentions m) = false ->
  kind (channel m) = GuildTextChannel ->
  (shouldRespond client env m chains).2 = Return false.
Proof.
  intros Hrt Hno Hkind. unfold shouldRespond.
  destruct (isStandardType _); simpl; [|done].
  destruct (loopGuard _ _ _ _) as [chains' stop]. destruct stop; [done|].
  unfold isDMBased, isThread. rewrite Hkind, Hrt, Hno. simpl.
  rewrite (no_mention_not_mentioned _ _ Hno). simpl.
  by destruct (permissionsFor _) as [perms|]; [destruct (has _ _)|].
Qed.

Lemma C8_unset_respondTo_no_mention_witness :
  (shouldRespond self (at_time 1000)
     (post "m1" MessageType_Default alice guildChannel
        "is Helper around?" 1000) ∅).2
  = Return false.
Proof.
  apply C8_unset_respondTo_no_mention; reflexivity.
Defined.

(** The earlier version of the decision function tried the display name
    for every bot, so there the same message is responded to. *)
Remark legacy_name_trigger_unconditional :
  (EventHandlerLegacy.shouldRespond self (at_time 1000)
     (post "m1" MessageType_Default alice guildChannel
        "is Helper around?" 1000) ∅).2
  = Return true.
Proof. vm_compute. reflexivity. Qed.

(** C10. For a message of ordinary type written by another bot, the
    decision function leaves the chain table exactly as the loop guard
    wrote it, whatever the permission, mention and thread checks decide:
    the entry of the channel names the author and the current time, and
    the table differs from the one before whenever the entry did not
    already carry this time. A message of any other type, of a bot or
    not, is turned away by the type check before the guard: the answer is
    no and the chain table is the one handed in. *)
Theorem C10_guard_written_before_checks client env m other
    (chains : gmap string BotConversationChain) :
  isStandardType (type m) = true ->
  bot (author m) = true ->
  user_id (author m) <> botId client ->
  isStandardType (type other) = false ->
  ((shouldRespond client env m chains).1
   = (loopGuard (botId client) (now env) m chains).1 /\
   (exists chain,
      (shouldRespond client env m chains).1 !! channel_id (channel m)
        = Some chain /\
      lastBotId chain = user_id (author m) /\
      lastActivity chain = now env) /\
   ((forall chain, chains !! channel_id (channel m) = Some chain ->
                   lastActivity chain <> now env) ->
    (shouldRespond client env m chains).1 <> chains)) /\
  shouldRespond client env other chains = (chains, Return false).
Proof.
  intros Hty Hbot Hself Hother.
  pose proof (shouldRespond_table client env m chains Hty) as Htab.
  assert (Hentry : exists chain,
    (shouldRespond client env m chains).1 !! channel_id (channel m)
      = Some chain /\
    lastBotId chain = user_id (author m) /\ lastActivity chain = now env).
  { rewrite Htab. unfold loopGuard. rewrite Hbot.
    rewrite bool_decide_eq_false_2 by done. simpl.
    rewrite lookup_insert_eq. eauto. }
  split; [|unfold shouldRespond; by rewrite Hother].
  split; [done|]. split; [done|].
  intros Hfresh Heq. destruct Hentry as (chain & Hlook & _ & Hact).
  rewrite Heq in Hlook. by apply (Hfresh chain).
Qed.

Lemma C10_guard_written_before_checks_witness :
  ((shouldRespond self (at_time 5000)
      (post "m1" MessageType_Default botA guildChannel "ping" 5000) ∅).1
   = (loopGuard (botId self) (now (at_time 5000))
        (post "m1" MessageType_Default botA guildChannel "ping" 5000) ∅).1 /\
   (exists chain,
      (shouldRespond self (at_time 5000)
         (post "m1" MessageType_Default botA guildChannel "ping" 5000) ∅).1
        !! channel_id
             (channel (post "m1" MessageType_Default botA guildChannel
                         "ping" 5000))
        = Some chain /\
      lastBotId chain
      = user_id (author (post "m1" MessageType_Default botA guildChannel
                           "ping" 5000)) /\
      lastActivity chain = now (at_time 5000)) /\
   ((forall chain,
        (∅ : gmap string BotConversationChain)
          !! channel_id
               (channel (post "m1" MessageType_Default botA guildChannel
                           "ping" 5000))
        = Some chain ->
        lastActivity chain <> now (at_time 5000)) ->
    (shouldRespond self (at_time 5000)
       (post "m1" MessageType_Default botA guildChannel "ping" 5000) ∅).1
    <> ∅)) /\
  shouldRespond self (at_time 5000)
    (post "m2" MessageType_ChatInputCommand botA guildChannel "pong" 5000) ∅
  = (∅, Return false).
Proof.
  apply (C10_guard_written_before_checks self (at_time 5000)
           (post "m1" MessageType_Default botA guildChannel "ping" 5000)
           (post "m2" MessageType_ChatInputCommand botA guildChannel "pong"
              5000) ∅);
    [reflexivity | reflexivity | discriminate | reflexivity].
Defined.

(** C10, as stated for every message of another bot, fails: the reply
    of a bot to a slash command has type [ChatInputCommand], is turned
    away by the type check, and the chain table is not touched. *)
Lemma C10_command_reply_not_recorded :
  ~ botMessageAdvances self (at_time 5000)
      (post "m1" MessageType_ChatInputCommand botA guildChannel "pong" 5000)
      ∅.
Proof.
  unfold botMessageAdvances. intros H.
  destruct (H eq_refl) as (chain & Hlook & _); [discriminate|].
  vm_compute in Hlook. discriminate Hlook.
Qed.

(** A decision not to respond that still moved the guard: the bot lacks
    the channel permissions, and the entry of the channel is written. *)
Example refused_but_recorded :
  let hidden :=
    {| channel_id := "c2"; kind := GuildTextChannel;
       channel_guildId := Some "g1"; parentId := None; topic := None;
       permissionsFor := None; sendable := false; joined := false;
       isSendable := false |} in
  let m := post "m1" MessageType_Default botA hidden "ping" 5000 in
  (shouldRespond self (at_time 5000) m ∅).2 = Return false /\
  (shouldRespond self (at_time 5000) m ∅).1 !! "c2"
  = Some {| chainCount := 0; lastBotId := "201"; lastActivity := 5000 |}.
Proof. vm_compute. done. Qed.

End GuardProofs.

(** ** The inference client *)
Module LlmProofs.
Import LlmAPI Samples.

Section Client.

Variable JSON_stringify : LLMResponse -> string.
Variable endpoint : Request -> Exchange.
Variable botConfig : BotConfig.
Variables (first : ConversationMessage) (rest : list ConversationMessage).
Variable sessionId : string.

Let conversation := first :: rest.
Let exchange := endpoint (buildRequest botConfig conversation first sessionId).
Let result := callLLM JSON_stringify endpoint botConfig conversation sessionId.

Lemma callLLM_rejected response :
  exchange = Answered response ->
  ¬ (200 <= status response < 300) ->
  result = callLLM_catch (AxiosError (Some response)).
Proof.
  intros Hex Hst. unfold result, callLLM, callLLM_try, axios_post. simpl.
  fold conversation. fold exchange. rewrite Hex.
  destruct (200 <=? status response) eqn:H1;
    destruct (status response <? 300) eqn:H2; simpl; try done.
  exfalso. apply Hst. lia.
Qed.

Lemma parse_throws_plain_error d thrown :
  parseLLMResponse JSON_stringify d = inl thrown ->
  exists message, thrown = JsError message.
Proof.
  destruct d as [|s|o]; simpl; intros H.
  - inversion H. eauto.
  - done.
  - destruct (success o) as [[|]|]; inversion H. eauto.
Qed.

Lemma callLLM_resolved response :
  exchange = Answered response ->
  200 <= status response < 300 ->
  result
  = if negb (status response =? 200)
    then Throw "Failed to get response from LLM"
    else match parseLLMResponse JSON_stringify (data response) with
         | inr r => Return r
         | inl _ => Throw "Failed to get response from LLM"
         end.
Proof.
  intros Hex Hst. unfold result, callLLM, callLLM_try, axios_post. simpl.
  fold conversation. fold exchange. rewrite Hex.
  replace (200 <=? status response) with true by (symmetry; lia).
  replace (status response <? 300) with true by (symmetry; lia). simpl.
  destruct (negb (status response =? 200)); [done|].
  destruct (parseLLMResponse _ _) as [thrown|r] eqn:Hp; [|done].
  by destruct (parse_throws_plain_error _ _ Hp) as [message ->].
Qed.

Lemma parse_failure_thrown o :
  success o = Some false ->
  exists message,
    parseLLMResponse JSON_stringify (DataObject o) = inl (JsError message).
Proof. intros H. simpl. rewrite H. eauto. Qed.

Lemma parse_never_rate_limited d :
  parseLLMResponse JSON_stringify d <> inr RateLimited.
Proof.
  destruct d as [|s|o]; simpl; try done.
  destruct (success o) as [[|]|]; done.
Qed.

(** On the path of a rejected request the upstream message is carried: a
    failing status other than 429 with a non-empty [error] in the body
    throws that [error]. *)
Lemma error_carried_on_failing_status response o x :
  exchange = Answered response ->
  ¬ (200 <= status response < 300) -> status response <> 429 ->
  data response = DataObject o -> error o = Some x -> x <> "" ->
  result = Throw x.
Proof.
  intros Hex Hst H429 Hdata Herr Hx.
  rewrite (callLLM_rejected response Hex Hst). simpl.
  replace (status response =? 429) with false by (symmetry; lia).
  unfold upstreamError, truthy. rewrite Hdata, Herr.
  by rewrite bool_decide_eq_false_2.
Qed.

(** C2. When the endpoint answers with status 200 and a body
    [{success: false, error: x}], what [callLLM] throws is the fixed
    message, whatever [x] is: the [Error] that [parseLLMResponse] builds
    from [x] is caught by [callLLM] itself, is not an axios error, and is
    replaced. *)
Theorem C2_error_replaced_on_status_200 response o x :
  exchange = Answered response ->
  status response = 200 ->
  data response = DataObject o -> success o = Some false ->
  error o = Some x ->
  parseLLMResponse JSON_stringify (data response) = inl (JsError x) /\
  result = Throw "Failed to get response from LLM".
Proof.
  intros Hex Hst Hdata Hfail Herr. split.
  - rewrite Hdata. simpl. by rewrite Hfail, Herr.
  - rewrite (callLLM_resolved response Hex) by lia. rewrite Hst. simpl.
    rewrite Hdata. simpl. by rewrite Hfail.
Qed.

(** C6. A request was made (the conversation is not empty). If the
    answer has status 429, [callLLM] returns [rate_limited]; it returns
    [rate_limited] for no other answer; every other failing answer (a
    status other than 200, or a body with [success: false]) and a request
    left without an answer end in a thrown error. *)
Theorem C6_rate_limit_is_the_only_returned_failure :
  (forall response,
      exchange = Answered response -> status response = 429 ->
      result = Return RateLimited) /\
  (result = Return RateLimited ->
   exists response, exchange = Answered response /\ status response = 429) /\
  (forall response,
      exchange = Answered response -> status response <> 429 ->
      status response <> 200 \/
      (exists o, data response = DataObject o /\ success o = Some false) ->
      exists message, result = Throw message) /\
  (exchange = Unanswered -> exists message, result = Throw message).
Proof.
  repeat split.
  - intros response Hex Hst.
    rewrite (callLLM_rejected response Hex) by lia. simpl.
    by replace (status response =? 429) with true by (symmetry; lia).
  - intros Hres. destruct exchange as [response|] eqn:Hex.
    + exists response. split; [done|].
      destruct (decide (200 <= status response < 300)) as [Hok|Hno].
      * rewrite (callLLM_resolved response Hex Hok) in Hres.
        destruct (negb _); [done|].
        destruct (parseLLMResponse _ _) as [|r] eqn:Hp; [done|].
        exfalso. apply (parse_never_rate_limited (data response)).
        rewrite Hp. by inversion Hres.
      * rewrite (callLLM_rejected response Hex Hno) in Hres. simpl in Hres.
        destruct (status response =? 429) eqn:H429; [lia|].
        by destruct (upstreamError _).
    + unfold result, callLLM, callLLM_try, axios_post in Hres.
      simpl in Hres. fold conversation in Hres. fold exchange in Hres.
      by rewrite Hex in Hres.
  - intros response Hex H429 Hfail.
    destruct (decide (200 <= status response < 300)) as [Hok|Hno].
    + rewrite (callLLM_resolved response Hex Hok).
      destruct (status response =? 200) eqn:H200; simpl; [|eauto].
      destruct Hfail as [Hne|(o & Hdata & Hs)]; [lia|].
      rewrite Hdata. simpl. rewrite Hs. eauto.
    + rewrite (callLLM_rejected response Hex Hno). simpl.
      replace (status response =? 429) with false by (symmetry; lia).
      destruct (upstreamError _); eauto.
  - intros Hex. unfold result, callLLM, callLLM_try, axios_post. simpl.
    fold conversation. fold exchange. rewrite Hex. simpl. eauto.
Qed.

End Client.

Lemma C2_error_replaced_on_status_200_witness :
  parseLLMResponse stringify (DataObject quotaError)
  = inl (JsError "quota exceeded") /\
  callLLM stringify (answering 200 (DataObject quotaError)) config [hello] "s"
  = Throw "Failed to get response from LLM".
Proof.
  apply (C2_error_replaced_on_status_200 stringify
           (answering 200 (DataObject quotaError)) config hello [] "s"
           {| status := 200; data := DataObject quotaError |}
           quotaError "quota exceeded");
    reflexivity.
Defined.

(** The same body under status 500 reaches the caller with its message. *)
Example error_carried_on_status_500 :
  callLLM stringify (answering 500 (DataObject quotaError)) config [hello] "s"
  = Throw "quota exceeded".
Proof. reflexivity. Qed.

Lemma C6_rate_limit_is_the_only_returned_failure_witness :
  callLLM stringify (answering 429 (DataObject quotaError)) config [hello] "s"
  = Return RateLimited.
Proof.
  apply (proj1 (C6_rate_limit_is_the_only_returned_failure stringify
                  (answering 429 (DataObject quotaError)) config hello [] "s")
           {| status := 429; data := DataObject quotaError |});
    reflexivity.
Defined.

End LlmProofs.

(** ** The session id *)
Module SessionProofs.
Import Session.

(** *** Base64 *)

Lemma undigit_digit b0 b1 b2 b3 b4 b5 :
  Base64.undigit (Base64.digit (Ascii b0 b1 b2 b3 b4 b5 false false))
  = Some (Ascii b0 b1 b2 b3 b4 b5 false false).
Proof. destruct b0, b1, b2, b3, b4, b5; reflexivity. Qed.

Lemma digit_not_pad b0 b1 b2 b3 b4 b5 :
  Base64.isPad (Base64.digit (Ascii b0 b1 b2 b3 b4 b5 false false)) = false.
Proof. destruct b0, b1, b2, b3, b4, b5; reflexivity. Qed.

Lemma decode_unfold p q r t rest :
  Base64.decode (String p (String q (String r (String t rest))))
  = match Base64.undigit p, Base64.undigit q with
    | Some a, Some b =>
        if Base64.isPad t then
          match rest with
          | EmptyString =>
              if Base64.isPad r then
                let '(x, _, _) := Base64.join4 a b zero zero in
                Some (String x EmptyString)
              else
                match Base64.undigit r with
                | Some c =>
                    let '(x, y, _) := Base64.join4 a b c zero in
                    Some (String x (String y EmptyString))
                | None => None
                end
          | _ => None
          end
        else
          match Base64.undigit r, Base64.undigit t, Base64.decode rest with
          | Some c, Some d, Some tail =>
              let '(x, y, z) := Base64.join4 a b c d in
              Some (String x (String y (String z tail)))
          | _, _, _ => None
          end
    | _, _ => None
    end.
Proof. reflexivity. Qed.

Lemma decode_encode_1 x :
  Base64.decode (Base64.encode (String x EmptyString))
  = Some (String x EmptyString).
Proof.
  destruct x as [x0 x1 x2 x3 x4 x5 x6 x7].
  cbn [Base64.encode Base64.split3 zero]. rewrite decode_unfold.
  rewrite !undigit_digit. reflexivity.
Qed.

Lemma decode_encode_2 x y :
  Base64.decode (Base64.encode (String x (String y EmptyString)))
  = Some (String x (String y EmptyString)).
Proof.
  destruct x as [x0 x1 x2 x3 x4 x5 x6 x7], y as [y0 y1 y2 y3 y4 y5 y6 y7].
  cbn [Base64.encode Base64.split3 zero]. rewrite decode_unfold.
  rewrite !undigit_digit, digit_not_pad. reflexivity.
Qed.

Lemma decode_encode_3 x y z rest :
  Base64.decode (Base64.encode (String x (String y (String z rest))))
  = match Base64.decode (Base64.encode rest) with
    | Some tail => Some (String x (String y (String z tail)))
    | None => None
    end.
Proof.
  destruct x as [x0 x1 x2 x3 x4 x5 x6 x7], y as [y0 y1 y2 y3 y4 y5 y6 y7],
    z as [z0 z1 z2 z3 z4 z5 z6 z7].
  cbn [Base64.encode Base64.split3]. fold Base64.encode.
  rewrite decode_unfold. rewrite !undigit_digit, digit_not_pad.
  reflexivity.
Qed.

(** Induction on a string three characters at a time. *)
Lemma string_by_threes (P : string -> Prop) :
  P EmptyString ->
  (forall a, P (String a EmptyString)) ->
  (forall a b, P (String a (String b EmptyString))) ->
  (forall a b c s, P s -> P (String a (String b (String c s)))) ->
  forall s, P s.
Proof.
  intros H0 H1 H2 H3 s.
  cut (P s /\ (forall a, P (String a s))
       /\ (forall a b, P (String a (String b s)))); [tauto|].
  induction s as [|c s (IH0 & IH1 & IH2)]; auto.
Qed.

Lemma base64_decode_encode bytes :
  Base64.decode (Base64.encode bytes) = Some bytes.
Proof.
  induction bytes as [|x|x y|x y z rest IH] using string_by_threes.
  - reflexivity.
  - apply decode_encode_1.
  - apply decode_encode_2.
  - rewrite decode_encode_3. by rewrite IH.
Qed.

(** *** JSON *)

Lemma expect_onto p q k : expect (onto p q) (onto p k) = expect q k.
Proof.
  induction p as [|c p IH]; simpl; [done|]. by rewrite Ascii.eqb_refl.
Qed.

Lemma expect_literal p k : expect p (onto p k) = Some k.
Proof.
  induction p as [|c p IH]; simpl; [done|]. by rewrite Ascii.eqb_refl.
Qed.

Lemma readBody_escapeOnto c k :
  readBody (escapeOnto c k) = option_map (prepend c) (readBody k).
Proof. destruct c as [[] [] [] [] [] [] [] []]; reflexivity. Qed.

Lemma readBody_quoteBody s k : readBody (quoteBody s k) = Some (s, k).
Proof.
  induction s as [|c s IH]; [reflexivity|].
  cbn [quoteBody]. by rewrite readBody_escapeOnto, IH.
Qed.

Lemma readQuoted_quoteOnto s k : readQuoted (quoteOnto s k) = Some (s, k).
Proof. unfold readQuoted, quoteOnto. simpl. apply readBody_quoteBody. Qed.

Lemma readValue_valueOnto v k : readValue (valueOnto v k) = Some (v, k).
Proof.
  destruct v as [s|]; unfold readValue, valueOnto.
  - replace (expect "null" (quoteOnto s k)) with (@None string)
      by reflexivity.
    by rewrite readQuoted_quoteOnto.
  - by rewrite expect_literal.
Qed.

Lemma readMember_keyOnto name v k :
  readMember name (keyOnto name (valueOnto v k)) = Some (v, k).
Proof.
  unfold readMember, keyOnto. simpl.
  rewrite expect_onto. simpl. rewrite readValue_valueOnto. done.
Qed.

Lemma readMember_string name s k :
  readMember name (keyOnto name (quoteOnto s k)) = Some (Some s, k).
Proof. apply (readMember_keyOnto name (Some s) k). Qed.

Local Opaque keyOnto valueOnto quoteOnto readMember onto expect.

Lemma JSON_parse_stringify d : JSON_parse (JSON_stringify d) = Some d.
Proof.
  destruct d as [botId botName userId channelId].
  unfold JSON_parse, JSON_stringify. cbn [sd_botId sd_botName sd_userId
                                           sd_channelId].
  rewrite expect_literal. simpl.
  rewrite readMember_string. simpl.
  rewrite expect_literal. simpl.
  rewrite readMember_string. simpl.
  rewrite expect_literal. simpl.
  rewrite readMember_string. simpl.
  rewrite expect_literal. simpl.
  rewrite (readMember_keyOnto "channelId" channelId). simpl.
  change "}" with (onto "}" EmptyString). rewrite expect_literal.
  reflexivity.
Qed.

Local Transparent keyOnto valueOnto quoteOnto readMember onto expect.

Lemma decode_sessionId d : decode (sessionId d) = Some d.
Proof.
  unfold decode, sessionId. rewrite base64_decode_encode. simpl.
  apply JSON_parse_stringify.
Qed.

(** C9. Decoding the session id built from a bot id, a bot name, a user
    id and a channel gives back the very record it was built from: the
    bot id, the user id, and as channel id the id of the parent for a
    thread and the id of the channel itself otherwise. *)
Theorem C9_session_id_round_trip botId botName userId (channel : Channel) :
  decode (sessionId (sessionData botId botName userId channel))
  = Some {| sd_botId := botId;
            sd_botName := botName;
            sd_userId := userId;
            sd_channelId := if isThread channel then parentId channel
                            else Some (channel_id channel) |}.
Proof.
  unfold decode, sessionId.
  rewrite base64_decode_encode. simpl.
  rewrite JSON_parse_stringify.
  reflexivity.
Qed.

(** Two session ids are equal only if they were built from the same
    record. *)
Corollary sessionId_injective d1 d2 : sessionId d1 = sessionId d2 -> d1 = d2.
Proof.
  intros H. apply (f_equal decode) in H. rewrite !decode_sessionId in H.
  by inversion H.
Qed.

Example sessionId_sample :
  sessionId {| sd_botId := "200"; sd_botName := "Helper"; sd_userId := "100";
               sd_channelId := Some "c1" |}
  = "eyJib3RJZCI6IjIwMCIsImJvdE5hbWUiOiJIZWxwZXIiLCJ1c2VySWQiOiIxMDAiLCJjaGFubmVsSWQiOiJjMSJ9".
Proof. vm_compute. reflexivity. Qed.

End SessionProofs.

(** ** The orchestrator: request shape, typing indicator, cache *)
Module OrchestratorProofs.
Import LlmAPI Orchestrator Handlers ClientSpec CacheSpec Samples.

(** *** Mentions *)

(** The scanner against the regular expression, on mentions that
    resolve, that do not, and that do not complete. *)
Example replaceMentions_sample :
  replaceMentions {["100" := "Alice"]}
    "hi <@100> and <@!100>, <@999> <@!999> <<@100> <@1a> <@100"
  = "hi Alice and Alice, <@999> <@999> <Alice <@1a> <@100".
Proof. vm_compute. reflexivity. Qed.

(** *** The request body when no history is configured *)

Lemma message_body_is_first botConfig first rest :
  convLength botConfig = 0%nat ->
  customFields botConfig !! "message" = None ->
  requestBody botConfig (first :: rest) first !! "message"
  = Some (BodyText (text first)).
Proof.
  intros Hlen Hcustom. unfold requestBody.
  rewrite bool_decide_eq_true_2 by done.
  rewrite lookup_union_r by (by rewrite lookup_fmap, Hcustom).
  by rewrite lookup_singleton_eq.
Qed.

Lemma topic_leads_conversation w botId message limit t fetched :
  topic (channel message) = Some t -> t <> "" ->
  fetchConversationFromDiscord w botId message limit = Return fetched ->
  exists rest,
    fetched = {| timestamp := Some (nowISO w); cm_username := "Channel Topic";
                 text := t |} :: rest.
Proof.
  intros Htopic Ht. unfold fetchConversationFromDiscord.
  rewrite Htopic. unfold truthy.
  rewrite (bool_decide_eq_false_2 (t = "")) by done.
  simpl. intros H.
  destruct (if bool_decide (limit = 0%nat) then _ else _) as [sorted|];
    [|done].
  simpl in H. destruct (awaitAll _) as [names|]; [|done].
  simpl in H. inversion H. eauto.
Qed.

(** [callLLM] consults the endpoint with [postedRequest] and nothing
    else. *)
Lemma callLLM_posts stringify endpoint botConfig conversation sessionId
    request :
  postedRequest botConfig conversation sessionId = Some request ->
  callLLM stringify endpoint botConfig conversation sessionId
  = callLLM stringify (fun _ => endpoint request) botConfig conversation
      sessionId.
Proof.
  destruct conversation as [|first rest]; [done|]. intros [= <-].
  reflexivity.
Qed.

(** C1. A bot without history ([convLength] 0, no [message] key among
    its custom fields) gets a message in a channel that has a topic. The
    conversation fetched for it starts with the "Channel Topic" line, and
    the body [callLLM] posts for that conversation carries the topic as
    [message], whatever the triggering message says. *)
Theorem C1_topic_sent_as_message w botId botConfig message t fetched
    sessionId :
  convLength botConfig = 0%nat ->
  customFields botConfig !! "message" = None ->
  topic (channel message) = Some t -> t <> "" ->
  fetchConversationFromDiscord w botId message (convLength botConfig)
  = Return fetched ->
  exists request,
    postedRequest botConfig fetched sessionId = Some request /\
    body request !! "message" = Some (BodyText t).
Proof.
  intros Hlen Hcustom Htopic Ht Hfetch.
  destruct (topic_leads_conversation w botId message _ t fetched
              Htopic Ht Hfetch) as [rest ->].
  eexists. split; [reflexivity|]. simpl.
  by rewrite message_body_is_first.
Qed.

Lemma C1_topic_sent_as_message_witness :
  exists request,
    postedRequest config
      [{| timestamp := Some "2025-01-01T00:00:10.000Z";
          cm_username := "Channel Topic"; text := "Rules of the room" |};
       helloLine] "s" = Some request /\
    body request !! "message" = Some (BodyText "Rules of the room").
Proof.
  apply (C1_topic_sent_as_message (world 10000 [] echo) "200" config
           (ask "m1" topicChannel 9000)
           "Rules of the room" _ "s");
    [reflexivity | reflexivity | reflexivity | discriminate | reflexivity].
Defined.

(** The whole handler on that input. The endpoint answers with the text
    it was sent as [message], and what the bot replies is the topic; the
    words of the user never reach the endpoint. *)
Example topic_echoed_back :
  let w := world 10000 [] echo in
  let m := ask "m1" topicChannel 9000 in
  content m = "<@200> hello" /\
  done_ (handleMessageCreate w self m ∅ idle).1.2
  = [ReplyTo "m1" (Some {| options_content := Some "Rules of the room";
                           options_embeds := [] |});
     SendTyping "c3"].
Proof. vm_compute. done. Qed.

(** Without a topic the text of the message is sent. *)
Example message_sent_without_topic :
  done_ (handleMessageCreate (world 10000 [] echo) self
           (ask "m1" guildChannel 9000) ∅ idle).1.2
  = [ReplyTo "m1" (Some {| options_content := Some "<@200> hello";
                           options_embeds := [] |});
     SendTyping "c1"].
Proof. vm_compute. done. Qed.

(** *** The typing indicator *)

Lemma deliver_clears w channel userMessage respondAsReply reply handle st :
  handle ∉ intervals (deliver w channel userMessage respondAsReply reply
                        handle st).1.
Proof.
  assert (Hclear : forall s, handle ∉ intervals (clearInterval handle s)).
  { intros s [_ Hnot]%elem_of_difference. apply Hnot.
    by apply elem_of_singleton. }
  unfold deliver, perform.
  destruct (accepts w (if respondAsReply then _ else _)); simpl.
  - apply Hclear.
  - destruct (accepts w (ReplyText _ _)); simpl; apply Hclear.
Qed.

(** Whenever the inference client reports a rate limit, the handler
    returns with the interval it started still running. *)
Lemma rate_limited_keeps_interval w client message respondAsReply st
    st1 conversation userMessage botName :
  isSendable (channel message) = true ->
  ephemeralFetchConversation w (botId client) message
    (convLength (botConfig client)) 5000 st = (st1, Return conversation) ->
  accepts w (SendTyping (channel_id (channel message))) = true ->
  resolveUserMessage w (botId client) message = Some userMessage ->
  getDisplayName w (botId client) (guildId message) = Return botName ->
  callLLM (JSON_stringify w) (endpoint w) (botConfig client)
    (items conversation)
    (Session.sessionId
       (Session.sessionData (botId client) botName
          (user_id (author userMessage)) (channel message)))
  = Return RateLimited ->
  (processConversation w client message respondAsReply st).2 = Return tt /\
  nextInterval st1
    ∈ intervals (processConversation w client message respondAsReply st).1.
Proof.
  intros Hsend Hfetch Htyping Huser Hname Hllm.
  unfold processConversation. rewrite Hsend, Hfetch. simpl.
  unfold perform. rewrite Htyping. simpl.
  rewrite Huser, Hname, Hllm. simpl. split; [done|].
  apply elem_of_union_l. by apply elem_of_singleton.
Qed.

(** C3. Once [processConversation] has fetched the conversation, sent
    the first typing signal and started the typing interval, the interval
    is stopped on the two exits through the delivery block only. It is
    still running when the handler is left in any other way: no message
    of a user is found for a message of the bot itself, the display name
    of the bot cannot be had, the inference client reports a rate limit,
    or the inference client throws. *)
Theorem C3_interval_stopped_only_after_delivery w client message
    respondAsReply st st1 conversation :
  isSendable (channel message) = true ->
  ephemeralFetchConversation w (botId client) message
    (convLength (botConfig client)) 5000 st = (st1, Return conversation) ->
  accepts w (SendTyping (channel_id (channel message))) = true ->
  let handle := nextInterval st1 in
  let result := processConversation w client message respondAsReply st in
  let inference userMessage botName :=
    callLLM (JSON_stringify w) (endpoint w) (botConfig client)
      (items conversation)
      (Session.sessionId
         (Session.sessionData (botId client) botName
            (user_id (author userMessage)) (channel message))) in
  (resolveUserMessage w (botId client) message = None ->
   result.2 = Return tt /\ handle ∈ intervals result.1) /\
  (forall userMessage,
      resolveUserMessage w (botId client) message = Some userMessage ->
      (forall e,
          getDisplayName w (botId client) (guildId message) = Throw e ->
          result.2 = Throw e /\ handle ∈ intervals result.1) /\
      (forall botName,
          getDisplayName w (botId client) (guildId message) = Return botName ->
          (inference userMessage botName = Return RateLimited ->
           result.2 = Return tt /\ handle ∈ intervals result.1) /\
          (forall e,
              inference userMessage botName = Throw e ->
              result.2 = Throw e /\ handle ∈ intervals result.1) /\
          (forall reply,
              inference userMessage botName = Return (Success reply) ->
              handle ∉ intervals result.1))).
Proof.
  intros Hsend Hfetch Htyping handle result inference.
  assert (Hstarted : forall s : State,
             nextInterval s ∈ intervals (setInterval s).1).
  { intros s. simpl. apply elem_of_union_l. by apply elem_of_singleton. }
  subst result. unfold processConversation.
  rewrite Hsend, Hfetch. simpl. unfold perform. rewrite Htyping. simpl.
  split.
  - intros ->. split; [done|apply (Hstarted (Build_State _ _ _ _ _))].
  - intros userMessage ->. split.
    + intros e ->. split; [done|apply (Hstarted (Build_State _ _ _ _ _))].
    + intros botName ->. subst inference. simpl. split; [|split].
      * intros ->. split; [done|apply (Hstarted (Build_State _ _ _ _ _))].
      * intros e ->. split; [done|apply (Hstarted (Build_State _ _ _ _ _))].
      * intros reply ->. apply deliver_clears.
Qed.

Lemma C3_interval_stopped_only_after_delivery_witness :
  (processConversation (world 10000 [] (answering 429 DataNull)) self
     (ask "m1" guildChannel 9000)
     false idle).2 = Return tt /\
  0%nat ∈ intervals
            (processConversation (world 10000 [] (answering 429 DataNull)) self
               (ask "m1" guildChannel 9000)
               false idle).1.
Proof.
  edestruct (C3_interval_stopped_only_after_delivery
               (world 10000 [] (answering 429 DataNull)) self
               (ask "m1" guildChannel 9000)
               false idle) as [_ Hfound];
    [reflexivity | reflexivity | reflexivity |].
  edestruct Hfound as [_ Hnamed]; [reflexivity|].
  edestruct Hnamed as [Hlimited _]; [reflexivity|].
  apply Hlimited. reflexivity.
Defined.

(** Three runs that end with the interval running: a message to the bot
    when the endpoint answers 429, the same when it answers 500, and a
    regeneration (the reaction handler passes the bot's own message) when
    nothing precedes that message. *)
Example interval_left_running :
  let ownReply := post "m2" MessageType_Default selfUser guildChannel "hi" 9500 in
  let limited :=
    handleMessageCreate (world 10000 [] (answering 429 DataNull)) self
      (ask "m1" guildChannel 9000) ∅ idle in
  let failed :=
    handleMessageCreate (world 10000 [] (answering 500 (DataObject quotaError)))
      self (ask "m1" guildChannel 9000) ∅ idle in
  let unresolved :=
    processConversation (world 10000 [] echo) self ownReply true idle in
  (limited.2 = Return tt /\ elements (intervals limited.1.2) = [0%nat]) /\
  (failed.2 = Throw "quota exceeded"
   /\ elements (intervals failed.1.2) = [0%nat]) /\
  (unresolved.2 = Return tt /\ elements (intervals unresolved.1) = [0%nat]).
Proof. vm_compute. done. Qed.

(** The two paths through the delivery block stop the interval: the
    reply is sent, or sending fails and the apology is sent. *)
Example interval_cleared_after_delivery :
  let w := world 10000 [] echo in
  let refusing :=
    {| now := now w; nowISO := nowISO w; fetchMessages := fetchMessages w;
       getDisplayName := getDisplayName w; cachedMessage := cachedMessage w;
       fetchReference := fetchReference w; fetchPreceding := fetchPreceding w;
       endpoint := endpoint w; JSON_stringify := JSON_stringify w;
       accepts := fun a => match a with ReplyTo _ _ => false | _ => true end |} in
  elements (intervals (handleMessageCreate w self (ask "m1" guildChannel 9000)
                         ∅ idle).1.2) = []
  /\
  elements (intervals (handleMessageCreate refusing self
                         (ask "m1" guildChannel 9000) ∅ idle).1.2) = []
  /\
  done_ (handleMessageCreate refusing self (ask "m1" guildChannel 9000)
           ∅ idle).1.2
  = [ReplyText "m1" "Beep boop, something went wrong. Please contact the owner.";
     SendTyping "c1"].
Proof. vm_compute. done. Qed.

(** *** The conversation cache *)

(** An entry younger than the cache duration is returned as it is, and
    nothing changes. *)
Lemma cache_hit w botId message limit cacheDurationMs st cached :
  channelCache st !! channel_id (channel message) = Some cached ->
  now w - lastFetchTime cached < cacheDurationMs ->
  ephemeralFetchConversation w botId message limit cacheDurationMs st
  = (st, Return (messages cached)).
Proof.
  intros Hlook Hfresh. unfold ephemeralFetchConversation. rewrite Hlook.
  by replace (now w - lastFetchTime cached <? cacheDurationMs) with true
    by (symmetry; lia).
Qed.

(** Without such an entry the conversation is fetched, stored under the
    channel with the current time, and returned. *)
Lemma cache_miss w botId message limit cacheDurationMs st fetched :
  (forall cached,
      channelCache st !! channel_id (channel message) = Some cached ->
      cacheDurationMs <= now w - lastFetchTime cached) ->
  0 <= cacheDurationMs ->
  fetchConversationFromDiscord w botId message limit = Return fetched ->
  let fresh := {| identity := S (upstreamFetches st); items := fetched |} in
  let result :=
    ephemeralFetchConversation w botId message limit cacheDurationMs st in
  result.2 = Return fresh /\
  upstreamFetches result.1 = S (upstreamFetches st) /\
  channelCache result.1 !! channel_id (channel message)
  = Some {| lastFetchTime := now w; messages := fresh |}.
Proof.
  intros Hstale Hdur Hfetch fresh result. subst result.
  unfold ephemeralFetchConversation.
  assert (match channelCache st !! channel_id (channel message) with
          | Some cached =>
              if now w - lastFetchTime cached <? cacheDurationMs
              then Some (messages cached) else None
          | None => None
          end = None) as ->.
  { destruct (channelCache st !! _) as [cached|] eqn:Hlook; [|done].
    specialize (Hstale cached eq_refl).
    by replace (now w - lastFetchTime cached <? cacheDurationMs) with false
      by (symmetry; lia). }
  rewrite Hfetch. simpl. split; [done|]. split; [done|].
  case_bool_decide.
  - apply map_lookup_filter_Some. split; [apply lookup_insert_eq|].
    simpl. lia.
  - apply lookup_insert_eq.
Qed.

(** A fetch for another channel leaves an entry in place as long as the
    entry is not older than the cache duration at that moment. *)
Lemma other_channel_keeps_entry w botId message limit cacheDurationMs st
    key cached :
  channel_id (channel message) <> key ->
  channelCache st !! key = Some cached ->
  now w - lastFetchTime cached <= cacheDurationMs ->
  channelCache
    (ephemeralFetchConversation w botId message limit cacheDurationMs st).1
    !! key
  = Some cached.
Proof.
  intros Hother Hlook Hage. unfold ephemeralFetchConversation.
  destruct (match channelCache st !! channel_id (channel message) with
            | Some c => _ | None => None end); [done|].
  destruct (fetchConversationFromDiscord _ _ _ _); simpl; [|done].
  case_bool_decide.
  - apply map_lookup_filter_Some. split; [by rewrite lookup_insert_ne|].
    simpl. lia.
  - by rewrite lookup_insert_ne.
Qed.

Lemma other_channels_keep_entry botId limit cacheDurationMs calls st
    key cached :
  Forall (fun call : World * Message =>
            channel_id (channel call.2) <> key /\
            now call.1 - lastFetchTime cached <= cacheDurationMs) calls ->
  channelCache st !! key = Some cached ->
  channelCache (runFetches botId limit cacheDurationMs calls st) !! key
  = Some cached.
Proof.
  intros Hcalls. revert st.
  induction Hcalls as [|[w message] calls [Hother Hage] _ IH]; intros st Hlook.
  - done.
  - simpl. apply IH. by apply other_channel_keeps_entry.
Qed.

(** C7. Three fetches for one channel. The first finds no entry younger
    than the cache duration, so it fetches upstream and stores the result.
    The second, issued less than the cache duration after the first,
    returns the same array and changes nothing: no upstream fetch. The
    third, issued when at least the cache duration has passed since the
    first, fetches upstream again and overwrites the entry. *)
Theorem C7_cache_window w1 w2 w3 botId m1 m2 m3 limit1 limit2 limit3
    cacheDurationMs st fetched1 fetched3 :
  channel_id (channel m2) = channel_id (channel m1) ->
  channel_id (channel m3) = channel_id (channel m1) ->
  (forall cached,
      channelCache st !! channel_id (channel m1) = Some cached ->
      cacheDurationMs <= now w1 - lastFetchTime cached) ->
  fetchConversationFromDiscord w1 botId m1 limit1 = Return fetched1 ->
  0 <= now w2 - now w1 < cacheDurationMs ->
  cacheDurationMs <= now w3 - now w1 ->
  fetchConversationFromDiscord w3 botId m3 limit3 = Return fetched3 ->
  let first :=
    ephemeralFetchConversation w1 botId m1 limit1 cacheDurationMs st in
  let second :=
    ephemeralFetchConversation w2 botId m2 limit2 cacheDurationMs first.1 in
  let third :=
    ephemeralFetchConversation w3 botId m3 limit3 cacheDurationMs second.1 in
  first.2
  = Return {| identity := S (upstreamFetches st); items := fetched1 |} /\
  upstreamFetches first.1 = S (upstreamFetches st) /\
  second.2 = first.2 /\
  second.1 = first.1 /\
  third.2
  = Return {| identity := S (S (upstreamFetches st)); items := fetched3 |} /\
  upstreamFetches third.1 = S (S (upstreamFetches st)) /\
  channelCache third.1 !! channel_id (channel m1)
  = Some {| lastFetchTime := now w3;
            messages := {| identity := S (S (upstreamFetches st));
                           items := fetched3 |} |}.
Proof.
  intros Hch2 Hch3 Hstale Hfetch1 Hnear Hfar Hfetch3 first second third.
  destruct (cache_miss w1 botId m1 limit1 cacheDurationMs st fetched1
              Hstale ltac:(lia) Hfetch1) as (Hr1 & Hn1 & Hentry1).
  fold first in Hr1, Hn1, Hentry1.
  assert (Hsecond : second = (first.1, first.2)).
  { subst second. rewrite Hr1.
    rewrite <- Hch2 in Hentry1.
    by rewrite (cache_hit w2 botId m2 limit2 cacheDurationMs first.1 _
                  Hentry1) by (simpl; lia). }
  assert (Hstale3 : forall cached,
             channelCache second.1 !! channel_id (channel m3) = Some cached ->
             cacheDurationMs <= now w3 - lastFetchTime cached).
  { intros cached. rewrite Hsecond, Hch3. simpl. rewrite Hentry1.
    intros [= <-]. simpl. lia. }
  destruct (cache_miss w3 botId m3 limit3 cacheDurationMs second.1 fetched3
              Hstale3 ltac:(lia) Hfetch3) as (Hr3 & Hn3 & Hentry3).
  fold third in Hr3, Hn3, Hentry3.
  assert (Hcount : upstreamFetches second.1 = S (upstreamFetches st))
    by (by rewrite Hsecond).
  rewrite Hcount in Hr3, Hn3, Hentry3. rewrite Hch3 in Hentry3.
  repeat split; try done.
  - by rewrite Hsecond.
  - by rewrite Hsecond.
Qed.

Lemma C7_cache_window_witness :
  let m := ask "m1" guildChannel 9000 in
  let first :=
    ephemeralFetchConversation (world 10000 [] echo) "200" m 0 5000 idle in
  let second :=
    ephemeralFetchConversation (world 12000 [] echo) "200" m 0 5000 first.1 in
  let third :=
    ephemeralFetchConversation (world 15000 [] echo) "200" m 0 5000 second.1 in
  first.2 = Return {| identity := 1; items := [helloLine] |} /\
  upstreamFetches first.1 = 1%nat /\
  second.2 = first.2 /\
  second.1 = first.1 /\
  third.2 = Return {| identity := 2; items := [helloLine] |} /\
  upstreamFetches third.1 = 2%nat /\
  channelCache third.1 !! "c1"
  = Some {| lastFetchTime := 15000;
            messages := {| identity := 2; items := [helloLine] |} |}.
Proof.
  apply (C7_cache_window (world 10000 [] echo) (world 12000 [] echo)
           (world 15000 [] echo) "200"
           (ask "m1" guildChannel 9000)
           (ask "m1" guildChannel 9000)
           (ask "m1" guildChannel 9000)
           0%nat 0%nat 0%nat 5000 idle [helloLine] [helloLine]).
  - reflexivity.
  - reflexivity.
  - intros cached Hlook. discriminate Hlook.
  - reflexivity.
  - simpl. lia.
  - simpl. lia.
  - reflexivity.
Defined.

(** C7, as stated for any two fetches close to each other, fails: the
    window is counted from the upstream fetch, not from the fetch before.
    With an entry fetched at time 0, a fetch at 4000 is served from the
    cache, and a fetch at 6000, 2000 ms later, goes upstream and returns a
    new array. *)
Lemma C7_window_counts_from_upstream_fetch :
  ~ fetchesAgree (world 4000 [] echo) (world 6000 [] echo) "200"
      (ask "m1" guildChannel 3000)
      0 5000 cachedAtZero.
Proof.
  unfold fetchesAgree. intros H.
  assert (Hnear : 0 <= now (world 6000 [] echo) - now (world 4000 [] echo)
                  < 5000) by (simpl; lia).
  specialize (H Hnear). vm_compute in H. destruct H as [_ H]. discriminate H.
Qed.

(** Fetches for other channels between the two do not disturb the entry,
    as long as they too fall inside the window. *)
Lemma second_fetch_after_other_channels w1 w2 botId m1 m2 limit
    cacheDurationMs st fetched calls :
  channel_id (channel m2) = channel_id (channel m1) ->
  (forall cached,
      channelCache st !! channel_id (channel m1) = Some cached ->
      cacheDurationMs <= now w1 - lastFetchTime cached) ->
  fetchConversationFromDiscord w1 botId m1 limit = Return fetched ->
  Forall (fun call : World * Message =>
            channel_id (channel call.2) <> channel_id (channel m1) /\
            now call.1 - now w1 <= cacheDurationMs) calls ->
  0 <= now w2 - now w1 < cacheDurationMs ->
  let first :=
    ephemeralFetchConversation w1 botId m1 limit cacheDurationMs st in
  let between := runFetches botId limit cacheDurationMs calls first.1 in
  ephemeralFetchConversation w2 botId m2 limit cacheDurationMs between
  = (between, first.2).
Proof.
  intros Hch Hstale Hfetch Hcalls Hnear first between.
  destruct (cache_miss w1 botId m1 limit cacheDurationMs st fetched
              Hstale ltac:(lia) Hfetch) as (Hr1 & _ & Hentry1).
  fold first in Hr1, Hentry1.
  assert (Hkept : channelCache between !! channel_id (channel m2)
                  = Some {| lastFetchTime := now w1;
                            messages := {| identity := S (upstreamFetches st);
                                           items := fetched |} |}).
  { rewrite Hch. by apply other_channels_keep_entry. }
  rewrite (cache_hit w2 botId m2 limit cacheDurationMs between _ Hkept)
    by (simpl; lia).
  by rewrite Hr1.
Qed.

End OrchestratorProofs.

(** ** More on the loop guard and the response policy *)
Module PolicyProofs.
Import EventHandler GuardSpec PolicySpec Samples.

(** What the loop guard writes for a message of another bot. *)
Lemma loopGuard_other_bot self now ch m chains :
  otherBotPost self ch m ->
  exists chain,
    loopGuard self now m chains = (<[ch := chain]> chains, 3 <=? chainCount chain)
    /\ lastBotId chain = user_id (author m) /\ lastActivity chain = now
    /\ (forall old, chains !! ch = Some old -> now - lastActivity old <= 600000 ->
        chainCount old <= chainCount chain)
    /\ (forall old, chains !! ch = Some old -> 600000 < now - lastActivity old ->
        chainCount chain = 0)
    /\ (chains !! ch = None -> chainCount chain = 0).
Proof.
  intros (Hbot & Hself & Hch & _). unfold loopGuard.
  rewrite Hbot, Hch. rewrite bool_decide_eq_false_2 by done.
  eexists. split; [reflexivity|]. simpl.
  split; [done|]. split; [done|].
  destruct (chains !! ch) as [old|] eqn:Hold; simpl.
  - repeat split.
    + intros ? [= <-] Hin.
      replace (600000 <? now - lastActivity old) with false by (symmetry; lia).
      destruct (truthy _ && _); simpl; lia.
    + intros ? [= <-] Hout.
      by replace (600000 <? now - lastActivity old) with true by (symmetry; lia).
    + done.
  - repeat split; try done. by destruct (600000 <? now - 0).
Qed.

Lemma runEvents_cons client env m rest chains :
  runEvents client ((env, m) :: rest) chains
  = ((runEvents client rest (shouldRespond client env m chains).1).1,
     (shouldRespond client env m chains).2
     :: (runEvents client rest (shouldRespond client env m chains).1).2).
Proof.
  simpl. destruct (shouldRespond client env m chains) as [c v]. simpl.
  by destruct (runEvents client rest c).
Qed.

(** X1. One other bot posting again and again in a channel never moves
    the count of that channel: after any number of its messages, however
    spaced, the count is 0 and the loop guard has stopped none of them.
    The channel starts without an entry, or with a zero entry of that
    bot. *)
Theorem single_bot_never_trips client a ch events
    (chains : gmap string BotConversationChain) :
  a <> botId client ->
  (chains !! ch = None \/
   exists t, chains !! ch
             = Some {| chainCount := 0; lastBotId := a; lastActivity := t |}) ->
  Forall (fun ev : Env * Message => botPost a ch ev.2) events ->
  chainCountOf (runEvents client events chains).1 ch = 0 /\
  Forall (fun stop => stop = false) (guardStops client events chains).
Proof.
  intros Hself Hstart Hposts. revert chains Hstart.
  induction Hposts as [|[env m] events Hpost _ IH]; intros chains Hstart.
  - simpl. split; [|constructor].
    unfold chainCountOf. by destruct Hstart as [->|(t & ->)].
  - simpl in Hpost.
    assert (Hstep : loopGuard (botId client) (now env) m chains
                    = (<[ch := {| chainCount := 0; lastBotId := a;
                                  lastActivity := now env |}]> chains, false)).
    { destruct Hstart as [Hnone|(t & Hsome)].
      - by apply GuardProofs.loopGuard_first.
      - destruct Hpost as (Hbot & Ha & Hch & _). unfold loopGuard.
        rewrite Hbot, Ha, Hch, Hsome. rewrite bool_decide_eq_false_2 by done.
        simpl. destruct (600000 <? now env - t); simpl.
        + done.
        + rewrite (bool_decide_eq_true_2 (a = a)) by done.
          by rewrite andb_false_r. }
    assert (Htable : (shouldRespond client env m chains).1
                     = <[ch := {| chainCount := 0; lastBotId := a;
                                  lastActivity := now env |}]> chains).
    { rewrite GuardProofs.shouldRespond_table by apply Hpost. by rewrite Hstep. }
    rewrite runEvents_cons. simpl. rewrite Htable, Hstep. simpl.
    destruct (IH (<[ch := {| chainCount := 0; lastBotId := a;
                             lastActivity := now env |}]> chains)) as [Hc Hs].
    { right. exists (now env). apply lookup_insert_eq. }
    split; [done|]. by constructor.
Qed.

Lemma single_bot_never_trips_witness :
  chainCountOf
    (runEvents self
       [(at_time 1000, post "m1" MessageType_Default botA guildChannel "a" 1000);
        (at_time 2000, post "m2" MessageType_Default botA guildChannel "a" 2000);
        (at_time 900000, post "m3" MessageType_Default botA guildChannel "a" 900000)]
       ∅).1 "c1" = 0 /\
  Forall (fun stop => stop = false)
    (guardStops self
       [(at_time 1000, post "m1" MessageType_Default botA guildChannel "a" 1000);
        (at_time 2000, post "m2" MessageType_Default botA guildChannel "a" 2000);
        (at_time 900000, post "m3" MessageType_Default botA guildChannel "a" 900000)]
       ∅).
Proof.
  apply (single_bot_never_trips self "201" "c1").
  - discriminate.
  - left. reflexivity.
  - repeat constructor.
Defined.

(** X2. A message of another bot that comes more than ten minutes after
    the last recorded activity starts the chain of its channel afresh:
    whatever the count was, the entry becomes count 0 with this author and
    this time, and the loop guard does not stop the message. *)
Theorem idle_chain_resets client env m ch old
    (chains : gmap string BotConversationChain) :
  otherBotPost (botId client) ch m ->
  chains !! ch = Some old ->
  600000 < now env - lastActivity old ->
  loopGuard (botId client) (now env) m chains
  = (<[ch := {| chainCount := 0; lastBotId := user_id (author m);
                lastActivity := now env |}]> chains, false) /\
  (shouldRespond client env m chains).1 !! ch
  = Some {| chainCount := 0; lastBotId := user_id (author m);
            lastActivity := now env |}.
Proof.
  intros Hpost Hold Hidle.
  assert (Hstep : loopGuard (botId client) (now env) m chains
                  = (<[ch := {| chainCount := 0;
                                lastBotId := user_id (author m);
                                lastActivity := now env |}]> chains, false)).
  { destruct Hpost as (Hbot & Hself & Hch & _). unfold loopGuard.
    rewrite Hbot, Hch, Hold. rewrite bool_decide_eq_false_2 by done. simpl.
    by replace (600000 <? now env - lastActivity old) with true
      by (symmetry; lia). }
  split; [done|].
  rewrite GuardProofs.shouldRespond_table by apply Hpost.
  rewrite Hstep. apply lookup_insert_eq.
Qed.

Lemma idle_chain_resets_witness :
  loopGuard (botId self) (now (at_time 700000))
    (post "m9" MessageType_Default botB guildChannel "b" 700000)
    {["c1" := {| chainCount := 7; lastBotId := "201"; lastActivity := 1000 |}]}
  = (<["c1" := {| chainCount := 0; lastBotId := "202";
                  lastActivity := 700000 |}]>
       {["c1" := {| chainCount := 7; lastBotId := "201";
                    lastActivity := 1000 |}]}, false) /\
  (shouldRespond self (at_time 700000)
     (post "m9" MessageType_Default botB guildChannel "b" 700000)
     {["c1" := {| chainCount := 7; lastBotId := "201";
                  lastActivity := 1000 |}]}).1 !! "c1"
  = Some {| chainCount := 0; lastBotId := "202"; lastActivity := 700000 |}.
Proof.
  apply (idle_chain_resets self (at_time 700000)
           (post "m9" MessageType_Default botB guildChannel "b" 700000) "c1"
           {| chainCount := 7; lastBotId := "201"; lastActivity := 1000 |}).
  - repeat split; [discriminate].
  - reflexivity.
  - simpl. lia.
Defined.

(** X3. Once the count of a channel has reached 3, every further message
    of another bot in that channel is refused as long as each comes within
    ten minutes of the one before, and the count stays at 3 or above: the
    guard lets go only after ten minutes without a bot. *)
Theorem tripped_guard_stays client ch events old
    (chains : gmap string BotConversationChain) :
  chains !! ch = Some old ->
  3 <= chainCount old ->
  Forall (fun ev : Env * Message => otherBotPost (botId client) ch ev.2) events ->
  withinWindow (lastActivity old) events ->
  (runEvents client events chains).2
  = map (fun _ => Return false) events /\
  3 <= chainCountOf (runEvents client events chains).1 ch.
Proof.
  intros Hold Hcount Hposts. revert chains old Hold Hcount.
  induction Hposts as [|[env m] events Hpost _ IH];
    intros chains old Hold Hcount Hwin.
  - simpl. split; [done|]. unfold chainCountOf. by rewrite Hold.
  - simpl in Hpost. destruct Hwin as [Hnear Hrest].
    destruct (loopGuard_other_bot (botId client) (now env) ch m chains Hpost)
      as (chain & Hstep & _ & Hact & Hmono & _).
    specialize (Hmono old Hold Hnear).
    assert (Hstop : (loopGuard (botId client) (now env) m chains).2 = true).
    { rewrite Hstep. simpl. apply Z.leb_le. lia. }
    assert (Htable : (shouldRespond client env m chains).1
                     = <[ch := chain]> chains).
    { rewrite GuardProofs.shouldRespond_table by apply Hpost. by rewrite Hstep. }
    rewrite runEvents_cons. simpl.
    rewrite (GuardProofs.shouldRespond_stop _ _ _ _ Hstop), Htable.
    destruct (IH (<[ch := chain]> chains) chain) as [Hv Hc].
    + apply lookup_insert_eq.
    + lia.
    + by rewrite Hact.
    + split; [by rewrite Hv|done].
Qed.

Lemma tripped_guard_stays_witness :
  (runEvents self
     [(at_time 2000, post "m5" MessageType_Default botA guildChannel "a" 2000);
      (at_time 500000, post "m6" MessageType_Default botA guildChannel "a" 500000)]
     {["c1" := {| chainCount := 3; lastBotId := "202";
                  lastActivity := 1000 |}]}).2
  = [Return false; Return false] /\
  3 <= chainCountOf
         (runEvents self
            [(at_time 2000, post "m5" MessageType_Default botA guildChannel "a" 2000);
             (at_time 500000, post "m6" MessageType_Default botA guildChannel "a" 500000)]
            {["c1" := {| chainCount := 3; lastBotId := "202";
                         lastActivity := 1000 |}]}).1 "c1".
Proof.
  apply (tripped_guard_stays self "c1"
           [(at_time 2000,
             post "m5" MessageType_Default botA guildChannel "a" 2000);
            (at_time 500000,
             post "m6" MessageType_Default botA guildChannel "a" 500000)]
           {| chainCount := 3; lastBotId := "202"; lastActivity := 1000 |}).
  - reflexivity.
  - simpl. lia.
  - repeat constructor; discriminate.
  - simpl. lia.
Defined.

(** X4. Deciding about a message changes the chain entry of the channel
    of that message at most: the entry of every other channel is what it
    was. *)
Theorem guard_touches_one_channel client env m other
    (chains : gmap string BotConversationChain) :
  other <> channel_id (channel m) ->
  (shouldRespond client env m chains).1 !! other = chains !! other.
Proof.
  intros Hother.
  assert (Hguard : (loopGuard (botId client) (now env) m chains).1 !! other
                   = chains !! other).
  { unfold loopGuard. destruct (bot (author m)); [|done].
    case_bool_decide; [done|]. simpl. by rewrite lookup_insert_ne. }
  destruct (isStandardType (type m)) eqn:Hty.
  - by rewrite GuardProofs.shouldRespond_table.
  - unfold shouldRespond. by rewrite Hty.
Qed.

Lemma guard_touches_one_channel_witness :
  (shouldRespond self (at_time 5000)
     (post "m1" MessageType_Default botA guildChannel "ping" 5000)
     {["c9" := {| chainCount := 2; lastBotId := "202";
                  lastActivity := 4000 |}]}).1 !! "c9"
  = ({["c9" := {| chainCount := 2; lastBotId := "202"; lastActivity := 4000 |}]}
     : gmap string BotConversationChain) !! "c9".
Proof. apply guard_touches_one_channel. discriminate. Defined.

(** X5. The decision is yes only for a message of ordinary type that is
    not the bot's own, whose chain count (for a message of a bot) is below
    3, in a channel where the bot holds its permissions unless it is a
    direct message, that mentions nobody or mentions the bot, and, in a
    thread, only where the bot is a member and can send. *)
Theorem responds_only_when_allowed client env m
    (chains : gmap string BotConversationChain) :
  (shouldRespond client env m chains).2 = Return true ->
  isStandardType (type m) = true /\
  ~ (bot (author m) = true /\ user_id (author m) = botId client) /\
  (bot (author m) = true ->
   chainCountOf (shouldRespond client env m chains).1 (channel_id (channel m))
   < 3) /\
  (isDMBased (channel m) = false -> permitted (channel m)) /\
  (hasAnyMention (mentions m) = true -> botId client ∈ users (mentions m)) /\
  (isThread (channel m) = true ->
   sendable (channel m) = true /\ joined (channel m) = true).
Proof.
  intros Hyes.
  destruct (isStandardType (type m)) eqn:Hty;
    [|by unfold shouldRespond in Hyes; rewrite Hty in Hyes].
  pose proof (GuardProofs.shouldRespond_table client env m chains Hty) as Htab.
  destruct (loopGuard (botId client) (now env) m chains) as [table stop] eqn:Hg.
  destruct stop;
    [by rewrite (GuardProofs.shouldRespond_stop client env m chains) in Hyes
       by (by rewrite Hg)|].
  simpl in Htab.
  unfold shouldRespond in Hyes. rewrite Hty, Hg in Hyes. simpl in Hyes.
  split; [done|]. split; [|split].
  - intros [Hbot Hown]. unfold loopGuard in Hg. rewrite Hbot in Hg.
    rewrite bool_decide_eq_true_2 in Hg by done. by inversion Hg.
  - intros Hbot. rewrite Htab. unfold loopGuard in Hg. rewrite Hbot in Hg.
    case_bool_decide; [by inversion Hg|]. injection Hg as Ht Hs.
    rewrite <- Ht. unfold chainCountOf. rewrite lookup_insert_eq. simpl.
    apply Z.leb_gt. exact Hs.
  - destruct (isDMBased (channel m)) eqn:Hdm; simpl in Hyes.
    + split; [done|]. revert Hyes.
      destruct (hasAnyMention _) eqn:Hany; simpl.
      * case_bool_decide; simpl; [|done]. intros Hyes.
        split; [done|]. destruct (isThread _); [|done].
        intros _. simpl in Hyes. injection Hyes as Hsj.
        by apply andb_true_iff in Hsj.
      * intros Hyes. split; [done|]. destruct (isThread _); [|done].
        intros _. simpl in Hyes. injection Hyes as Hsj.
        by apply andb_true_iff in Hsj.
    + destruct (permissionsFor (channel m)) as [perms|] eqn:Hperm; [|done].
      destruct (has perms _) eqn:Hhas; [|done]. simpl in Hyes.
      split; [intros _; exists perms; by split|]. revert Hyes.
      destruct (hasAnyMention _) eqn:Hany; simpl.
      * case_bool_decide; simpl; [|done]. intros Hyes.
        split; [done|]. destruct (isThread _); [|done].
        intros _. simpl in Hyes. injection Hyes as Hsj.
        by apply andb_true_iff in Hsj.
      * intros Hyes. split; [done|]. destruct (isThread _); [|done].
        intros _. simpl in Hyes. injection Hyes as Hsj.
        by apply andb_true_iff in Hsj.
Qed.

Lemma responds_only_when_allowed_witness :
  isStandardType (type (ask "m1" guildChannel 9000)) = true /\
  ~ (bot (author (ask "m1" guildChannel 9000)) = true
     /\ user_id (author (ask "m1" guildChannel 9000)) = botId self) /\
  (bot (author (ask "m1" guildChannel 9000)) = true ->
   chainCountOf
     (shouldRespond self (at_time 10000) (ask "m1" guildChannel 9000) ∅).1
     (channel_id (channel (ask "m1" guildChannel 9000))) < 3) /\
  (isDMBased (channel (ask "m1" guildChannel 9000)) = false ->
   permitted (channel (ask "m1" guildChannel 9000))) /\
  (hasAnyMention (mentions (ask "m1" guildChannel 9000)) = true ->
   botId self ∈ users (mentions (ask "m1" guildChannel 9000))) /\
  (isThread (channel (ask "m1" guildChannel 9000)) = true ->
   sendable (channel (ask "m1" guildChannel 9000)) = true
   /\ joined (channel (ask "m1" guildChannel 9000)) = true).
Proof.
  apply (responds_only_when_allowed self (at_time 10000)
           (ask "m1" guildChannel 9000) ∅).
  reflexivity.
Defined.

(** X6. The decision is yes for every message of ordinary type that the
    loop guard lets pass, outside threads, in a direct message or a
    channel where the bot holds its permissions, that mentions nobody
    else without the bot, as soon as the bot answers everything
    ([respondTo] is "dynamic"), or the channel is a direct message, or the
    bot is mentioned. *)
Theorem responds_when_addressed client env m
    (chains : gmap string BotConversationChain) :
  isStandardType (type m) = true ->
  (loopGuard (botId client) (now env) m chains).2 = false ->
  isDMBased (channel m) = true \/ permitted (channel m) ->
  (hasAnyMention (mentions m) = true -> botId client ∈ users (mentions m)) ->
  isThread (channel m) = false ->
  respondTo (botConfig client) = Some "dynamic"
  \/ isDMBased (channel m) = true
  \/ botId client ∈ users (mentions m) ->
  (shouldRespond client env m chains).2 = Return true.
Proof.
  intros Hty Hpass Hperm Hmention Hthread Hwhy.
  unfold shouldRespond. rewrite Hty. simpl.
  destruct (loopGuard (botId client) (now env) m chains) as [table stop].
  simpl in Hpass. subst stop.
  assert (negb (isDMBased (channel m))
          && match permissionsFor (channel m) with
             | Some perms =>
                 negb (has perms [ViewChannel; SendMessages; ReadMessageHistory])
             | None => true
             end = false) as ->.
  { destruct Hperm as [->|(perms & -> & ->)]; [done|].
    by rewrite andb_false_r. }
  assert (hasAnyMention (mentions m)
          && negb (bool_decide (botId client ∈ users (mentions m)))
          = false) as ->.
  { destruct (hasAnyMention (mentions m)); [|done].
    by rewrite bool_decide_eq_true_2 by auto. }
  rewrite Hthread.
  assert (bool_decide (respondTo (botConfig client) = Some "dynamic")
          || isDMBased (channel m)
          || bool_decide (botId client ∈ users (mentions m)) = true) as ->.
  { destruct Hwhy as [Hdyn|[Hdm|Hin]].
    - by rewrite bool_decide_eq_true_2.
    - rewrite Hdm. by rewrite orb_true_r.
    - rewrite (bool_decide_eq_true_2 (_ ∈ _)) by done.
      by rewrite orb_true_r. }
  done.
Qed.

Lemma responds_when_addressed_witness :
  (shouldRespond self (at_time 10000) (ask "m1" guildChannel 9000) ∅).2
  = Return true.
Proof.
  apply responds_when_addressed.
  - reflexivity.
  - reflexivity.
  - right. exists (Z.lor ViewChannel (Z.lor SendMessages ReadMessageHistory)).
    split; reflexivity.
  - intros _. simpl. by apply elem_of_singleton.
  - reflexivity.
  - right. right. simpl. by apply elem_of_singleton.
Defined.

End PolicyProofs.

(** ** More on the inference client *)
Module ClientProofs.
Import LlmAPI ClientSpec Samples.

(** For an empty conversation [callLLM] throws the fixed message
    "Failed to get response from LLM" whatever the endpoint would do: no
    request is made, and the message "Conversation array cannot be empty"
    of the error thrown first does not leave [callLLM]. *)
Theorem empty_conversation_rejected stringify endpoint botConfig sessionId :
  postedRequest botConfig [] sessionId = None /\
  callLLM_try stringify endpoint botConfig [] sessionId
  = inl (JsError "Conversation array cannot be empty") /\
  callLLM stringify endpoint botConfig [] sessionId
  = Throw "Failed to get response from LLM".
Proof. repeat split. Qed.

(** X7. What [callLLM] makes of an answer with status 200. A body that
    is a string is the reply as it stands; an object without [success] is
    the reply in its [JSON.stringify] rendering; with [success: true] a
    string [reply] becomes the content of the reply, a structured
    [reply] is passed on unchanged, and a missing [reply] gives a success
    without payload; [success: false] and a [null] body throw the fixed
    message. *)
Theorem status_200_classified stringify endpoint botConfig first rest
    sessionId d :
  endpoint (buildRequest botConfig (first :: rest) first sessionId)
  = Answered {| status := 200; data := d |} ->
  callLLM stringify endpoint botConfig (first :: rest) sessionId
  = match d with
    | DataNull => Throw "Failed to get response from LLM"
    | DataString s =>
        Return (Success (Some {| options_content := Some s;
                                 options_embeds := [] |}))
    | DataObject o =>
        match success o, reply o with
        | None, _ =>
            Return (Success (Some {| options_content := Some (stringify o);
                                     options_embeds := [] |}))
        | Some false, _ => Throw "Failed to get response from LLM"
        | Some true, Some (ReplyString s) =>
            Return (Success (Some {| options_content := Some s;
                                     options_embeds := [] |}))
        | Some true, Some (ReplyOptions options) =>
            Return (Success (Some options))
        | Some true, None => Return (Success None)
        end
    end.
Proof.
  intros Hex.
  rewrite (LlmProofs.callLLM_resolved stringify endpoint botConfig first rest
             sessionId _ Hex) by (simpl; lia).
  simpl. destruct d as [|s|o]; simpl; [done..|].
  destruct (success o) as [[|]|]; simpl; [|done..].
  by destruct (reply o) as [[s|options]|].
Qed.

Lemma status_200_classified_witness :
  callLLM stringify
    (answering 200
       (DataObject {| success := Some true; reply := Some (ReplyString "hi");
                      stop_reason := None; error := None |}))
    config [hello] "s"
  = Return (Success (Some {| options_content := Some "hi";
                             options_embeds := [] |})).
Proof.
  apply (status_200_classified stringify
           (answering 200
              (DataObject {| success := Some true;
                             reply := Some (ReplyString "hi");
                             stop_reason := None; error := None |}))
           config hello [] "s"
           (DataObject {| success := Some true;
                          reply := Some (ReplyString "hi");
                          stop_reason := None; error := None |})).
  reflexivity.
Defined.

(** X8. Custom fields always win: a key of [customFields] appears in the
    request body with the custom value, also when the key is [message] or
    [conversation]. *)
Theorem custom_fields_win botConfig conversation first key value :
  customFields botConfig !! key = Some value ->
  requestBody botConfig conversation first !! key = Some (BodyJson value).
Proof.
  intros Hcustom. unfold requestBody.
  case_bool_decide; apply lookup_union_Some_l; by rewrite lookup_fmap, Hcustom.
Qed.

Lemma custom_fields_win_witness :
  requestBody
    {| id := "1"; discordBotToken := "token"; inferUrl := "https://llm/infer";
       apiKey := None; sessionHeaderName := None; convLength := 0;
       respondTo := None; respondAsReply := false;
       customFields := {["message" := JStr "fixed"]} |}
    [hello] hello !! "message"
  = Some (BodyJson (JStr "fixed")).
Proof. apply custom_fields_win. reflexivity. Defined.

(** X9. With a history configured ([convLength] not 0) the body carries
    the whole conversation, as it was handed in, under [conversation];
    its keys are that key and the custom ones, so there is no [message]
    key unless a custom field has that name. *)
Theorem conversation_body botConfig conversation first :
  convLength botConfig <> 0%nat ->
  customFields botConfig !! "conversation" = None ->
  requestBody botConfig conversation first !! "conversation"
  = Some (BodyConversation conversation) /\
  dom (requestBody botConfig conversation first)
  = dom (customFields botConfig) ∪ {["conversation"]} /\
  requestBody botConfig conversation first !! "message"
  = BodyJson <$> customFields botConfig !! "message".
Proof.
  intros Hlen Hcustom. unfold requestBody.
  rewrite bool_decide_eq_false_2 by done. repeat split.
  - rewrite lookup_union_r by (by rewrite lookup_fmap, Hcustom).
    apply lookup_singleton_eq.
  - by rewrite dom_union_L, dom_fmap_L, dom_singleton_L.
  - rewrite lookup_union, lookup_fmap, lookup_singleton_ne by done.
    by destruct (customFields botConfig !! "message").
Qed.

Lemma conversation_body_witness :
  let cfg :=
    {| id := "2"; discordBotToken := "token"; inferUrl := "https://llm/infer";
       apiKey := None; sessionHeaderName := None; convLength := 30;
       respondTo := None; respondAsReply := false;
       customFields := {["share_code" := JStr "abc"]} |} in
  requestBody cfg [hello] hello !! "conversation"
  = Some (BodyConversation [hello]) /\
  dom (requestBody cfg [hello] hello)
  = dom (customFields cfg) ∪ {["conversation"]} /\
  requestBody cfg [hello] hello !! "message"
  = BodyJson <$> customFields cfg !! "message".
Proof.
  apply conversation_body; [discriminate|reflexivity].
Defined.

(** X10. The headers of a request. A configured session header carries
    the session id. Unless the session header takes its name,
    [Authorization] is "Bearer " followed by the API key, and by the word
    "undefined" when no key is configured; likewise [Content-Type] is
    "application/json". Without a session header name (none, or the empty
    string) these two are all the headers. *)
Theorem request_headers botConfig sessionId :
  (forall name,
      sessionHeaderName botConfig = Some name -> name <> "" ->
      requestHeaders botConfig sessionId !! name = Some sessionId) /\
  (sessionHeaderName botConfig <> Some "Authorization" ->
   requestHeaders botConfig sessionId !! "Authorization"
   = Some ("Bearer " +:+ default "undefined" (apiKey botConfig))) /\
  (sessionHeaderName botConfig <> Some "Content-Type" ->
   requestHeaders botConfig sessionId !! "Content-Type"
   = Some "application/json") /\
  (sessionHeaderName botConfig = None \/ sessionHeaderName botConfig = Some "" ->
   dom (requestHeaders botConfig sessionId)
   = {["Authorization"; "Content-Type"]}).
Proof.
  unfold requestHeaders. repeat split.
  - intros name -> Hname. unfold truthy.
    rewrite bool_decide_eq_false_2 by done. simpl.
    apply lookup_union_Some_l. apply lookup_singleton_eq.
  - intros Hname. rewrite lookup_union_r.
    + by rewrite lookup_insert_eq.
    + destruct (sessionHeaderName botConfig) as [name|]; [|done].
      destruct (truthy name); [|done].
      apply lookup_singleton_ne. congruence.
  - intros Hname. rewrite lookup_union_r.
    + rewrite lookup_insert_ne by done. apply lookup_singleton_eq.
    + destruct (sessionHeaderName botConfig) as [name|]; [|done].
      destruct (truthy name); [|done].
      apply lookup_singleton_ne. congruence.
  - intros [-> | ->]; simpl; rewrite (left_id_L ∅ (∪));
      by rewrite dom_insert_L, dom_singleton_L.
Qed.

End ClientProofs.

(** ** More on the orchestrator *)
Module OrchestratorMoreProofs.
Import LlmAPI Orchestrator Handlers ClientSpec CacheSpec OrchestratorSpec Samples.

(** *** Mentions *)

Lemma scan_idle_plain nameMap pre rest :
  lacks "<" pre = true ->
  scan nameMap Idle (pre +:+ rest) = pre +:+ scan nameMap Idle rest.
Proof.
  induction pre as [|c pre IH]; [done|]. intros H. cbn [lacks] in H.
  apply andb_true_iff in H as [Hc Hpre]. apply negb_true_iff in Hc.
  rewrite Ascii.eqb_sym in Hc.
  change (String c pre +:+ rest) with (String c (pre +:+ rest)).
  cbn [scan step]. unfold restart. rewrite Hc.
  rewrite IH by done. reflexivity.
Qed.

(** X11. A text without the character [<] is left as it is by the
    mention rewriting, whatever the name map holds. *)
Theorem replaceMentions_plain nameMap text :
  lacks "<" text = true -> replaceMentions nameMap text = text.
Proof.
  intros H. unfold replaceMentions.
  assert (Hsplit : text = text +:+ "").
  { clear H. induction text as [|c t IH]; [reflexivity|].
    change (String c t +:+ "") with (String c (t +:+ "")). by rewrite <- IH. }
  rewrite Hsplit at 1. rewrite scan_idle_plain by done. simpl.
  by rewrite <- Hsplit.
Qed.

Lemma replaceMentions_plain_witness :
  replaceMentions {["100" := "Alice"]} "hello @100 > all"
  = "hello @100 > all".
Proof. apply replaceMentions_plain. reflexivity. Defined.

Lemma append_assoc_string (a b c : string) :
  (a +:+ b) +:+ c = a +:+ (b +:+ c).
Proof.
  induction a as [|x a IH]; [reflexivity|].
  change (String x ((a +:+ b) +:+ c) = String x (a +:+ (b +:+ c))).
  by rewrite IH.
Qed.

Lemma scan_digits nameMap bang acc digits rest :
  allDigits digits = true ->
  scan nameMap (InDigits bang acc) (digits +:+ rest)
  = scan nameMap (InDigits bang (acc +:+ digits)) rest.
Proof.
  revert acc. induction digits as [|d digits IH]; intros acc H.
  - assert (acc +:+ "" = acc) as ->; [|done].
    induction acc as [|x acc IHacc]; [reflexivity|].
    change (String x (acc +:+ "") = String x acc). by rewrite IHacc.
  - cbn [allDigits] in H. apply andb_true_iff in H as [Hd Hrest].
    change (String d digits +:+ rest) with (String d (digits +:+ rest)).
    cbn [scan step]. rewrite Hd.
    change ("" +:+ scan nameMap (InDigits bang (acc +:+ String d ""))
                     (digits +:+ rest))
      with (scan nameMap (InDigits bang (acc +:+ String d ""))
              (digits +:+ rest)).
    rewrite IH by done. by rewrite append_assoc_string.
Qed.

Lemma scan_first_digit nameMap bang d rest :
  isDigit d = true ->
  scan nameMap (SeenAt bang) (String d rest)
  = scan nameMap (InDigits bang (String d "")) rest.
Proof. intros H. cbn [scan step]. by rewrite H. Qed.

(** X12. One mention after plain text. The mention [<@id>], or
    [<@!id>], with [id] a non-empty run of digits, is replaced by the
    name the map has for [id]; for an id the map does not know it is
    written back as [<@id>], so that the exclamation mark of [<@!id>] is
    dropped. The text in front of it, free of [<], is kept, and the
    rewriting goes on behind the closing [>]. *)
Theorem replaceMentions_one nameMap pre (bang : bool) d digits post :
  lacks "<" pre = true ->
  isDigit d = true -> allDigits digits = true ->
  replaceMentions nameMap
    (pre +:+ "<@" +:+ (if bang then "!" else "") +:+ String d digits
         +:+ ">" +:+ post)
  = pre +:+ default ("<@" +:+ String d digits +:+ ">")
                    (nameMap !! String d digits)
        +:+ replaceMentions nameMap post.
Proof.
  intros Hpre Hd Hdigits. unfold replaceMentions.
  rewrite scan_idle_plain by done. f_equal.
  assert (Hopen : forall rest,
             scan nameMap Idle ("<@" +:+ (if bang then "!" else "") +:+ rest)
             = scan nameMap (SeenAt bang) rest).
  { intros rest. by destruct bang. }
  rewrite Hopen.
  change (String d digits +:+ ">" +:+ post)
    with (String d (digits +:+ ">" +:+ post)).
  rewrite scan_first_digit by done.
  rewrite scan_digits by done.
  reflexivity.
Qed.

Lemma replaceMentions_one_witness :
  replaceMentions {["100" := "Alice"]} "hi <@!100>, and <@!999>"
  = "hi Alice, and <@999>".
Proof.
  rewrite (replaceMentions_one {["100" := "Alice"]} "hi " true "1" "00"
             ", and <@!999>") by reflexivity.
  reflexivity.
Defined.

(** *** The conversation fetched *)

Lemma insertByTime_perm m l : insertByTime m l ≡ₚ m :: l.
Proof.
  induction l as [|x l IH]; [done|]. simpl.
  destruct (createdTimestamp x <=? createdTimestamp m); [|done].
  rewrite IH. apply perm_swap.
Qed.

Lemma insertByTime_head x m l :
  HdRel olderOrSame x l -> olderOrSame x m ->
  HdRel olderOrSame x (insertByTime m l).
Proof.
  intros Hl Hm. destruct l as [|y l]; simpl; [by constructor|].
  inversion Hl; subst.
  destruct (createdTimestamp y <=? createdTimestamp m); by constructor.
Qed.

Lemma insertByTime_sorted m l :
  Sorted olderOrSame l -> Sorted olderOrSame (insertByTime m l).
Proof.
  induction l as [|x l IH]; intros Hs; simpl.
  - by repeat constructor.
  - inversion Hs as [|? ? Hrest Hhd]; subst.
    destruct (createdTimestamp x <=? createdTimestamp m) eqn:Hcmp.
    + constructor; [by apply IH|].
      apply insertByTime_head; [done|]. unfold olderOrSame. lia.
    + constructor; [done|]. constructor. unfold olderOrSame. lia.
Qed.

Lemma sort_fold l acc :
  Sorted olderOrSame acc ->
  fold_left (fun acc m => insertByTime m acc) l acc ≡ₚ l ++ acc /\
  Sorted olderOrSame (fold_left (fun acc m => insertByTime m acc) l acc).
Proof.
  revert acc. induction l as [|m l IH]; intros acc Hacc; [done|]. simpl.
  destruct (IH (insertByTime m acc) (insertByTime_sorted m acc Hacc))
    as [Hperm Hsorted].
  split; [|done]. rewrite Hperm, insertByTime_perm.
  by rewrite Permutation_middle.
Qed.

(** X13. The history is put in order of time: the sorted list holds the
    fetched messages, each as often as it was fetched, and no message
    comes before an older one. *)
Theorem history_in_time_order (l : list Message) :
  sortByTime l ≡ₚ l /\ Sorted olderOrSame (sortByTime l).
Proof.
  destruct (sort_fold l [] ltac:(constructor)) as [Hperm Hsorted].
  split; [|done]. by rewrite app_nil_r in Hperm.
Qed.

(** X14. What is fetched, in general: the topic line if the channel has
    a topic, then the history in order of time, then the triggering
    message unless the bot wrote it, all but the topic line rendered with
    one name map. Without a history limit no history is asked for. *)
Theorem conversation_shape w botId message limit fetched :
  fetchConversationFromDiscord w botId message limit = Return fetched ->
  exists history nameMap,
    (if bool_decide (limit = 0%nat) then history = []
     else fetchMessages w (channel_id (channel message)) limit
            (message_id message) = Return history) /\
    fetched
    = (topicLines w (channel message)
       ++ map (formatMessage nameMap)
            (sortByTime history
             ++ (if bool_decide (user_id (author message) = botId)
                 then [] else [message])))%list.
Proof.
  unfold fetchConversationFromDiscord. intros H.
  assert (exists history,
    (if bool_decide (limit = 0%nat) then history = []
     else fetchMessages w (channel_id (channel message)) limit
            (message_id message) = Return history) /\
    (if bool_decide (limit = 0%nat) then Return []
     else andThen (fetchMessages w (channel_id (channel message)) limit
                     (message_id message))
                  (fun fetched => Return (sortByTime fetched)))
    = Return (sortByTime history)) as (history & Hhist & Hsorted).
  { case_bool_decide.
    - by exists [].
    - destruct (fetchMessages w _ _ _) as [history|e] eqn:Hf; [|done].
      by exists history. }
  rewrite Hsorted in H. simpl in H.
  destruct (awaitAll _) as [names|e] eqn:Hnames; [|done]. simpl in H.
  exists history.
  exists (list_to_map
            (zip (distinct
                    (map (fun msg : Message => user_id (author msg))
                       (if bool_decide (user_id (author message) = botId)
                        then sortByTime history
                        else (sortByTime history ++ [message])%list)))
               names)).
  split; [done|]. injection H as <-. unfold topicLines.
  assert ((if bool_decide (user_id (author message) = botId)
           then sortByTime history
           else (sortByTime history ++ [message])%list)
          = (sortByTime history
             ++ (if bool_decide (user_id (author message) = botId)
                 then [] else [message]))%list) as Hlist.
  { destruct (bool_decide (user_id (author message) = botId));
      [symmetry; apply app_nil_r|reflexivity]. }
  rewrite <- Hlist.
  by destruct (topic (channel message)) as [t|]; [destruct (truthy t)|].
Qed.

Lemma conversation_shape_witness :
  exists history nameMap,
    (if bool_decide (0%nat = 0%nat) then history = []
     else fetchMessages (world 10000 [] echo)
            (channel_id (channel (ask "m1" topicChannel 9000))) 0
            (message_id (ask "m1" topicChannel 9000)) = Return history) /\
    [{| timestamp := Some "2025-01-01T00:00:10.000Z";
        cm_username := "Channel Topic"; text := "Rules of the room" |};
     helloLine]
    = (topicLines (world 10000 [] echo) (channel (ask "m1" topicChannel 9000))
       ++ map (formatMessage nameMap)
            (sortByTime history
             ++ (if bool_decide
                      (user_id (author (ask "m1" topicChannel 9000)) = "200")
                 then [] else [ask "m1" topicChannel 9000])))%list.
Proof.
  apply (conversation_shape (world 10000 [] echo) "200"
           (ask "m1" topicChannel 9000) 0).
  reflexivity.
Defined.

(** Without a history limit, what is fetched for a message of the
    bot itself is the topic line alone, and nothing where the channel has
    no topic; for a message of anybody else it is the topic line and that
    message, under the display name of its author, and when that name
    cannot be had the fetch fails. *)
Theorem conversation_without_history w botId message :
  (user_id (author message) = botId ->
   fetchConversationFromDiscord w botId message 0
   = Return (topicLines w (channel message))) /\
  (user_id (author message) <> botId ->
   fetchConversationFromDiscord w botId message 0
   = match getDisplayName w (user_id (author message))
             (if isDMBased (channel message) then None
              else channel_guildId (channel message)) with
     | Return name =>
         Return (topicLines w (channel message)
                 ++ [formatMessage {[user_id (author message) := name]}
                       message])%list
     | Throw e => Throw e
     end).
Proof.
  unfold fetchConversationFromDiscord, topicLines. split; intros Hwho.
  - rewrite (bool_decide_eq_true_2 (_ = botId)) by done. simpl.
    by destruct (topic (channel message)) as [t|]; [destruct (truthy t)|].
  - rewrite (bool_decide_eq_false_2 (_ = botId)) by done. simpl.
    destruct (getDisplayName w _ _) as [name|e]; [|done]. simpl.
    rewrite insert_empty.
    by destruct (topic (channel message)) as [t|]; [destruct (truthy t)|].
Qed.

Lemma conversation_without_history_witness :
  fetchConversationFromDiscord (world 10000 [] echo) "200"
    (post "m2" MessageType_Default selfUser guildChannel "hi" 9500) 0
  = Return (topicLines (world 10000 [] echo) guildChannel).
Proof.
  apply (proj1 (conversation_without_history (world 10000 [] echo) "200"
                  (post "m2" MessageType_Default selfUser guildChannel "hi"
                     9500))).
  reflexivity.
Defined.

(** *** One run of the handler *)

(** The cache lookup leaves intervals and platform calls alone. *)
Lemma fetch_frame w botId message limit cacheDurationMs st :
  let st' :=
    (ephemeralFetchConversation w botId message limit cacheDurationMs st).1 in
  intervals st' = intervals st /\ nextInterval st' = nextInterval st /\
  done_ st' = done_ st.
Proof.
  unfold ephemeralFetchConversation.
  destruct (match channelCache st !! _ with Some _ => _ | None => None end);
    [done|].
  by destruct (fetchConversationFromDiscord _ _ _ _).
Qed.

(** X15. One run of [processConversation] posts at most once, and not
    before it has signalled typing. Either the run adds typing signals
    alone to the platform calls, or it adds exactly one post, which is the
    reply to the message of the user, the plain send to the channel, or
    the apology, and a typing signal for the channel was carried out
    before that post. Typing signals are left open otherwise. *)
Theorem one_run_posts_at_most_once w client message respondAsReply st :
  let result := processConversation w client message respondAsReply st in
  (exists typings,
      done_ result.1 = (typings ++ done_ st)%list /\ posts typings = [])
  \/ (exists userMessage post newer older,
         resolveUserMessage w (botId client) message = Some userMessage /\
         Delivers (channel_id (channel message)) (message_id userMessage)
           post /\
         done_ result.1 = (newer ++ post :: older ++ done_ st)%list /\
         posts newer = [] /\ posts older = [] /\
         SendTyping (channel_id (channel message)) ∈ older).
Proof.
  assert (Hquiet : forall done, exists typings : list Action,
             done = (typings ++ done)%list /\ posts typings = []).
  { intros done. by exists []. }
  assert (Htyped : forall done,
             exists typings : list Action,
               SendTyping (channel_id (channel message)) :: done
               = (typings ++ done)%list /\ posts typings = []).
  { intros done. by exists [SendTyping (channel_id (channel message))]. }
  cbv zeta. unfold processConversation.
  destruct (isSendable (channel message)); simpl; [|left; apply Hquiet].
  pose proof (fetch_frame w (botId client) message
                (convLength (botConfig client)) 5000 st) as (_ & _ & Hdone).
  destruct (ephemeralFetchConversation _ _ _ _ _ _) as [st1 [conversation|e]];
    simpl in Hdone; rewrite <- Hdone; [|left; apply Hquiet].
  unfold perform.
  destruct (accepts w (SendTyping _)); simpl; [|left; apply Hquiet].
  destruct (resolveUserMessage _ _ _) as [userMessage|] eqn:Huser;
    [|left; apply Htyped].
  destruct (getDisplayName _ _ _) as [botName|e]; [|left; apply Htyped].
  destruct (callLLM _ _ _ _ _) as [[reply|]|e];
    [|left; simpl; apply Htyped..].
  unfold deliver, perform. simpl.
  assert (Hposted : forall post,
             Delivers (channel_id (channel message)) (message_id userMessage)
               post ->
             exists userMessage' post' newer older,
               Some userMessage = Some userMessage' /\
               Delivers (channel_id (channel message))
                 (message_id userMessage') post' /\
               post :: SendTyping (channel_id (channel message)) :: done_ st1
               = (newer ++ post' :: older ++ done_ st1)%list /\
               posts newer = [] /\ posts older = [] /\
               SendTyping (channel_id (channel message)) ∈ older).
  { intros post Hpost.
    exists userMessage, post, [], [SendTyping (channel_id (channel message))].
    repeat split; [done|]. apply list_elem_of_here. }
  destruct respondAsReply.
  - destruct (accepts w (ReplyTo _ _)); simpl.
    + right. apply Hposted. constructor.
    + destruct (accepts w (ReplyText _ _)); simpl.
      * right. apply Hposted. constructor.
      * left. apply Htyped.
  - destruct (accepts w (Send _ _)); simpl.
    + right. apply Hposted. constructor.
    + destruct (accepts w (ReplyText _ _)); simpl.
      * right. apply Hposted. constructor.
      * left. apply Htyped.
Qed.

(** X16. A rate limit is dropped in silence: when the inference client
    reports [rate_limited], the handler returns normally and the run has
    posted nothing, typing signals apart. *)
Theorem rate_limit_dropped_silently w client message respondAsReply st
    st1 conversation userMessage botName :
  isSendable (channel message) = true ->
  ephemeralFetchConversation w (botId client) message
    (convLength (botConfig client)) 5000 st = (st1, Return conversation) ->
  accepts w (SendTyping (channel_id (channel message))) = true ->
  resolveUserMessage w (botId client) message = Some userMessage ->
  getDisplayName w (botId client) (guildId message) = Return botName ->
  callLLM (JSON_stringify w) (endpoint w) (botConfig client)
    (items conversation)
    (Session.sessionId
       (Session.sessionData (botId client) botName
          (user_id (author userMessage)) (channel message)))
  = Return RateLimited ->
  (processConversation w client message respondAsReply st).2 = Return tt /\
  posts (done_ (processConversation w client message respondAsReply st).1)
  = posts (done_ st).
Proof.
  intros Hsend Hfetch Htyping Huser Hname Hllm.
  pose proof (fetch_frame w (botId client) message
                (convLength (botConfig client)) 5000 st) as (_ & _ & Hdone).
  rewrite Hfetch in Hdone. simpl in Hdone.
  unfold processConversation. rewrite Hsend, Hfetch. simpl.
  unfold perform. rewrite Htyping. simpl.
  rewrite Huser, Hname, Hllm. simpl. by rewrite Hdone.
Qed.

Lemma rate_limit_dropped_silently_witness :
  (processConversation (world 10000 [] (answering 429 DataNull)) self
     (ask "m1" guildChannel 9000) true idle).2 = Return tt /\
  posts (done_ (processConversation (world 10000 [] (answering 429 DataNull))
                  self (ask "m1" guildChannel 9000) true idle).1)
  = posts (done_ idle).
Proof.
  eapply (rate_limit_dropped_silently
            (world 10000 [] (answering 429 DataNull)) self
            (ask "m1" guildChannel 9000) true idle);
    reflexivity.
Defined.

(** X17. Regenerating without history. The bot has no history
    configured, the message handed in is its own, the channel has no
    topic and no conversation younger than five seconds is cached: the
    conversation fetched is empty, so with a message of a user found and
    the name of the bot had, the run ends in the error "Failed to get
    response from LLM" and has posted nothing, typing signals apart. *)
Theorem regeneration_without_history_fails w client message respondAsReply st
    userMessage botName :
  convLength (botConfig client) = 0%nat ->
  user_id (author message) = botId client ->
  topic (channel message) = None ->
  (forall cached,
      channelCache st !! channel_id (channel message) = Some cached ->
      5000 <= now w - lastFetchTime cached) ->
  isSendable (channel message) = true ->
  accepts w (SendTyping (channel_id (channel message))) = true ->
  resolveUserMessage w (botId client) message = Some userMessage ->
  getDisplayName w (botId client) (guildId message) = Return botName ->
  let result := processConversation w client message respondAsReply st in
  result.2 = Throw "Failed to get response from LLM" /\
  posts (done_ result.1) = posts (done_ st).
Proof.
  intros Hlen Hown Htopic Hstale Hsend Htyping Huser Hname result.
  pose proof (proj1 (conversation_without_history w (botId client) message)
                Hown) as Hfetch.
  unfold topicLines in Hfetch. rewrite Htopic in Hfetch.
  destruct (OrchestratorProofs.cache_miss w (botId client) message 0 5000 st []
              Hstale ltac:(lia) Hfetch) as (Hr & _ & _).
  pose proof (fetch_frame w (botId client) message 0 5000 st)
    as (_ & _ & Hdone).
  subst result. unfold processConversation. rewrite Hlen, Hsend.
  destruct (ephemeralFetchConversation w (botId client) message 0 5000 st)
    as [st1 outcome]. simpl in Hr, Hdone. subst outcome. simpl.
  unfold perform. rewrite Htyping. simpl. rewrite Huser, Hname. simpl.
  by rewrite Hdone.
Qed.

Lemma regeneration_without_history_fails_witness :
  let result :=
    processConversation (ReactionSamples.remembering 10000 echo) self
      ReactionSamples.botReply true idle in
  result.2 = Throw "Failed to get response from LLM" /\
  posts (done_ result.1) = posts (done_ idle).
Proof.
  eapply (regeneration_without_history_fails
            (ReactionSamples.remembering 10000 echo) self
            ReactionSamples.botReply true idle).
  - reflexivity.
  - reflexivity.
  - reflexivity.
  - intros cached Hlook. discriminate Hlook.
  - reflexivity.
  - reflexivity.
  - reflexivity.
  - reflexivity.
Defined.

Lemma perform_frame w action st :
  intervals (perform w action st).1 = intervals st /\
  nextInterval (perform w action st).1 = nextInterval st.
Proof. unfold perform. by destruct (accepts w action). Qed.

Lemma deliver_frame w channel userMessage respondAsReply reply handle st :
  let st' := (deliver w channel userMessage respondAsReply reply handle st).1 in
  intervals st' = intervals st ∖ {[handle]} /\
  nextInterval st' = nextInterval st.
Proof.
  unfold deliver, perform.
  destruct (accepts w (if respondAsReply then _ else _)); simpl; [done|].
  by destruct (accepts w (ReplyText _ _)).
Qed.

(** X18. A run of [processConversation] leaves the intervals of other
    runs alone. If every running interval has a handle below the next one
    to be handed out, this is so after the run as well, every interval
    that was running before is still running, and handles are never
    handed out twice. *)
Theorem other_intervals_untouched w client message respondAsReply st :
  handlesFresh st ->
  let st' := (processConversation w client message respondAsReply st).1 in
  handlesFresh st' /\
  intervals st ⊆ intervals st' /\
  (nextInterval st <= nextInterval st')%nat.
Proof.
  intros Hfresh.
  assert (Hstarted : forall s : State,
             intervals s = intervals st -> nextInterval s = nextInterval st ->
             handlesFresh (setInterval s).1 /\
             intervals st ⊆ intervals (setInterval s).1 /\
             (nextInterval st <= nextInterval (setInterval s).1)%nat).
  { intros s Hi Hn. unfold handlesFresh. simpl. rewrite Hi, Hn.
    repeat split.
    - intros handle [->%elem_of_singleton|Hin]%elem_of_union; [lia|].
      specialize (Hfresh handle Hin). lia.
    - intros handle Hin. by apply elem_of_union_r.
    - lia. }
  pose proof (fetch_frame w (botId client) message
                (convLength (botConfig client)) 5000 st) as (Hi & Hn & _).
  assert (Hsame : forall s : State,
             intervals s = intervals st -> nextInterval s = nextInterval st ->
             handlesFresh s /\ intervals st ⊆ intervals s /\
             (nextInterval st <= nextInterval s)%nat).
  { intros s Hsi Hsn. unfold handlesFresh. rewrite Hsi, Hsn.
    split; [exact Hfresh|]. split; [reflexivity|lia]. }
  unfold processConversation.
  destruct (isSendable (channel message)); simpl; [|by apply Hsame].
  destruct (ephemeralFetchConversation _ _ _ _ _ _) as [st1 [conversation|e]];
    simpl in Hi, Hn; [|by apply Hsame].
  pose proof (perform_frame w (SendTyping (channel_id (channel message))) st1)
    as [Hpi Hpn].
  destruct (perform w (SendTyping _) st1) as [typed typing].
  simpl in Hpi, Hpn. rewrite Hi in Hpi. rewrite Hn in Hpn.
  destruct typing; simpl; [|by apply Hsame].
  destruct (Hstarted typed Hpi Hpn) as (Hf & Hsub & Hle).
  destruct (resolveUserMessage _ _ _) as [userMessage|]; [|done].
  destruct (getDisplayName _ _ _) as [botName|e]; [|done].
  destruct (callLLM _ _ _ _ _) as [[reply|]|e]; [|done..].
  destruct (deliver_frame w (channel message) userMessage respondAsReply reply
              (nextInterval typed) (setInterval typed).1) as [Hdi Hdn].
  unfold handlesFresh. simpl in Hdi, Hdn |- *. rewrite Hdi, Hdn, Hpi, Hpn.
  repeat split.
  - intros handle [Hin _]%elem_of_difference.
    apply elem_of_union in Hin as [->%elem_of_singleton|Hin]; [lia|].
    specialize (Hfresh handle Hin). lia.
  - intros handle Hin. apply elem_of_difference. split.
    + by apply elem_of_union_r.
    + intros ->%elem_of_singleton. specialize (Hfresh _ Hin). lia.
  - lia.
Qed.

Lemma other_intervals_untouched_witness :
  let busy :=
    {| channelCache := ∅; upstreamFetches := 0; intervals := {[3%nat]};
       nextInterval := 4; done_ := [] |} in
  let st' :=
    (processConversation (world 10000 [] echo) self (ask "m1" guildChannel 9000)
       true busy).1 in
  handlesFresh st' /\ intervals busy ⊆ intervals st'
  /\ (nextInterval busy <= nextInterval st')%nat.
Proof.
  apply (other_intervals_untouched (world 10000 [] echo) self
           (ask "m1" guildChannel 9000) true).
  intros handle Hin. simpl in Hin. apply elem_of_singleton in Hin as ->.
  simpl. lia.
Defined.

(** *** The cache *)

(** X19. What a fetch that goes upstream does to the entries of other
    channels. While the cache, with the new entry in, holds at most 1000
    entries, they all stay. Beyond that, those fetched more than the cache
    duration ago are dropped and the others stay. *)
Theorem other_entries_on_miss w botId message limit cacheDurationMs st
    fetched key cached :
  (forall old,
      channelCache st !! channel_id (channel message) = Some old ->
      cacheDurationMs <= now w - lastFetchTime old) ->
  fetchConversationFromDiscord w botId message limit = Return fetched ->
  key <> channel_id (channel message) ->
  channelCache st !! key = Some cached ->
  channelCache
    (ephemeralFetchConversation w botId message limit cacheDurationMs st).1
    !! key
  = if bool_decide
         (1000 < size (<[channel_id (channel message) :=
                           {| lastFetchTime := now w;
                              messages :=
                                {| identity := S (upstreamFetches st);
                                   items := fetched |} |}]>
                         (channelCache st)))%nat
       && bool_decide (lastFetchTime cached < now w - cacheDurationMs)
    then None else Some cached.
Proof.
  intros Hstale Hfetch Hkey Hlook. unfold ephemeralFetchConversation.
  assert (match channelCache st !! channel_id (channel message) with
          | Some c =>
              if now w - lastFetchTime c <? cacheDurationMs
              then Some (messages c) else None
          | None => None
          end = None) as ->.
  { destruct (channelCache st !! _) as [old|] eqn:Hold; [|done].
    specialize (Hstale old eq_refl).
    by replace (now w - lastFetchTime old <? cacheDurationMs) with false
      by (symmetry; lia). }
  rewrite Hfetch. simpl.
  destruct (bool_decide (1000 < size _)%nat); simpl.
  - case_bool_decide as Hold.
    + apply map_lookup_filter_None. right. intros x.
      rewrite lookup_insert_ne by done. rewrite Hlook. intros [= <-].
      simpl. tauto.
    + apply map_lookup_filter_Some. rewrite lookup_insert_ne by done.
      split; [done|]. simpl. lia.
  - by rewrite lookup_insert_ne.
Qed.

Lemma other_entries_on_miss_witness :
  channelCache
    (ephemeralFetchConversation (world 9000 [] echo) "200"
       (ask "m1" topicChannel 8000) 0 5000 cachedAtZero).1 !! "c1"
  = if bool_decide
         (1000 < size (<["c3" :=
                           {| lastFetchTime := 9000;
                              messages :=
                                {| identity := 2;
                                   items :=
                                     [{| timestamp :=
                                           Some "2025-01-01T00:00:10.000Z";
                                         cm_username := "Channel Topic";
                                         text := "Rules of the room" |};
                                      helloLine] |} |}]>
                         (channelCache cachedAtZero)))%nat
       && bool_decide (0 < 9000 - 5000)
    then None
    else Some {| lastFetchTime := 0;
                 messages := {| identity := 1; items := [helloLine] |} |}.
Proof.
  apply (other_entries_on_miss (world 9000 [] echo) "200"
           (ask "m1" topicChannel 8000) 0 5000 cachedAtZero
           [{| timestamp := Some "2025-01-01T00:00:10.000Z";
               cm_username := "Channel Topic"; text := "Rules of the room" |};
            helloLine]
           "c1"
           {| lastFetchTime := 0;
              messages := {| identity := 1; items := [helloLine] |} |}).
  - intros old Hlook. discriminate Hlook.
  - reflexivity.
  - discriminate.
  - reflexivity.
Defined.

(** X20. The second of two fetches for a channel is served from the
    cache also when fetches for other channels came in between: after a
    fetch that went upstream, any number of fetches for other channels,
    none later than the cache duration after it, and then a fetch for the
    first channel less than the cache duration after it, that last fetch
    returns the array of the first and changes nothing. *)
Theorem cache_survives_other_channels w1 w2 botId m1 m2 limit
    cacheDurationMs st fetched calls :
  channel_id (channel m2) = channel_id (channel m1) ->
  (forall cached,
      channelCache st !! channel_id (channel m1) = Some cached ->
      cacheDurationMs <= now w1 - lastFetchTime cached) ->
  fetchConversationFromDiscord w1 botId m1 limit = Return fetched ->
  Forall (fun call : World * Message =>
            channel_id (channel call.2) <> channel_id (channel m1) /\
            now call.1 - now w1 <= cacheDurationMs) calls ->
  0 <= now w2 - now w1 < cacheDurationMs ->
  let first :=
    ephemeralFetchConversation w1 botId m1 limit cacheDurationMs st in
  let between := runFetches botId limit cacheDurationMs calls first.1 in
  ephemeralFetchConversation w2 botId m2 limit cacheDurationMs between
  = (between, first.2) /\
  first.2 = Return {| identity := S (upstreamFetches st); items := fetched |}.
Proof.
  intros Hch Hstale Hfetch Hcalls Hnear first between. split.
  - by apply (OrchestratorProofs.second_fetch_after_other_channels
                w1 w2 botId m1 m2 limit cacheDurationMs st fetched calls).
  - by destruct (OrchestratorProofs.cache_miss w1 botId m1 limit
                   cacheDurationMs st fetched Hstale ltac:(lia) Hfetch)
      as (Hr & _ & _).
Qed.

Lemma cache_survives_other_channels_witness :
  let first :=
    ephemeralFetchConversation (world 10000 [] echo) "200"
      (ask "m1" guildChannel 9000) 0 5000 idle in
  let between :=
    runFetches "200" 0 5000
      [(world 11000 [] echo, ask "m2" topicChannel 10500)] first.1 in
  ephemeralFetchConversation (world 12000 [] echo) "200"
    (ask "m3" guildChannel 11500) 0 5000 between
  = (between, first.2) /\
  first.2 = Return {| identity := S (upstreamFetches idle);
                      items := [helloLine] |}.
Proof.
  apply (cache_survives_other_channels
           (world 10000 [] echo) (world 12000 [] echo) "200"
           (ask "m1" guildChannel 9000) (ask "m3" guildChannel 11500) 0 5000
           idle [helloLine]
           [(world 11000 [] echo, ask "m2" topicChannel 10500)]).
  - reflexivity.
  - intros cached Hlook. discriminate Hlook.
  - reflexivity.
  - repeat constructor; [discriminate | simpl; lia].
  - simpl. lia.
Defined.

End OrchestratorMoreProofs.

(** ** Display names *)
Module DisplayNameProofs.
Import DisplayName NameSamples.

Lemma name_cache_hit p userId guildId st cached :
  clientReady p = true ->
  displayNameCache st !! cacheKey userId guildId = Some cached ->
  now p - lastFetchTime cached < DISPLAY_NAME_CACHE_DURATION ->
  getDisplayName p userId guildId st = (st, Return (displayName cached)).
Proof.
  intros Hready Hlook Hfresh. unfold getDisplayName.
  rewrite Hready, Hlook. simpl.
  by replace (now p - lastFetchTime cached <? DISPLAY_NAME_CACHE_DURATION)
    with true by (symmetry; lia).
Qed.

Lemma name_cache_miss p userId guildId st :
  clientReady p = true ->
  (forall cached,
      displayNameCache st !! cacheKey userId guildId = Some cached ->
      DISPLAY_NAME_CACHE_DURATION <= now p - lastFetchTime cached) ->
  getDisplayName p userId guildId st
  = match lookUp p userId guildId with
    | Return name =>
        let cache :=
          <[cacheKey userId guildId :=
              {| displayName := name; lastFetchTime := now p |}]>
            (displayNameCache st) in
        ({| displayNameCache :=
              if bool_decide (1000 < size cache)%nat
              then filter (fun kv : string * DisplayNameCacheEntry =>
                             ¬ (lastFetchTime kv.2
                                < now p - DISPLAY_NAME_CACHE_DURATION))
                          cache
              else cache;
            userFetches := S (userFetches st) |},
         Return name)
    | Throw _ =>
        ({| displayNameCache := displayNameCache st;
            userFetches := S (S (userFetches st)) |},
         match usersFetch p userId 1 with
         | Return user => Return (globalOrAccount user)
         | Throw e => Throw e
         end)
    end.
Proof.
  intros Hready Hstale. unfold getDisplayName. rewrite Hready. simpl.
  destruct (displayNameCache st !! cacheKey userId guildId) as [cached|]
    eqn:Hlook; [|done].
  specialize (Hstale cached eq_refl).
  by replace (now p - lastFetchTime cached <? DISPLAY_NAME_CACHE_DURATION)
    with false by (symmetry; lia).
Qed.

(** X21. A name that was looked up is served for an hour. When a call
    finds no entry younger than an hour and its lookup succeeds, the name
    is stored under the key of the user (and guild) with the time of the
    call; a later call for the same user and guild, less than an hour
    after, returns that name without fetching anything, whatever the
    platform would answer by then. *)
Theorem name_served_for_an_hour p1 p2 userId guildId st name :
  clientReady p1 = true -> clientReady p2 = true ->
  (forall cached,
      displayNameCache st !! cacheKey userId guildId = Some cached ->
      DISPLAY_NAME_CACHE_DURATION <= now p1 - lastFetchTime cached) ->
  lookUp p1 userId guildId = Return name ->
  now p2 - now p1 < DISPLAY_NAME_CACHE_DURATION ->
  let first := getDisplayName p1 userId guildId st in
  first.2 = Return name /\
  displayNameCache first.1 !! cacheKey userId guildId
  = Some {| displayName := name; lastFetchTime := now p1 |} /\
  userFetches first.1 = S (userFetches st) /\
  getDisplayName p2 userId guildId first.1 = (first.1, Return name).
Proof.
  intros Hready1 Hready2 Hstale Hlook Hnear first.
  subst first. rewrite (name_cache_miss p1 userId guildId st Hready1 Hstale).
  rewrite Hlook. simpl.
  assert (Hentry :
    (if bool_decide
          (1000 < size (<[cacheKey userId guildId :=
                            {| displayName := name;
                               lastFetchTime := now p1 |}]>
                          (displayNameCache st)))%nat
     then filter (fun kv : string * DisplayNameCacheEntry =>
                    ¬ (lastFetchTime kv.2
                       < now p1 - DISPLAY_NAME_CACHE_DURATION))
            (<[cacheKey userId guildId :=
                 {| displayName := name; lastFetchTime := now p1 |}]>
               (displayNameCache st))
     else <[cacheKey userId guildId :=
              {| displayName := name; lastFetchTime := now p1 |}]>
            (displayNameCache st)) !! cacheKey userId guildId
    = Some {| displayName := name; lastFetchTime := now p1 |}).
  { case_bool_decide.
    - apply map_lookup_filter_Some. split; [apply lookup_insert_eq|].
      simpl. unfold DISPLAY_NAME_CACHE_DURATION. lia.
    - apply lookup_insert_eq. }
  split; [done|]. split; [exact Hentry|]. split; [done|].
  by apply (name_cache_hit p2 userId guildId _
              {| displayName := name; lastFetchTime := now p1 |}).
Qed.

Lemma name_served_for_an_hour_witness :
  let first := getDisplayName directory "100" (Some "g1") blank in
  first.2 = Return "Ally" /\
  displayNameCache first.1 !! cacheKey "100" (Some "g1")
  = Some {| displayName := "Ally"; lastFetchTime := now directory |} /\
  userFetches first.1 = S (userFetches blank) /\
  getDisplayName later "100" (Some "g1") first.1 = (first.1, Return "Ally").
Proof.
  apply (name_served_for_an_hour directory later "100" (Some "g1") blank "Ally").
  - reflexivity.
  - reflexivity.
  - intros cached Hlook. discriminate Hlook.
  - reflexivity.
  - reflexivity.
Defined.

(** Which name is looked up. With a guild id, and user, guild and
    member all fetched, the name is the nickname of the member, else the
    global name of the user, else the account name; with no guild id, or
    an empty one, it is the global name, else the account name, and
    neither guild nor member is asked for. *)
Theorem name_preference p userId guildId user :
  usersFetch p userId 0 = Return user ->
  (forall g nickname,
      guildId = Some g -> g <> "" ->
      guildsFetch p g = Return tt ->
      membersFetch p g userId = Return nickname ->
      lookUp p userId guildId
      = Return (default (default (accountName user) (globalName user))
                        nickname)
      /\ cacheKey userId guildId = g +:+ ":" +:+ userId) /\
  (guildId = None \/ guildId = Some "" ->
   lookUp p userId guildId
   = Return (default (accountName user) (globalName user))
   /\ cacheKey userId guildId = userId).
Proof.
  intros Huser. unfold lookUp, cacheKey, givenGuild. rewrite Huser. simpl.
  split.
  - intros g nickname -> Hg Hguild Hmember. unfold truthy.
    rewrite bool_decide_eq_false_2 by done. simpl.
    by rewrite Hguild, Hmember.
  - by intros [-> | ->].
Qed.

Lemma name_preference_witness :
  lookUp directory "100" (Some "g1")
  = Return (default (default "alice" (Some "Alice A.")) (Some "Ally"))
  /\ cacheKey "100" (Some "g1") = "g1" +:+ ":" +:+ "100".
Proof.
  apply (proj1 (name_preference directory "100" (Some "g1")
                  {| globalName := Some "Alice A."; accountName := "alice" |}
                  eq_refl) "g1" (Some "Ally"));
    [reflexivity | discriminate | reflexivity | reflexivity].
Defined.

(** X22. A name from the fallback is not remembered. When no entry
    younger than an hour is found and the lookup fails (the guild or the
    member cannot be fetched, say), the user is fetched once more and the
    global name, else the account name, is returned, or the error of that
    second fetch; the cache is left as it was, so the next call looks up
    again. *)
Theorem fallback_not_cached p userId guildId st e :
  clientReady p = true ->
  (forall cached,
      displayNameCache st !! cacheKey userId guildId = Some cached ->
      DISPLAY_NAME_CACHE_DURATION <= now p - lastFetchTime cached) ->
  lookUp p userId guildId = Throw e ->
  let result := getDisplayName p userId guildId st in
  displayNameCache result.1 = displayNameCache st /\
  userFetches result.1 = S (S (userFetches st)) /\
  result.2 = match usersFetch p userId 1 with
             | Return user => Return (globalOrAccount user)
             | Throw e' => Throw e'
             end.
Proof.
  intros Hready Hstale Hfail result. subst result.
  rewrite (name_cache_miss p userId guildId st Hready Hstale).
  by rewrite Hfail.
Qed.

Lemma fallback_not_cached_witness :
  let result := getDisplayName directory "100" (Some "g2") blank in
  displayNameCache result.1 = displayNameCache blank /\
  userFetches result.1 = S (S (userFetches blank)) /\
  result.2 = match usersFetch directory "100" 1 with
             | Return user => Return (globalOrAccount user)
             | Throw e' => Throw e'
             end.
Proof.
  apply (fallback_not_cached directory "100" (Some "g2") blank "Unknown Guild").
  - reflexivity.
  - intros cached Hlook. discriminate Hlook.
  - reflexivity.
Defined.

End DisplayNameProofs.

(** ** Reactions *)
Module ReactionProofs.
Import LlmAPI Orchestrator Reactions ReactionSpec OrchestratorSpec Samples
  ReactionSamples.

(** The two stored versions of the handler. That of [src/eventHandler.ts]
    compares with the emoji themselves. *)
Remark handler_of_src_eventHandler :
  Reactions.handleReactionAdd
  = ReactionHandler.handleReactionAdd "👍" "👎" responseEmojis.
Proof. reflexivity. Qed.

(** The current [eventHandler.ts], as it is stored, compares with other
    bytes: a reaction that carries the emoji thumbs-up or thumbs-down
    itself does nothing there. *)
Remark stored_handler_ignores_thumbs w chance client reaction st :
  emojiName reaction = Some "👍" \/ emojiName reaction = Some "👎" ->
  ReactionHandler.storedHandleReactionAdd w chance client reaction st
  = (st, []).
Proof.
  unfold ReactionHandler.storedHandleReactionAdd,
    ReactionHandler.handleReactionAdd.
  intros [-> | ->];
    destruct (partial reaction && negb (fetched reaction)); try done;
    destruct (messagePartial reaction && negb (messageFetched reaction));
    try done;
    by destruct (negb (authorKnown reaction) || _).
Qed.

Lemma own_message_reached thumbsUp thumbsDown emojis w chance client
    reaction st name :
  onOwnMessage client reaction name ->
  ReactionHandler.handleReactionAdd thumbsUp thumbsDown emojis w chance
    client reaction st
  = if bool_decide (name = thumbsUp) then
      if existsb (fun users => bool_decide (botId client ∈ users))
                 (reactors reaction)
      then (st, [])
      else if reacts chance
           then (st, [React (message_id (target reaction))
                        (emojis !! randomIndex chance)])
           else (st, [])
    else if bool_decide (name = thumbsDown) then
      match processConversation w client (target reaction) true st with
      | (st, Return _) => (st, [Delete (message_id (target reaction))])
      | (st, Throw _) => (st, [])
      end
    else (st, []).
Proof.
  intros (Hr & Hm & Ha & Hown & Hname).
  unfold ReactionHandler.handleReactionAdd.
  assert (partial reaction && negb (fetched reaction) = false) as ->.
  { destruct (partial reaction); [by rewrite Hr|done]. }
  assert (messagePartial reaction && negb (messageFetched reaction) = false)
    as ->.
  { destruct (messagePartial reaction); [by rewrite Hm|done]. }
  rewrite Ha, Hown, Hname. rewrite (bool_decide_eq_true_2 (botId client = _))
    by done. simpl.
  assert (bool_decide (Some name = Some thumbsUp)
          = bool_decide (name = thumbsUp)) as ->.
  { apply bool_decide_ext. split; congruence. }
  assert (bool_decide (Some name = Some thumbsDown)
          = bool_decide (name = thumbsDown)) as ->.
  { apply bool_decide_ext. split; congruence. }
  done.
Qed.

(** X23. The thumbs-up branch of [handleReactionAdd], for both stored
    versions, each with its own literals. A reaction on a message of the
    bot whose emoji name is the literal the handler compares with for
    thumbs-up is answered at most once and only from the list of the
    handler: if the bot is among the users of any reaction on the message,
    nothing is done; otherwise, with the random index inside the list,
    the bot adds one emoji of the list, or none when the platform
    refuses. The state of the orchestrator is not touched. *)
Theorem thumbs_up_once thumbsUp thumbsDown emojis w chance client reaction
    st :
  onOwnMessage client reaction thumbsUp ->
  (randomIndex chance < List.length emojis)%nat ->
  exists emoji,
    emoji ∈ emojis /\
    ReactionHandler.handleReactionAdd thumbsUp thumbsDown emojis w chance
      client reaction st
    = (st,
       if existsb (fun users => bool_decide (botId client ∈ users))
                  (reactors reaction)
       then []
       else if reacts chance
            then [React (message_id (target reaction)) (Some emoji)]
            else []).
Proof.
  intros Hown Hrandom.
  rewrite (own_message_reached thumbsUp thumbsDown emojis w chance client
             reaction st thumbsUp Hown).
  rewrite bool_decide_eq_true_2 by done.
  destruct (lookup_lt_is_Some_2 emojis (randomIndex chance) Hrandom)
    as [emoji Hemoji].
  exists emoji. split; [by eapply list_elem_of_lookup_2|].
  rewrite Hemoji. destruct (existsb _ _); [done|]. by destruct (reacts chance).
Qed.

Lemma thumbs_up_once_witness :
  exists emoji,
    emoji ∈ responseEmojis /\
    ReactionHandler.handleReactionAdd "👍" "👎" responseEmojis
      (remembering 10000 echo) {| randomIndex := 3; reacts := true |} self
      (thumb "👍" botReply) idle
    = (idle,
       if existsb (fun users => bool_decide (botId self ∈ users))
                  (reactors (thumb "👍" botReply))
       then []
       else if reacts {| randomIndex := 3; reacts := true |}
            then [React (message_id (target (thumb "👍" botReply)))
                    (Some emoji)]
            else []).
Proof.
  apply (thumbs_up_once "👍" "👎" responseEmojis (remembering 10000 echo)
           {| randomIndex := 3; reacts := true |} self (thumb "👍" botReply)
           idle).
  - repeat split; discriminate.
  - simpl. lia.
Defined.

(** X24. The thumbs-down branch during a rate limit, for both stored
    versions, each with its own literals (the two literals differ). When
    the emoji name of a reaction on a message of the bot is the literal
    for thumbs-down and [processConversation] for that message meets
    [rate_limited], the handler goes on to call [message.delete()] on the
    message of the bot, and the run has posted nothing, typing signals
    apart: the reply is asked to be removed and nothing is put in its
    place. *)
Theorem thumbs_down_rate_limited thumbsUp thumbsDown emojis w chance client
    reaction st st1 conversation userMessage botName :
  thumbsUp <> thumbsDown ->
  onOwnMessage client reaction thumbsDown ->
  isSendable (channel (target reaction)) = true ->
  ephemeralFetchConversation w (botId client) (target reaction)
    (convLength (botConfig client)) 5000 st = (st1, Return conversation) ->
  accepts w (SendTyping (channel_id (channel (target reaction)))) = true ->
  resolveUserMessage w (botId client) (target reaction) = Some userMessage ->
  getDisplayName w (botId client) (guildId (target reaction))
  = Return botName ->
  callLLM (JSON_stringify w) (endpoint w) (botConfig client)
    (items conversation)
    (Session.sessionId
       (Session.sessionData (botId client) botName
          (user_id (author userMessage)) (channel (target reaction))))
  = Return RateLimited ->
  let result :=
    ReactionHandler.handleReactionAdd thumbsUp thumbsDown emojis w chance
      client reaction st in
  result.2 = [Delete (message_id (target reaction))] /\
  posts (done_ result.1) = posts (done_ st).
Proof.
  intros Hdiffer Hown Hsend Hfetch Htyping Huser Hname Hllm result.
  pose proof (OrchestratorMoreProofs.fetch_frame w (botId client)
                (target reaction) (convLength (botConfig client)) 5000 st)
    as (_ & _ & Hdone).
  rewrite Hfetch in Hdone. simpl in Hdone.
  subst result.
  rewrite (own_message_reached thumbsUp thumbsDown emojis w chance client
             reaction st thumbsDown Hown).
  rewrite (bool_decide_eq_false_2 (thumbsDown = thumbsUp)) by congruence.
  rewrite bool_decide_eq_true_2 by done.
  unfold processConversation. rewrite Hsend, Hfetch. simpl.
  unfold perform. rewrite Htyping. simpl.
  rewrite Huser, Hname, Hllm. simpl. by rewrite Hdone.
Qed.

Lemma thumbs_down_rate_limited_witness :
  let result :=
    ReactionHandler.handleReactionAdd "👍" "👎" responseEmojis
      (remembering 10000 (answering 429 DataNull))
      {| randomIndex := 0; reacts := true |} historian (thumb "👎" botReply)
      idle in
  result.2 = [Delete "m2"] /\
  posts (done_ result.1) = posts (done_ idle).
Proof.
  eapply (thumbs_down_rate_limited "👍" "👎" responseEmojis
            (remembering 10000 (answering 429 DataNull))
            {| randomIndex := 0; reacts := true |} historian
            (thumb "👎" botReply) idle).
  - discriminate.
  - repeat split; discriminate.
  - reflexivity.
  - reflexivity.
  - reflexivity.
  - reflexivity.
  - reflexivity.
  - reflexivity.
Defined.

(** X25. The thumbs-down branch when nothing can be regenerated, for
    both stored versions, each with its own literals (the two literals
    differ). The emoji name of a reaction on a message of the bot is the
    literal for thumbs-down; the bot has no history configured, the
    channel has no topic and no conversation younger than five seconds is
    cached. The conversation for the bot's own message is then empty: the
    inference client throws, the handler swallows the error and does not
    call [message.delete()], and the run has posted nothing, typing
    signals apart. *)
Theorem thumbs_down_without_history thumbsUp thumbsDown emojis w chance
    client reaction st userMessage botName :
  thumbsUp <> thumbsDown ->
  onOwnMessage client reaction thumbsDown ->
  convLength (botConfig client) = 0%nat ->
  topic (channel (target reaction)) = None ->
  (forall cached,
      channelCache st !! channel_id (channel (target reaction)) = Some cached ->
      5000 <= now w - lastFetchTime cached) ->
  isSendable (channel (target reaction)) = true ->
  accepts w (SendTyping (channel_id (channel (target reaction)))) = true ->
  resolveUserMessage w (botId client) (target reaction) = Some userMessage ->
  getDisplayName w (botId client) (guildId (target reaction))
  = Return botName ->
  let result :=
    ReactionHandler.handleReactionAdd thumbsUp thumbsDown emojis w chance
      client reaction st in
  result.2 = [] /\
  posts (done_ result.1) = posts (done_ st).
Proof.
  intros Hdiffer Hown Hlen Htopic Hstale Hsend Htyping Huser Hname result.
  pose proof (proj1 (OrchestratorMoreProofs.conversation_without_history
                       w (botId client) (target reaction))
                (proj1 (proj2 (proj2 (proj2 Hown))))) as Hfetch.
  unfold topicLines in Hfetch. rewrite Htopic in Hfetch.
  destruct (OrchestratorProofs.cache_miss w (botId client) (target reaction)
              0 5000 st [] Hstale ltac:(lia) Hfetch) as (Hr & _ & _).
  pose proof (OrchestratorMoreProofs.fetch_frame w (botId client)
                (target reaction) 0 5000 st) as (_ & _ & Hdone).
  subst result.
  rewrite (own_message_reached thumbsUp thumbsDown emojis w chance client
             reaction st thumbsDown Hown).
  rewrite (bool_decide_eq_false_2 (thumbsDown = thumbsUp)) by congruence.
  rewrite bool_decide_eq_true_2 by done.
  unfold processConversation. rewrite Hlen, Hsend.
  destruct (ephemeralFetchConversation w (botId client) (target reaction)
              0 5000 st) as [st1 outcome].
  simpl in Hr, Hdone. subst outcome. simpl.
  unfold perform. rewrite Htyping. simpl. rewrite Huser, Hname. simpl.
  by rewrite Hdone.
Qed.

Lemma thumbs_down_without_history_witness :
  let result :=
    ReactionHandler.handleReactionAdd "👍" "👎" responseEmojis
      (remembering 10000 echo) {| randomIndex := 0; reacts := true |} self
      (thumb "👎" botReply) idle in
  result.2 = [] /\
  posts (done_ result.1) = posts (done_ idle).
Proof.
  eapply (thumbs_down_without_history "👍" "👎" responseEmojis
            (remembering 10000 echo) {| randomIndex := 0; reacts := true |}
            self (thumb "👎" botReply) idle).
  - discriminate.
  - repeat split; discriminate.
  - reflexivity.
  - reflexivity.
  - intros cached Hlook. discriminate Hlook.
  - reflexivity.
  - reflexivity.
  - reflexivity.
  - reflexivity.
Defined.

(** X26. Reactions that are not for the bot are ignored: when the
    message has no known author or was written by somebody else, or the
    emoji is neither thumbs-up nor thumbs-down, or a partial reaction or
    message cannot be fetched, the handler does nothing at all. *)
Theorem other_reactions_ignored w chance client reaction st :
  (partial reaction = true /\ fetched reaction = false)
  \/ (messagePartial reaction = true /\ messageFetched reaction = false)
  \/ authorKnown reaction = false
  \/ user_id (author (target reaction)) <> botId client
  \/ (emojiName reaction <> Some "👍" /\ emojiName reaction <> Some "👎") ->
  handleReactionAdd w chance client reaction st = (st, []).
Proof.
  unfold handleReactionAdd.
  intros [[-> ->]|[[-> ->]|[->|[Hother|[Hup Hdown]]]]]; simpl.
  - done.
  - by destruct (partial reaction && negb (fetched reaction)).
  - destruct (partial reaction && negb (fetched reaction)); [done|].
    by destruct (messagePartial reaction && negb (messageFetched reaction)).
  - destruct (partial reaction && negb (fetched reaction)); [done|].
    destruct (messagePartial reaction && negb (messageFetched reaction));
      [done|].
    rewrite (bool_decide_eq_false_2 (_ = botId client)) by done.
    by rewrite orb_true_r.
  - destruct (partial reaction && negb (fetched reaction)); [done|].
    destruct (messagePartial reaction && negb (messageFetched reaction));
      [done|].
    destruct (negb (authorKnown reaction) || _); [done|].
    by rewrite !bool_decide_eq_false_2 by done.
Qed.

Lemma other_reactions_ignored_witness :
  handleReactionAdd (remembering 10000 echo)
    {| randomIndex := 0; reacts := true |} self
    (thumb "👎" (ask "m1" guildChannel 9000)) idle
  = (idle, []).
Proof.
  apply other_reactions_ignored. right. right. right. left. discriminate.
Defined.

End ReactionProofs.

(** ** Loading the configuration (first version) *)
Module IndexProofs.
Import Index.

Lemma max1_bound x z : max1 x = Num z -> 1 <= z.
Proof. destruct x as [|y]; simpl; [done|]. intros [= <-]. lia. Qed.

(** X27. The history length that [loadBotConfig] reads is never 0: it is
    a number of at least 1, or [NaN]. With the variable unset or empty it
    is 1, and with the variable set to "0" it is 1 as well, so this
    version cannot be told to send no history. *)
Theorem history_length_at_least_one JSON_parse (env : gmap string string) id :
  let limit := messageLimit (loadBotConfig JSON_parse env id) in
  let variable := env !! ((id +:+ "_") +:+ "CONVERSATION_LENGTH") in
  (forall z, limit = Num z -> 1 <= z) /\
  (variable = None \/ variable = Some "" -> limit = Num 1) /\
  (variable = Some "0" -> limit = Num 1).
Proof.
  simpl. split; [|split].
  - intros z. apply max1_bound.
  - by intros [-> | ->].
  - by intros ->.
Qed.

(** [parseInt] on some values of the variable. *)
Example parseInt10_samples :
  parseInt10 "30" = Num 30 /\ parseInt10 "  12px" = Num 12 /\
  parseInt10 "-7" = Num (-7) /\ parseInt10 "+4.9" = Num 4 /\
  parseInt10 "abc" = NaN /\ parseInt10 "- 5" = NaN /\ parseInt10 "" = NaN.
Proof. vm_compute. done. Qed.

Lemma endsWith_append a b : endsWith (a +:+ b) b = true.
Proof.
  induction a as [|c a IH].
  - change ("" +:+ b) with b.
    destruct b; cbn [endsWith]; by rewrite bool_decide_eq_true_2.
  - change (String c a +:+ b) with (String c (a +:+ b)). cbn [endsWith].
    rewrite IH. apply orb_true_r.
Qed.

Lemma firstSegment_clean s : OrchestratorSpec.lacks "_" (firstSegment s) = true.
Proof.
  induction s as [|c s IH]; [done|]. cbn [firstSegment].
  destruct (Ascii.eqb c "_") eqn:Hc; [done|].
  cbn [OrchestratorSpec.lacks]. rewrite Ascii.eqb_sym, Hc. by rewrite IH.
Qed.

Lemma firstSegment_prefix name rest :
  OrchestratorSpec.lacks "_" name = true ->
  firstSegment (name +:+ String "_" rest) = name.
Proof.
  induction name as [|c name IH]; intros H.
  - reflexivity.
  - cbn [OrchestratorSpec.lacks] in H.
    apply andb_true_iff in H as [Hc Hname]. apply negb_true_iff in Hc.
    rewrite Ascii.eqb_sym in Hc.
    change (String c name +:+ String "_" rest)
      with (String c (name +:+ String "_" rest)).
    cbn [firstSegment]. rewrite Hc. by rewrite IH.
Qed.

Lemma elem_of_getAllBotIds (env : gmap string string) name :
  name ∈ getAllBotIds env <->
  exists key token,
    env !! key = Some token /\ endsWith key "_DISCORD_BOT_TOKEN" = true /\
    name = firstSegment key.
Proof.
  unfold getAllBotIds. rewrite list_elem_of_fmap. split.
  - intros (key & -> & Hkey). apply list_elem_of_In in Hkey.
    apply filter_In in Hkey as [Hin Hends]. apply list_elem_of_In in Hin.
    apply list_elem_of_fmap in Hin as ([k token] & -> & Hpair).
    apply elem_of_map_to_list in Hpair. by exists k, token.
  - intros (key & token & Hlook & Hends & ->). exists key. split; [done|].
    apply list_elem_of_In. apply filter_In. split; [|done].
    apply list_elem_of_In. apply list_elem_of_fmap. exists (key, token).
    split; [done|]. by apply elem_of_map_to_list.
Qed.

(** X28. A bot whose prefix has no underscore is found and loaded: when
    the environment holds the token under [<prefix>_DISCORD_BOT_TOKEN],
    the prefix is among the ids of [getAllBotIds], and [loadBotConfig] for
    it reads that token. *)
Theorem plain_prefix_found JSON_parse (env : gmap string string) prefix token :
  OrchestratorSpec.lacks "_" prefix = true ->
  env !! (prefix +:+ "_DISCORD_BOT_TOKEN") = Some token ->
  prefix ∈ getAllBotIds env /\
  discordBotToken (loadBotConfig JSON_parse env prefix) = Some token.
Proof.
  intros Hplain Hlook. split.
  - apply elem_of_getAllBotIds. exists (prefix +:+ "_DISCORD_BOT_TOKEN"), token.
    split; [done|]. split; [apply endsWith_append|].
    symmetry. by apply (firstSegment_prefix prefix "DISCORD_BOT_TOKEN").
  - simpl. rewrite OrchestratorMoreProofs.append_assoc_string. exact Hlook.
Qed.

Lemma plain_prefix_found_witness :
  "2" ∈ getAllBotIds {["2_DISCORD_BOT_TOKEN" := "tok"; "PATH" := "/bin"]} /\
  discordBotToken
    (loadBotConfig (fun _ => None)
       {["2_DISCORD_BOT_TOKEN" := "tok"; "PATH" := "/bin"]} "2")
  = Some "tok".
Proof.
  apply (plain_prefix_found (fun _ => None)
           {["2_DISCORD_BOT_TOKEN" := "tok"; "PATH" := "/bin"]} "2" "tok");
    reflexivity.
Defined.

(** X29. No id that [getAllBotIds] returns contains an underscore: each
    is the part before the first underscore of a key that ends in
    [_DISCORD_BOT_TOKEN]. A prefix with an underscore in it is therefore
    cut short. *)
Theorem ids_stop_at_underscore (env : gmap string string) name :
  name ∈ getAllBotIds env ->
  OrchestratorSpec.lacks "_" name = true /\
  exists key token,
    env !! key = Some token /\ endsWith key "_DISCORD_BOT_TOKEN" = true /\
    name = firstSegment key.
Proof.
  intros Hin. apply elem_of_getAllBotIds in Hin as (key & token & H1 & H2 & ->).
  split; [apply firstSegment_clean|]. by exists key, token.
Qed.

Lemma ids_stop_at_underscore_witness :
  OrchestratorSpec.lacks "_" "MY" = true /\
  exists key token,
    ({["MY_BOT_DISCORD_BOT_TOKEN" := "tok"]} : gmap string string) !! key
    = Some token /\
    endsWith key "_DISCORD_BOT_TOKEN" = true /\ "MY" = firstSegment key.
Proof.
  apply (ids_stop_at_underscore {["MY_BOT_DISCORD_BOT_TOKEN" := "tok"]} "MY").
  apply elem_of_getAllBotIds. exists "MY_BOT_DISCORD_BOT_TOKEN", "tok".
  repeat split.
Defined.

(** The bot "MY_BOT" is taken for "MY", and no token is found for it. *)
Example underscore_prefix_cut :
  getAllBotIds {["MY_BOT_DISCORD_BOT_TOKEN" := "tok"]} = ["MY"] /\
  discordBotToken
    (loadBotConfig (fun _ => None) {["MY_BOT_DISCORD_BOT_TOKEN" := "tok"]} "MY")
  = None.
Proof. vm_compute. done. Qed.

End IndexProofs.

(** ** More on the session id *)
Module SessionMoreProofs.
Import Session.

(** X30. Two session ids are the same exactly when they were built from
    the same bot id, bot name and user id and from channels that stand
    for the same session channel: a thread stands for its parent, any
    other channel for itself. So a thread and its parent channel share
    the session of a user, and no two different users, bots or channels
    do. *)
Theorem session_ids_coincide b1 n1 u1 (c1 : Channel) b2 n2 u2 (c2 : Channel) :
  sessionId (sessionData b1 n1 u1 c1) = sessionId (sessionData b2 n2 u2 c2)
  <-> b1 = b2 /\ n1 = n2 /\ u1 = u2 /\
      (if isThread c1 then parentId c1 else Some (channel_id c1))
      = (if isThread c2 then parentId c2 else Some (channel_id c2)).
Proof.
  split.
  - intros H. apply SessionProofs.sessionId_injective in H.
    unfold sessionData in H. by inversion H.
  - intros (-> & -> & -> & Hc). unfold sessionData. by rewrite Hc.
Qed.

(** A thread under channel c1 and channel c1 itself. *)
Example thread_shares_parent_session :
  let thread :=
    {| channel_id := "t7"; kind := ThreadChannel;
       channel_guildId := Some "g1"; parentId := Some "c1"; topic := None;
       permissionsFor := None; sendable := true; joined := true;
       isSendable := true |} in
  sessionId (sessionData "200" "Helper" "100" thread)
  = sessionId (sessionData "200" "Helper" "100" Samples.guildChannel).
Proof. reflexivity. Qed.

End SessionMoreProofs.
